(** * Role sanitization of cdp-scrapers: a shallow embedding

    This development embeds [cdp_scrapers/utils/sanitize_roles.py] and
    states its behaviour as theorems.

    The Python function works on mutable [Role] objects that the caller,
    the static data and the returned list share.  Objects are therefore
    modelled by a store from object identities to field values, lists of
    roles are lists of identities, and every assignment to a field is an
    update of the store. *)

From Stdlib Require Import ZArith String Ascii List Bool Lia.
From Stdlib Require Import OrderedTypeEx FunctionalExtensionality.
From stdpp Require Import base option list strings gmap pretty.

Open Scope string_scope.
Open Scope Z_scope.

(** ** Text *)

Module Text.

(** [str.lower()] on ASCII text: the letters A-Z are moved to a-z, every
    other byte is kept.  Text with letters outside ASCII, which Python
    lower-cases by the Unicode tables, is outside the model. *)
Definition lower_ascii (c : ascii) : ascii :=
  let n := N_of_ascii c in
  if ((65 <=? n) && (n <=? 90))%N then ascii_of_N (n + 32) else c.

Fixpoint lower (s : string) : string :=
  match s with
  | EmptyString => EmptyString
  | String c s' => String (lower_ascii c) (lower s')
  end.

(** [needle in hay] *)
Fixpoint contains (needle hay : string) : bool :=
  String.prefix needle hay ||
  match hay with
  | EmptyString => false
  | String _ hay' => contains needle hay'
  end.

(** [sep.join(parts)] *)
Fixpoint join (sep : string) (parts : list string) : string :=
  match parts with
  | [] => EmptyString
  | [p] => p
  | p :: rest => p ++ sep ++ join sep rest
  end.

(** The alternatives of a regular expression [a1|a2|...|an]: the text
    between the bars.  The empty expression has one alternative, the empty
    one. *)
Fixpoint alternatives (pattern : string) : list string :=
  match pattern with
  | EmptyString => [EmptyString]
  | String c rest =>
      if Ascii.eqb c "|"%char then EmptyString :: alternatives rest
      else match alternatives rest with
           | a :: others => String c a :: others
           | [] => [String c EmptyString]
           end
  end.

(** [re.search(pattern, s, re.I) is not None] for the patterns the
    scrapers configure: alternations of literal text.  The search succeeds
    when some alternative occurs in [s], letter case ignored.  A pattern
    with other operators of regular expressions is outside the model, and
    so is an ill-formed one, on which [re.search] raises [re.error]. *)
Definition re_search_I (pattern s : string) : bool :=
  existsb (fun alt => contains (lower alt) (lower s)) (alternatives pattern).

End Text.

(** ** Data model *)

(** [cdp_backend.database.constants.RoleTitle] *)
Module RoleTitle.
Definition CHAIR := "Chair".
Definition COUNCILMEMBER := "Councilmember".
Definition COUNCILPRESIDENT := "Council President".
Definition ALTERNATE := "Alternate".
Definition MEMBER := "Member".
Definition SUPERVISOR := "Supervisor".
Definition VICE_CHAIR := "Vice Chair".
End RoleTitle.

(** A [datetime] is the instant it denotes, in microseconds since the epoch
    (so [astimezone(pytz.utc)] is the identity and comparisons are those of
    instants); [timedelta(days=1)] is [one_day].  The integers are not
    bounded and are all comparable, where Python raises [OverflowError] on
    a subtraction that leaves the range of [datetime] and [TypeError] on
    the comparison of a naive with an aware datetime: the model is that of
    the calls on which neither happens, and what is stated of the result
    of a run is stated of a run that returns. *)
Definition datetime := Z.
Definition one_day : Z := 86400000000.

(** [ingestion_models.Body]: the fields the sanitizer can observe. *)
Record Body := {
  name : option string;
  body_external_source_id : option string
}.

(** [ingestion_models.Role], a dataclass: [==] compares all fields. *)
Record Role := {
  title : option string;
  body : option Body;
  start_datetime : option datetime;
  end_datetime : option datetime;
  external_source_id : option string
}.

#[global] Instance Body_eq_dec : EqDecision Body.
Proof. solve_decision. Defined.

#[global] Instance Role_eq_dec : EqDecision Role.
Proof. solve_decision. Defined.

(** Object identities of [Role] objects, and the store that gives every
    object its current field values. *)
Definition loc := nat.
Definition store := loc -> Role.

Definition with_title (ρ : Role) (t : string) : Role :=
  {| title := Some t; body := body ρ;
     start_datetime := start_datetime ρ;
     end_datetime := end_datetime ρ;
     external_source_id := external_source_id ρ |}.

Definition with_end_datetime (ρ : Role) (d : datetime) : Role :=
  {| title := title ρ; body := body ρ;
     start_datetime := start_datetime ρ;
     end_datetime := Some d;
     external_source_id := external_source_id ρ |}.

(** [role.title = t] and [role.end_datetime = d] *)
Definition set_title (σ : store) (r : loc) (t : string) : store :=
  fun r' => if decide (r' = r) then with_title (σ r') t else σ r'.

Definition set_end_datetime (σ : store) (r : loc) (d : datetime) : store :=
  fun r' => if decide (r' = r) then with_end_datetime (σ r') d else σ r'.

(** [ingestion_models.Seat] and [Person], as far as [seat.roles] goes, and
    [cdp_scrapers.types.ScraperStaticData]. *)
Record Seat := { roles : option (list loc) }.
Record Person := { seat : option Seat }.
Record ScraperStaticData := {
  primary_bodies : gmap string Body;
  persons : gmap string Person
}.

(** ** Exceptions *)

Inductive exn := TypeError | ValueError.

Inductive result (A : Type) :=
| Ok (a : A)
| Raise (e : exn).
Arguments Ok {A} a.
Arguments Raise {A} e.

#[global] Instance result_bind : MBind result :=
  fun A B k m =>
    match m with
    | Ok a => k a
    | Raise e => Raise e
    end.

(** The store a call leaves behind: the one it returns with, or the store
    of the call when it raises before any assignment. *)
Definition returned_store {A : Type} (res : result (store * A)) (σ : store)
    : store :=
  match res with
  | Ok (σ', _) => σ'
  | Raise _ => σ
  end.

(** ** Sorting and grouping *)

(** [R x y] holds for every [x] of the list and every [y] after it. *)
Inductive all_pairs {A : Type} (R : A -> A -> Prop) : list A -> Prop :=
| all_pairs_nil : all_pairs R []
| all_pairs_cons x l :
    (forall y, In y l -> R x y) -> all_pairs R l -> all_pairs R (x :: l).

(** [sorted(l, key=...)] is stable; a stable sort is determined by the order
    on keys, and insertion from the right computes it. *)
Section sorting.
Context {A : Type} (leb : A -> A -> bool).

Fixpoint insert_sorted (x : A) (l : list A) : list A :=
  match l with
  | [] => [x]
  | y :: l' => if leb x y then x :: y :: l' else y :: insert_sorted x l'
  end.

Fixpoint sorted (l : list A) : list A :=
  match l with
  | [] => []
  | x :: l' => insert_sorted x (sorted l')
  end.

(** Two elements have the same key. *)
Definition same_key (z x : A) : bool := leb x z && leb z x.

(** Every element is below all the elements that follow it. *)
Definition ascending : list A -> Prop :=
  all_pairs (fun x y => leb x y = true).
End sorting.

(** [itertools.groupby(l, key=...)]: the maximal runs of equal keys. *)
Section grouping.
Context {A : Type} (same : A -> A -> bool).

Fixpoint groupby (l : list A) : list (list A) :=
  match l with
  | [] => []
  | x :: l' =>
      match groupby l' with
      | (y :: g) :: gs =>
          if same x y then (x :: y :: g) :: gs else [x] :: (y :: g) :: gs
      | _ => [[x]]
      end
  end.
End grouping.

(** ** Concrete data for the examples *)

Module Example.

(** An instance of [str_simplified] for plain ASCII text without line
    breaks, where [cleantext.clean] strips the text and collapses runs of
    blanks. *)
Definition is_blank (c : ascii) : bool :=
  Ascii.eqb c " "%char || Ascii.eqb c "009"%char.

Definition blank_or_end (s : string) : bool :=
  match s with
  | EmptyString => true
  | String c _ => is_blank c
  end.

Fixpoint squeeze (at_start : bool) (s : string) : string :=
  match s with
  | EmptyString => EmptyString
  | String c s' =>
      if is_blank c then
        if at_start || blank_or_end s' then squeeze at_start s'
        else String " "%char (squeeze false s')
      else String c (squeeze false s')
  end.

Definition str_simplified (s : string) : string := squeeze true s.

Definition day (n : Z) : datetime := n * one_day.

Definition city_council : Body :=
  {| name := Some "City Council"; body_external_source_id := None |}.

Definition transportation : Body :=
  {| name := Some "Transportation Committee";
     body_external_source_id := None |}.

Definition role (t : option string) (b : Body) (s e : option datetime)
    : Role :=
  {| title := t; body := Some b; start_datetime := s; end_datetime := e;
     external_source_id := None |}.

(** Scraped roles of one person: two overlapping terms on the council, a
    committee seat, and a role without a start. *)
Definition scraped : store :=
  fun r =>
    match r with
    | 0%nat => role None city_council (Some (day 0)) (Some (day 10))
    | 1%nat => role (Some "Councilmember") city_council
                 (Some (day 5)) (Some (day 20))
    | 2%nat => role (Some "Secretary") transportation
                 (Some (day 1)) (Some (day 30))
    | _ => role (Some "Chair") transportation None (Some (day 30))
    end.

(** Scraped roles (objects 0 and 1) next to the roles of a static data
    file (objects 5, 6 and 7): one with both dates, one still running and
    so without an end, one without a start. *)
Definition with_statics : store :=
  fun r =>
    match r with
    | 0%nat => role (Some "Member") city_council
                 (Some (day 2)) (Some (day 3))
    | 1%nat => role (Some "Vice Chair") transportation
                 (Some (day 2)) (Some (day 3))
    | 5%nat => role (Some "Councilmember") city_council
                 (Some (day 0)) (Some (day 100))
    | 6%nat => role (Some "Councilmember") city_council
                 (Some (day 50)) None
    | _ => role (Some "Councilmember") city_council
             None (Some (day 100))
    end.

Definition static_data (statics : list loc) : ScraperStaticData :=
  {| primary_bodies := {[ "City Council" := city_council ]};
     persons := {[ "Jane" := {| seat := Some {| roles := Some statics |} |} ]}
  |}.

(** The council under two more spellings of its name: in lower case, and
    with two blanks. *)
Definition council_lower_case : Body :=
  {| name := Some "city council"; body_external_source_id := None |}.

Definition council_two_blanks : Body :=
  {| name := Some "City  Council"; body_external_source_id := None |}.

(** Two overlapping terms on the council, scraped with two spellings of
    its name. *)
Definition two_spellings : store :=
  fun r =>
    match r with
    | 0%nat => role None city_council (Some (day 0)) (Some (day 10))
    | _ => role (Some "Councilmember") council_lower_case
             (Some (day 5)) (Some (day 20))
    end.

(** A scraped role (object 0) and a static role (object 5) on the council
    spelled with two blanks, and a static role on a committee (object 8). *)
Definition declared_with_blanks : store :=
  fun r =>
    match r with
    | 0%nat => role (Some "Councilmember") council_two_blanks
                 (Some (day 2)) (Some (day 3))
    | 8%nat => role (Some "Chairman") transportation
                 (Some (day 0)) (Some (day 100))
    | _ => role (Some "Councilmember") council_two_blanks
             (Some (day 0)) (Some (day 100))
    end.

(** Static data that declares the council under the key with two blanks. *)
Definition static_data_two_blanks (statics : list loc) : ScraperStaticData :=
  {| primary_bodies := {[ "City  Council" := council_two_blanks ]};
     persons := {[ "Jane" := {| seat := Some {| roles := Some statics |} |} ]}
  |}.

End Example.

(** [get_all_class_attr_values(RoleTitle)]: the titles a role may carry. *)
Definition role_titles : list string :=
  [RoleTitle.CHAIR; RoleTitle.COUNCILMEMBER; RoleTitle.COUNCILPRESIDENT;
   RoleTitle.ALTERNATE; RoleTitle.MEMBER; RoleTitle.SUPERVISOR;
   RoleTitle.VICE_CHAIR].
(** ** [reduced_list] *)

(** An item of the list is [None] or a value. *)
Definition reduced_list {A : Type} (input_list : list (option A))
    (collapse : bool) : option (list (option A)) :=
  let filtered :=
    List.filter (fun item => match item with None => false | Some _ => true end)
      input_list in
  if collapse && bool_decide (length filtered = 0%nat) then None
  else Some filtered.
(** ** JSON values and Python exceptions, for the functions that read JSON *)

(** What [json.load] and [response.json()] return (numbers with a fraction
    are left out). *)
#[warnings="-register-all"]
Inductive json :=
| JNull
| JBool (b : bool)
| JInt (n : Z)
| JStr (s : string)
| JList (items : list json)
| JDict (entries : list (string * json)).

Module Py.

Inductive error :=
| KeyError | TypeError | AttributeError | URLError | HTTPError
| JSONDecodeError | ConnectionError | OSError | NotImplementedError.

Inductive outcome (A : Type) :=
| Return (a : A)
| Raise (e : error).
Arguments Return {A} a.
Arguments Raise {A} e.

#[global] Instance outcome_bind : MBind outcome :=
  fun A B k m =>
    match m with
    | Return a => k a
    | Raise e => Raise e
    end.

(** [d[k]] on a dict, and [k in d]. *)
Fixpoint dict_get (k : string) (d : list (string * json)) : option json :=
  match d with
  | [] => None
  | (k', v) :: d' => if String.eqb k k' then Some v else dict_get k d'
  end.

(** [d[k] = v]: the entry is replaced where it is, or added at the end. *)
Fixpoint dict_set (k : string) (v : json) (d : list (string * json))
    : list (string * json) :=
  match d with
  | [] => [(k, v)]
  | (k', v') :: d' =>
      if String.eqb k k' then (k, v) :: d' else (k', v') :: dict_set k v d'
  end.

(** [{k: v for k, v in d.items() if k not in ks}] *)
Definition dict_without (ks : list string) (d : list (string * json))
    : list (string * json) :=
  List.filter (fun kv => negb (existsb (String.eqb (fst kv)) ks)) d.

(** [j[k]] for a string [k]: only a dict can be subscripted by a string. *)
Definition subscript (j : json) (k : string) : outcome json :=
  match j with
  | JDict d =>
      match dict_get k d with
      | Some v => Return v
      | None => Raise KeyError
      end
  | _ => Raise TypeError
  end.

(** [for x in j]: a list gives its items, a dict its keys, a string its
    characters; nothing else can be iterated. *)
Fixpoint characters (s : string) : list json :=
  match s with
  | EmptyString => []
  | String c s' => JStr (String c EmptyString) :: characters s'
  end.

Definition iterate (j : json) : outcome (list json) :=
  match j with
  | JList items => Return items
  | JDict d => Return (List.map (fun kv => JStr (fst kv)) d)
  | JStr s => Return (characters s)
  | _ => Raise TypeError
  end.

(** [k in j] for a string [k]: a key of a dict, an item of a list, a part
    of a string. *)
Definition contains (k : string) (j : json) : outcome bool :=
  match j with
  | JDict d => Return (bool_decide (is_Some (dict_get k d)))
  | JList items =>
      Return (existsb (fun x => match x with
                                | JStr s => String.eqb s k
                                | _ => false
                                end) items)
  | JStr s => Return (Text.contains k s)
  | _ => Raise TypeError
  end.

(** [bool(j)] *)
Definition truthy (j : json) : bool :=
  match j with
  | JNull => false
  | JBool b => b
  | JInt n => negb (n =? 0)
  | JStr s => negb (String.eqb s "")
  | JList items => negb (bool_decide (length items = 0%nat))
  | JDict d => negb (bool_decide (length d = 0%nat))
  end.

End Py.

(** ** Objects that are created: a store and the next free identity *)

Record heap := { objects : store; next : loc }.

(** A new [Role] object with the value [ρ]. *)
Definition alloc (ρ : Role) (h : heap) : loc * heap :=
  (next h,
   {| objects := fun r => if decide (r = next h) then ρ else objects h r;
      next := S (next h) |}).

(** [deepcopy] of a list of roles: every object is copied once, and an
    object that occurs twice is copied to one new object ([memo] maps the
    objects copied so far to their copies). *)
Fixpoint memo_get (memo : list (loc * loc)) (r : loc) : option loc :=
  match memo with
  | [] => None
  | (old, new) :: memo' =>
      if decide (r = old) then Some new else memo_get memo' r
  end.

Fixpoint deepcopy_roles (memo : list (loc * loc)) (rs : list loc) (h : heap)
    : list loc * heap :=
  match rs with
  | [] => ([], h)
  | r :: rs' =>
      match memo_get memo r with
      | Some r' =>
          let (rs'', h') := deepcopy_roles memo rs' h in (r' :: rs'', h')
      | None =>
          let (r', h1) := alloc (objects h r) h in
          let (rs'', h2) := deepcopy_roles ((r, r') :: memo) rs' h1 in
          (r' :: rs'', h2)
      end
  end.

Definition deepcopy_seat (s : Seat) (h : heap) : Seat * heap :=
  match roles s with
  | None => (s, h)
  | Some rs =>
      let (rs', h') := deepcopy_roles [] rs h in
      ({| roles := Some rs' |}, h')
  end.

(** ** [parse_static_person] *)

Section parse_static_person.

(** [Person.from_dict], [Role.from_dict] and [Body.from_dict] of
    [dataclasses_json]; they raise on values they cannot decode. *)
Variable Person_from_dict : list (string * json) -> Py.outcome Person.
Variable Role_from_dict : list (string * json) -> Py.outcome Role.
Variable Body_from_dict : json -> Py.outcome Body.

Definition set_body (ρ : Role) (b : Body) : Role :=
  {| title := title ρ; body := Some b;
     start_datetime := start_datetime ρ; end_datetime := end_datetime ρ;
     external_source_id := external_source_id ρ |}.

(** [x in role_titles] for a JSON value [x]. *)
Definition is_role_title (j : json) : bool :=
  match j with
  | JStr t => bool_decide (In t role_titles)
  | _ => false
  end.

(** One turn of the loop over [person_json["roles"]]; [seat_roles] is
    [person.seat.roles]. *)
Definition parse_static_role (primary_bodies : gmap string Body)
    (role_json : json) (seat_roles : option (list loc)) (h : heap)
    : Py.outcome (option (list loc) * heap) :=
  body_json ← Py.subscript role_json "body";
  let unknown_body :=
    match body_json with
    | JStr body_name => bool_decide (primary_bodies !! body_name = None)
    | _ => false
    end in
  if unknown_body then Py.Return (seat_roles, h)
  else
    title_json ← Py.subscript role_json "title";
    if negb (is_role_title title_json) then Py.Return (seat_roles, h)
    else
      role ← Role_from_dict
               (Py.dict_without ["body"]
                  match role_json with JDict d => d | _ => [] end);
      role_body ←
        match body_json with
        | JStr body_name =>
            match primary_bodies !! body_name with
            | Some b => Py.Return b
            | None => Py.Raise Py.KeyError
            end
        | _ => Body_from_dict body_json
        end;
      let (r, h') := alloc (set_body role role_body) h in
      Py.Return
        (match seat_roles with
         | None => Some [r]
         | Some rs => Some (rs ++ [r])%list
         end, h').

Fixpoint parse_static_roles (primary_bodies : gmap string Body)
    (roles_json : list json) (seat_roles : option (list loc)) (h : heap)
    : Py.outcome (option (list loc) * heap) :=
  match roles_json with
  | [] => Py.Return (seat_roles, h)
  | role_json :: rest =>
      '(seat_roles', h') ←
        parse_static_role primary_bodies role_json seat_roles h;
      parse_static_roles primary_bodies rest seat_roles' h'
  end.

Definition parse_static_person (person_json : list (string * json))
    (all_seats : gmap string Seat) (primary_bodies : gmap string Body)
    (h : heap) : Py.outcome (Person * heap) :=
  (* the message of [log.debug] reads [person_json['name']] *)
  _ ← Py.subscript (JDict person_json) "name";
  person ← Person_from_dict (Py.dict_without ["seat"; "roles"] person_json);
  match Py.dict_get "seat" person_json with
  | None => Py.Return (person, h)
  | Some seat_name =>
      known ←
        match seat_name with
        | JStr s => Py.Return (all_seats !! s)
        | JList _ | JDict _ => Py.Raise Py.TypeError
        | _ => Py.Return None
        end;
      match known with
      | None => Py.Return (person, h)
      | Some seat_template =>
          let (person_seat, h1) := deepcopy_seat seat_template h in
          match Py.dict_get "roles" person_json with
          | None => Py.Return ({| seat := Some person_seat |}, h1)
          | Some roles_json =>
              entries ← Py.iterate roles_json;
              '(seat_roles, h2) ←
                parse_static_roles primary_bodies entries
                  (roles person_seat) h1;
              Py.Return ({| seat := Some {| roles := seat_roles |} |}, h2)
          end
      end
  end.

End parse_static_person.
(** ** [parse_static_file] *)

Section parse_static_file.

(** [open(file_path)] and [json.load]; [Seat.from_dict], which creates the
    roles of the seat, if it has any. *)
Variable read_json : string -> Py.outcome json.
Variable Seat_from_dict : json -> heap -> Py.outcome (Seat * heap).
Variable Person_from_dict : list (string * json) -> Py.outcome Person.
Variable Role_from_dict : list (string * json) -> Py.outcome Role.
Variable Body_from_dict : json -> Py.outcome Body.

(** [static_json[k].items()] if [k in static_json], no items otherwise. *)
Definition top_level (k : string) (static_json : json)
    : Py.outcome (list (string * json)) :=
  present ← Py.contains k static_json;
  if negb present then Py.Return []
  else
    section ← Py.subscript static_json k;
    match section with
    | JDict d => Py.Return d
    | _ => Py.Raise Py.AttributeError
    end.

(** The three dict comprehensions. *)
Fixpoint parse_seats (items : list (string * json))
    (seats : gmap string Seat) (h : heap)
    : Py.outcome (gmap string Seat * heap) :=
  match items with
  | [] => Py.Return (seats, h)
  | (seat_name, seat_json) :: rest =>
      '(s, h') ← Seat_from_dict seat_json h;
      parse_seats rest (<[seat_name:=s]> seats) h'
  end.

Fixpoint parse_bodies (items : list (string * json))
    (bodies : gmap string Body) : Py.outcome (gmap string Body) :=
  match items with
  | [] => Py.Return bodies
  | (body_name, body_json) :: rest =>
      b ← Body_from_dict body_json;
      parse_bodies rest (<[body_name:=b]> bodies)
  end.

(** [parse_static_person(person, ...)]: only a dict has a ["name"]. *)
Definition parse_person (person : json) (seats : gmap string Seat)
    (bodies : gmap string Body) (h : heap) : Py.outcome (Person * heap) :=
  match person with
  | JDict person_json =>
      parse_static_person Person_from_dict Role_from_dict Body_from_dict
        person_json seats bodies h
  | _ => Py.Raise Py.TypeError
  end.

Fixpoint parse_persons (items : list (string * json))
    (seats : gmap string Seat) (bodies : gmap string Body)
    (known_persons : gmap string Person) (h : heap)
    : Py.outcome (gmap string Person * heap) :=
  match items with
  | [] => Py.Return (known_persons, h)
  | (person_name, person) :: rest =>
      '(p, h') ← parse_person person seats bodies h;
      parse_persons rest seats bodies (<[person_name:=p]> known_persons) h'
  end.

(** The seats, and the static data with the bodies and the persons. *)
Definition parse_static_file (file_path : string) (h : heap)
    : Py.outcome (gmap string Seat * ScraperStaticData * heap) :=
  static_json ← read_json file_path;
  seat_items ← top_level "seats" static_json;
  '(seats, h1) ← parse_seats seat_items ∅ h;
  body_items ← top_level "primary_bodies" static_json;
  bodies ← parse_bodies body_items ∅;
  person_items ← top_level "persons" static_json;
  '(known_persons, h2) ← parse_persons person_items seats bodies ∅ h1;
  Py.Return
    (seats, {| primary_bodies := bodies; persons := known_persons |}, h2).

End parse_static_file.

(** The roles of a person's seat. *)
Definition seat_roles_of (p : Person) : list loc :=
  default [] (s ← seat p; roles s).

(** [Seat.from_dict] creates new role objects for the seat and changes no
    object that exists. *)
Definition creates_seat
    (Seat_from_dict : json -> heap -> Py.outcome (Seat * heap)) : Prop :=
  forall seat_json h s h',
    Seat_from_dict seat_json h = Py.Return (s, h') ->
    (next h <= next h')%nat /\
    (forall r, (r < next h)%nat -> objects h' r = objects h r) /\
    forall r, In r (default [] (roles s)) -> (next h <= r < next h')%nat.

(** [Person.from_dict] gives no seat to an entry that has none. *)
Definition decodes_no_seat
    (Person_from_dict : list (string * json) -> Py.outcome Person) : Prop :=
  forall d p,
    Py.dict_get "seat" d = None ->
    Person_from_dict d = Py.Return p -> seat p = None.

(** The roles of the seats exist in [h]. *)
Definition seats_below (seats : gmap string Seat) (h : heap) : Prop :=
  forall s template r,
    seats !! s = Some template ->
    In r (default [] (roles template)) -> (r < next h)%nat.

(** The role [r] has a title of [RoleTitle]. *)
Definition titled (σ : store) (r : loc) : Prop :=
  exists t, title (σ r) = Some t /\ In t role_titles.

(** [Seat.from_dict] gives the roles it creates titles of [RoleTitle]. *)
Definition creates_titled_roles
    (Seat_from_dict : json -> heap -> Py.outcome (Seat * heap)) : Prop :=
  forall seat_json h s h' r,
    Seat_from_dict seat_json h = Py.Return (s, h') ->
    In r (default [] (roles s)) -> titled (objects h') r.

(** The persons have roles of their own, all created since [lo]. *)
Definition persons_apart (lo hi : nat) (known : gmap string Person) : Prop :=
  (forall n p r, known !! n = Some p -> In r (seat_roles_of p) ->
                 (lo <= r < hi)%nat) /\
  (forall n1 n2 p1 p2 r,
      n1 <> n2 -> known !! n1 = Some p1 -> known !! n2 = Some p2 ->
      In r (seat_roles_of p1) -> ~ In r (seat_roles_of p2)).

(** What a role read from a static file entry looks like: a title of
    [RoleTitle] and a body, taken from [primary_bodies] or decoded. *)
Definition static_role_parsed (Body_from_dict : json -> Py.outcome Body)
    (primary_bodies : gmap string Body) (ρ : Role) : Prop :=
  exists t b,
    title ρ = Some t /\ In t role_titles /\ body ρ = Some b /\
    ((exists body_name, primary_bodies !! body_name = Some b) \/
     (exists body_json, Body_from_dict body_json = Py.Return b)).

(** Decoders for the examples: a role has the title of its entry and the
    integer dates of its entry, a body has the name of its entry. *)
Module StaticExample.

Definition date_of (d : list (string * json)) (k : string) : option datetime :=
  match Py.dict_get k d with
  | Some (JInt n) => Some n
  | _ => None
  end.

Definition Role_from_dict (d : list (string * json)) : Py.outcome Role :=
  match Py.dict_get "title" d with
  | Some (JStr t) =>
      Py.Return {| title := Some t; body := None;
                   start_datetime := date_of d "start_datetime";
                   end_datetime := date_of d "end_datetime";
                   external_source_id := None |}
  | Some _ => Py.Raise Py.TypeError
  | None => Py.Raise Py.KeyError
  end.

Definition Body_from_dict (j : json) : Py.outcome Body :=
  match j with
  | JDict d =>
      match Py.dict_get "name" d with
      | Some (JStr n) =>
          Py.Return {| name := Some n; body_external_source_id := None |}
      | Some _ => Py.Raise Py.TypeError
      | None => Py.Raise Py.KeyError
      end
  | _ => Py.Raise Py.TypeError
  end.

Definition Person_from_dict (d : list (string * json)) : Py.outcome Person :=
  match Py.dict_get "name" d with
  | Some (JStr _) => Py.Return {| seat := None |}
  | Some _ => Py.Raise Py.TypeError
  | None => Py.Raise Py.KeyError
  end.

Definition council : Body :=
  {| name := Some "City Council"; body_external_source_id := None |}.

Definition primary_bodies : gmap string Body :=
  {[ "City Council" := council ]}.

Definition all_seats : gmap string Seat :=
  {[ "Position 1" := {| roles := None |} ]}.

(** A person with a seat and three role entries: one on the council, one
    on a body that is not defined, one with a title that is no
    [RoleTitle]. *)
Definition jane : list (string * json) :=
  [("name", JStr "Jane"); ("seat", JStr "Position 1");
   ("roles",
    JList
      [JDict [("title", JStr "Councilmember"); ("body", JStr "City Council");
              ("start_datetime", JInt 0); ("end_datetime", JInt 100)];
       JDict [("title", JStr "Chair"); ("body", JStr "Parks")];
       JDict [("title", JStr "Mayor"); ("body", JStr "City Council")]])].

(** A person without a seat. *)
Definition john : list (string * json) :=
  [("name", JStr "John");
   ("roles", JList [JDict [("title", JStr "Chair");
                           ("body", JStr "City Council")]])].

Definition empty_heap : heap :=
  {| objects := fun _ => {| title := None; body := None;
                            start_datetime := None; end_datetime := None;
                            external_source_id := None |};
     next := 0%nat |}.

End StaticExample.
(** [Role.from_dict] gives the role the title of its entry. *)
Definition decodes_title
    (Role_from_dict : list (string * json) -> Py.outcome Role) : Prop :=
  forall d ρ t,
    Role_from_dict d = Py.Return ρ ->
    Py.dict_get "title" d = Some (JStr t) -> title ρ = Some t.

(** ** The Legistar client: [get_legistar_body] and [get_legistar_person] *)

Module Legistar.

(** A key of a Python dict: [None], an integer (the booleans are the
    integers 0 and 1) or a string.  Lists and dicts cannot be keys. *)
Inductive key := KNone | KInt (n : Z) | KStr (s : string).

#[global] Instance key_eq_dec : EqDecision key.
Proof. solve_decision. Defined.

#[global] Instance key_countable : Countable key.
Proof.
  refine (inj_countable'
            (fun k => match k with
                      | KNone => inl ()
                      | KInt n => inr (inl n)
                      | KStr s => inr (inr s)
                      end)
            (fun x => match x with
                      | inl _ => KNone
                      | inr (inl n) => KInt n
                      | inr (inr s) => KStr s
                      end) _).
  intros []; reflexivity.
Defined.

Definition key_of (j : json) : option key :=
  match j with
  | JNull => Some KNone
  | JBool b => Some (KInt (if b then 1 else 0))
  | JInt n => Some (KInt n)
  | JStr s => Some (KStr s)
  | JList _ | JDict _ => None
  end.

(** [requests.get(url)]: the status code, and what [response.json()]
    gives. *)
Record response := {
  status_code : Z;
  response_json : Py.outcome json
}.

Section client.

(** The network: a request is answered from the state of the world, which
    it may change, or fails with an exception.  [repr] is Python's text for
    a list or a dict. *)
Variable World : Type.
Variable requests_get : string -> World -> Py.outcome response * World.
Variable repr : json -> string.

(** The module's globals [known_legistar_persons] and
    [known_legistar_bodies], and the world.  Python's [None] is [JNull]. *)
Record state := {
  known_legistar_persons : gmap key json;
  known_legistar_bodies : gmap key json;
  world : World
}.

Definition set_persons (f : gmap key json -> gmap key json) (st : state)
    : state :=
  {| known_legistar_persons := f (known_legistar_persons st);
     known_legistar_bodies := known_legistar_bodies st;
     world := world st |}.

Definition set_bodies (f : gmap key json -> gmap key json) (st : state)
    : state :=
  {| known_legistar_persons := known_legistar_persons st;
     known_legistar_bodies := f (known_legistar_bodies st);
     world := world st |}.

Definition set_world (w : World) (st : state) : state :=
  {| known_legistar_persons := known_legistar_persons st;
     known_legistar_bodies := known_legistar_bodies st;
     world := w |}.

(** A computation returns or raises, and leaves a state in both cases. *)
Definition M (A : Type) : Type := state -> Py.outcome A * state.

Definition ret {A} (a : A) : M A := fun st => (Py.Return a, st).
Definition raise {A} (e : Py.error) : M A := fun st => (Py.Raise e, st).

Definition bind {A B} (m : M A) (k : A -> M B) : M B :=
  fun st =>
    match m st with
    | (Py.Return a, st') => k a st'
    | (Py.Raise e, st') => (Py.Raise e, st')
    end.

Definition lift {A} (o : Py.outcome A) : M A := fun st => (o, st).

Definition request (url : string) : M response :=
  fun st =>
    let (resp, w) := requests_get url (world st) in
    (resp, set_world w st).

(** ["{x}".format(x=j)] *)
Definition format_value (j : json) : string :=
  match j with
  | JNull => "None"
  | JBool true => "True"
  | JBool false => "False"
  | JInt n => pretty n
  | JStr s => s
  | _ => repr j
  end.

Definition LEGISTAR_BASE (client : string) : string :=
  "http://webapi.legistar.com/v1/" ++ client.
Definition LEGISTAR_PERSON_BASE (client : string) : string :=
  LEGISTAR_BASE client ++ "/Persons".
Definition LEGISTAR_BODY_BASE (client : string) : string :=
  LEGISTAR_BASE client ++ "/Bodies".
Definition LEGISTAR_PERSON_ROLES : string := "OfficeRecordInfo".
Definition LEGISTAR_ROLE_BODY : string := "OfficeRecordBodyInfo".

(** [cache[k]] inside [try ... except KeyError: pass]: the entry if there
    is one; an id that cannot be hashed raises [TypeError]. *)
Definition cached (cache : state -> gmap key json) (id : json)
    : M (option json) :=
  fun st =>
    match key_of id with
    | Some k => (Py.Return (cache st !! k), st)
    | None => (Py.Raise Py.TypeError, st)
    end.

Definition remember_body (id : json) (body : json) : M unit :=
  fun st =>
    match key_of id with
    | Some k => (Py.Return (), set_bodies (insert k body) st)
    | None => (Py.Raise Py.TypeError, st)
    end.

Definition remember_person (id : json) (person : json) : M unit :=
  fun st =>
    match key_of id with
    | Some k => (Py.Return (), set_persons (insert k person) st)
    | None => (Py.Raise Py.TypeError, st)
    end.

Definition get_legistar_body (client : string) (body_id : json)
    (use_cache : bool) : M json :=
  bind (if use_cache then cached known_legistar_bodies body_id
        else ret None)
    (fun known =>
       match known with
       | Some body => ret body
       | None =>
           bind (request (LEGISTAR_BODY_BASE client ++ "/"
                          ++ format_value body_id))
             (fun response =>
                bind (if status_code response =? 200
                      then lift (response_json response)
                      else ret JNull)
                  (fun body =>
                     bind (if use_cache
                           then remember_body body_id body else ret ())
                       (fun _ => ret body)))
       end).

(** [j[k] = v] for a string [k]: only a dict takes it. *)
Definition setitem (j : json) (k : string) (v : json) : Py.outcome json :=
  match j with
  | JDict d => Py.Return (JDict (Py.dict_set k v d))
  | _ => Py.Raise Py.TypeError
  end.

(** The loop over [office_records], which attaches its body to each
    record, in place. *)
Fixpoint attach_bodies (client : string) (use_cache : bool)
    (records : list json) : M (list json) :=
  match records with
  | [] => ret []
  | record :: rest =>
      bind (lift (Py.subscript record "OfficeRecordBodyId"))
        (fun body_id =>
           bind (get_legistar_body client body_id use_cache)
             (fun body =>
                bind (lift (setitem record LEGISTAR_ROLE_BODY body))
                  (fun record' =>
                     bind (attach_bodies client use_cache rest)
                       (fun rest' => ret (record' :: rest')))))
  end.

(** [for record in office_records: ...]: the records of a list are
    changed where they are; the keys of a dict and the characters of a
    string are strings, which are not changed (the first of them fails at
    [record["OfficeRecordBodyId"]]). *)
Definition attach_bodies_in (client : string) (use_cache : bool)
    (office_records : json) : M json :=
  match office_records with
  | JList records =>
      bind (attach_bodies client use_cache records)
        (fun records' => ret (JList records'))
  | _ =>
      bind (lift (Py.iterate office_records))
        (fun items =>
           bind (attach_bodies client use_cache items)
             (fun _ => ret office_records))
  end.

Definition get_legistar_person (client : string) (person_id : json)
    (use_cache : bool) : M json :=
  bind (if use_cache then cached known_legistar_persons person_id
        else ret None)
    (fun known =>
       match known with
       | Some person => ret person
       | None =>
           let person_url :=
             LEGISTAR_PERSON_BASE client ++ "/" ++ format_value person_id in
           bind (request person_url)
             (fun response =>
                if negb (status_code response =? 200) then
                  bind (if use_cache
                        then remember_person person_id JNull else ret ())
                    (fun _ => ret JNull)
                else
                  bind (lift (response_json response))
                    (fun person =>
                       bind (request (person_url ++ "/OfficeRecords"))
                         (fun response =>
                            if negb (status_code response =? 200) then
                              bind (lift (setitem person
                                            LEGISTAR_PERSON_ROLES JNull))
                                (fun person' =>
                                   bind (if use_cache
                                         then remember_person person_id
                                                person'
                                         else ret ())
                                     (fun _ => ret person'))
                            else
                              bind (lift (response_json response))
                                (fun office_records =>
                                   bind (attach_bodies_in client use_cache
                                           office_records)
                                     (fun office_records' =>
                                        bind (lift (setitem person
                                                 LEGISTAR_PERSON_ROLES
                                                 office_records'))
                                          (fun person' =>
                                             bind (if use_cache
                                                   then remember_person
                                                          person_id person'
                                                   else ret ())
                                               (fun _ => ret person')))))))
       end).

(** *** [get_legistar_events_for_timespan] *)

(** [datetime.utcnow()] reads the clock of the world, and [str(d)] is the
    text of a datetime. *)
Variable utcnow : World -> datetime * World.
Variable str_datetime : datetime -> string.

Definition now : M datetime :=
  fun st => let (t, w) := utcnow (world st) in (Py.Return t, set_world w st).

(** [s.replace(" ", "T")] *)
Fixpoint replace_space_T (s : string) : string :=
  match s with
  | EmptyString => EmptyString
  | String c s' =>
      String (if Ascii.eqb c " " then "T"%char else c) (replace_space_T s')
  end.

Definition LEGISTAR_VOTE_BASE (client : string) : string :=
  LEGISTAR_BASE client ++ "/EventItems".
Definition LEGISTAR_EVENT_BASE (client : string) : string :=
  LEGISTAR_BASE client ++ "/Events".
Definition LEGISTAR_MATTER_BASE (client : string) : string :=
  LEGISTAR_BASE client ++ "/Matters".
Definition LEGISTAR_MATTER_SPONSORS : string := "MatterSponsorInfo".
Definition LEGISTAR_SPONSOR_PERSON : string := "SponsorPersonInfo".
Definition LEGISTAR_EV_BODY : string := "EventBodyInfo".

(** ["EventDate+{op}+datetime%27{dt}%27"] *)
Definition filter_datetime (op : string) (d : datetime) : string :=
  "EventDate+" ++ op ++ "+datetime%27" ++ replace_space_T (str_datetime d)
  ++ "%27".

(** [known_legistar_persons.clear()] and [known_legistar_bodies.clear()] *)
Definition clear_caches : M unit :=
  fun st =>
    (Py.Return (),
     {| known_legistar_persons := ∅; known_legistar_bodies := ∅;
        world := world st |}).

(** [for x in items: ...] where the body changes [x] where it is: the
    list of the items after the loop. *)
Fixpoint for_each (body : json -> M json) (items : list json)
    : M (list json) :=
  match items with
  | [] => ret []
  | x :: rest =>
      bind (body x)
        (fun x' =>
           bind (for_each body rest) (fun rest' => ret (x' :: rest')))
  end.

(** [for x in container: ...]: the container after the loop.  The items
    of a list are changed where they are; the keys of a dict and the
    characters of a string are strings, which cannot be changed. *)
Definition for_in (body : json -> M json) (container : json) : M json :=
  match container with
  | JList items =>
      bind (for_each body items) (fun items' => ret (JList items'))
  | _ =>
      bind (lift (Py.iterate container))
        (fun items => bind (for_each body items) (fun _ => ret container))
  end.

(** [x[target] = get_legistar_person(client, x[id], use_cache=True)] *)
Definition attach_person (client : string) (id target : string)
    (x : json) : M json :=
  bind (lift (Py.subscript x id))
    (fun person_id =>
       bind (get_legistar_person client person_id true)
         (fun person => lift (setitem x target person))).

(** [isinstance(j, int)]: a [bool] is an [int]. *)
Definition int_of (j : json) : option Z :=
  match j with
  | JInt n => Some n
  | JBool b => Some (if b then 1 else 0)
  | _ => None
  end.

(** The body of the loop over [event["EventItems"]]. *)
Definition event_item_body (client : string) (event_item : json) : M json :=
  bind (lift (Py.subscript event_item "EventItemId"))
    (fun event_item_id =>
  bind (request (LEGISTAR_VOTE_BASE client ++ "/"
                 ++ format_value event_item_id ++ "/Votes"))
    (fun response =>
  bind (lift (response_json response))
    (fun votes =>
  bind (lift (setitem event_item "EventItemVoteInfo" votes))
    (fun event_item =>
  bind (lift (Py.subscript event_item "EventItemVoteInfo"))
    (fun votes =>
  bind (for_in (attach_person client "VotePersonId" "PersonInfo") votes)
    (fun votes =>
  (* the votes were changed where they are, inside [event_item] *)
  bind (lift (setitem event_item "EventItemVoteInfo" votes))
    (fun event_item =>
  bind (lift (Py.subscript event_item "EventItemMatterId"))
    (fun matter_id =>
       match int_of matter_id with
       | Some n =>
           if n <? 0 then
             lift (setitem event_item LEGISTAR_MATTER_SPONSORS JNull)
           else
             bind (request (LEGISTAR_MATTER_BASE client ++ "/"
                            ++ format_value matter_id ++ "/Sponsors"))
               (fun response =>
             bind (lift (response_json response))
               (fun sponsors =>
             bind (for_in (attach_person client "MatterSponsorNameId"
                             LEGISTAR_SPONSOR_PERSON) sponsors)
               (fun sponsors =>
                  lift (setitem event_item LEGISTAR_MATTER_SPONSORS
                          sponsors))))
       | None => lift (setitem event_item LEGISTAR_MATTER_SPONSORS JNull)
       end)))))))).

(** The body of the loop over the events. *)
Definition event_body (client : string) (event : json) : M json :=
  bind (lift (Py.subscript event "EventId"))
    (fun event_id =>
  bind (request (LEGISTAR_EVENT_BASE client ++ "/" ++ format_value event_id
                 ++ "/EventItems?AgendaNote=1&MinutesNote=1&Attachments=1"))
    (fun response =>
  bind (lift (response_json response))
    (fun event_items =>
  bind (lift (setitem event "EventItems" event_items))
    (fun event =>
  bind (lift (Py.subscript event "EventBodyId"))
    (fun body_id =>
  bind (get_legistar_body client body_id true)
    (fun body =>
  bind (lift (setitem event LEGISTAR_EV_BODY body))
    (fun event =>
  bind (lift (Py.subscript event "EventItems"))
    (fun event_items =>
  bind (for_in (event_item_body client) event_items)
    (fun event_items =>
       (* the items were changed where they are, inside [event] *)
       lift (setitem event "EventItems" event_items)))))))))).

Definition get_legistar_events_for_timespan (client : string)
    (begin end_ : option datetime) : M json :=
  bind (match begin with
        | Some d => ret d
        | None => bind now (fun t => ret (t - one_day))
        end)
    (fun begin =>
  bind (match end_ with
        | Some d => ret d
        | None => now
        end)
    (fun end_ =>
  bind clear_caches
    (fun _ =>
  bind (request (LEGISTAR_EVENT_BASE client ++ "?$filter="
                 ++ filter_datetime "ge" begin ++ "+and+"
                 ++ filter_datetime "lt" end_))
    (fun response =>
  bind (lift (response_json response))
    (fun response => for_in (event_body client) response))))).

(** An item [x] that carries under [target] the cache's entry of the id
    it has under [id]. *)
Definition with_entry (cache : gmap key json) (id target : string)
    (x : json) : Prop :=
  exists entries x_id value k,
    x = JDict entries /\
    Py.dict_get id entries = Some x_id /\
    Py.dict_get target entries = Some value /\
    key_of x_id = Some k /\ cache !! k = Some value.

(** An event item with its votes and its sponsors, each of them with its
    person. *)
Definition event_item_complete (persons : gmap key json) (event_item : json)
    : Prop :=
  exists entries votes sponsors,
    event_item = JDict entries /\
    Py.dict_get "EventItemVoteInfo" entries = Some votes /\
    Py.dict_get LEGISTAR_MATTER_SPONSORS entries = Some sponsors /\
    (forall items, votes = JList items ->
       Forall (with_entry persons "VotePersonId" "PersonInfo") items) /\
    (forall items, sponsors = JList items ->
       Forall (with_entry persons "MatterSponsorNameId"
                 LEGISTAR_SPONSOR_PERSON) items).

(** An event with its body and its items. *)
Definition event_complete (st : state) (event : json) : Prop :=
  with_entry (known_legistar_bodies st) "EventBodyId" LEGISTAR_EV_BODY event /\
  exists entries event_items,
    event = JDict entries /\
    Py.dict_get "EventItems" entries = Some event_items /\
    (forall items, event_items = JList items ->
       Forall (event_item_complete (known_legistar_persons st)) items).

(** *** Reading the results *)

(** Nothing is taken out of the caches, and no entry is replaced. *)
Definition caches_kept (st st' : state) : Prop :=
  known_legistar_persons st ⊆ known_legistar_persons st' /\
  known_legistar_bodies st ⊆ known_legistar_bodies st'.

(** A computation that keeps what the caches hold, however it ends. *)
Definition keeps {A} (m : M A) : Prop :=
  forall st res st', m st = (res, st') -> caches_kept st st'.

(** The record [record'] is the record [record] with the body of its
    ["OfficeRecordBodyId"] attached; with the cache, that body is the entry
    of the id in [cache]. *)
Definition attached (cache : gmap key json) (use_cache : bool)
    (record record' : json) : Prop :=
  exists entries body_id body,
    record = JDict entries /\
    Py.dict_get "OfficeRecordBodyId" entries = Some body_id /\
    record' = JDict (Py.dict_set LEGISTAR_ROLE_BODY body entries) /\
    (use_cache = true ->
     exists k, key_of body_id = Some k /\ cache !! k = Some body).

(** A record that carries the body of its ["OfficeRecordBodyId"]. *)
Definition record_with_body (cache : gmap key json) (use_cache : bool)
    (record : json) : Prop :=
  exists entries body_id body,
    record = JDict entries /\
    Py.dict_get "OfficeRecordBodyId" entries = Some body_id /\
    Py.dict_get LEGISTAR_ROLE_BODY entries = Some body /\
    (use_cache = true ->
     exists k, key_of body_id = Some k /\ cache !! k = Some body).

(** A person as [get_legistar_person] builds it from the answers of the
    server: [None], or a dict whose ["OfficeRecordInfo"] is [None] (the
    records were refused) or what the server sent, each record of a list
    with its body. *)
Definition person_with_roles (cache : gmap key json) (use_cache : bool)
    (person : json) : Prop :=
  person = JNull \/
  exists entries office_records,
    person = JDict entries /\
    Py.dict_get LEGISTAR_PERSON_ROLES entries = Some office_records /\
    (office_records = JNull \/ office_records = JDict [] \/
     office_records = JStr "" \/
     exists records,
       office_records = JList records /\
       Forall (record_with_body cache use_cache) records).

(** A computation that reads the world only, and changes the world
    only: started with other caches it gives the same result and the same
    world, and leaves those caches as they are. *)
Definition world_only {A} (m : M A) : Prop :=
  forall st persons bodies,
    m {| known_legistar_persons := persons;
         known_legistar_bodies := bodies;
         world := world st |}
    = (fst (m st),
       {| known_legistar_persons := persons;
          known_legistar_bodies := bodies;
          world := world (snd (m st)) |}).

End client.

End Legistar.

(** ** The Legistar client: [get_legistar_content_uris] *)

Module LegistarContent.

(** [ContentUriScrapeResult.Status], an [IntEnum]. *)
Inductive Status :=
| UnrecognizedPatternError
| ResourceAccessError
| ContentNotProvidedError
| Ok.

Definition status_value (s : Status) : Z :=
  match s with
  | UnrecognizedPatternError => -1
  | ResourceAccessError => -2
  | ContentNotProvidedError => -3
  | Ok => 0
  end.

Record ContentURIs := {
  video_uri : json;
  caption_uri : json
}.

(** [s.find(sub)]: the place of the first occurrence, or -1. *)
Fixpoint index_of (sub s : string) : option nat :=
  if String.prefix sub s then Some 0%nat
  else
    match s with
    | EmptyString => None
    | String _ s' => option_map S (index_of sub s')
    end.

Definition find (sub s : string) : Z :=
  match index_of sub s with
  | Some i => Z.of_nat i
  | None => -1
  end.

(** [s[start:stop]]: an index below zero counts from the end, and both
    are cut to the length of [s]. *)
Definition slice (s : string) (start stop : Z) : string :=
  let n := Z.of_nat (String.length s) in
  let place i := if i <? 0 then Z.max 0 (i + n) else Z.min i n in
  String.substring (Z.to_nat (place start))
    (Z.to_nat (place stop - place start)) s.

(** The address inside [window.open('...','video')] of an [onclick]. *)
Definition onclick_target (extract_url : string) : string :=
  let start := find "'" extract_url + Z.of_nat (String.length "'") in
  let stop := find "'," extract_url in
  slice extract_url start stop.

Definition video_page_url_of (client extract_url : string) : string :=
  "https://" ++ client ++ ".legistar.com/" ++ onclick_target extract_url.

Section scraper.

(** [urlopen(x)] followed by [BeautifulSoup(resp.read(), "html.parser")]
    gives a parsed page or fails.  [find_video_link] is
    [soup.find("a", id=re.compile(...), class_="videolink")] and the
    ["onclick"] of the tag: no tag, a tag without ["onclick"], or the
    text of ["onclick"].  [cleantext_clean] is [cleantext.clean] as
    [str_simplified] calls it. *)
Variable World Soup : Type.
Variable urlopen : json -> World -> Py.outcome Soup * World.
Variable find_video_link : Soup -> option (option string).
Variable cleantext_clean : string -> string.

(** [str_simplified]: what is not a string is returned as it is. *)
Definition str_simplified (input_str : json) : json :=
  match input_str with
  | JStr s => JStr (cleantext_clean s)
  | _ => input_str
  end.

(** A parser of [cdp_scrapers.legistar_content_parsers]: called with the
    client and the page, it gives the URIs it found or [None]. *)
Definition parser : Type :=
  string -> Soup -> World -> Py.outcome (option (list ContentURIs)) * World.

Variable all_parsers : list parser.

(** The module's global [video_page_parser], and the world. *)
Record state := {
  video_page_parser : gmap string parser;
  world : World
}.

Definition set_world (w : World) (st : state) : state :=
  {| video_page_parser := video_page_parser st; world := w |}.

(** [for parser in all_parsers: ... else: uris = None] *)
Fixpoint try_parsers (client : string) (soup : Soup) (parsers : list parser)
    (st : state) : Py.outcome (option (list ContentURIs)) * state :=
  match parsers with
  | [] => (Py.Return None, st)
  | parser :: rest =>
      match parser client soup (world st) with
      | (Py.Return (Some uris), w) =>
          (Py.Return (Some uris),
           {| video_page_parser := <[client:=parser]> (video_page_parser st);
              world := w |})
      | (Py.Return None, w) => try_parsers client soup rest (set_world w st)
      | (Py.Raise e, w) => (Py.Raise e, set_world w st)
      end
  end.

(** The body of the second [with urlopen(...)], once the page is read. *)
Definition parse_video_page (client : string) (soup : Soup) (st : state)
    : Py.outcome (option (list ContentURIs)) * state :=
  match video_page_parser st !! client with
  | Some known =>
      let (uris, w) := (known : parser) client soup (world st) in
      (uris, set_world w st)
  | None => try_parsers client soup all_parsers st
  end.

(** [HTTPError] is a [URLError]: [except (URLError, HTTPError)] takes
    both, [except HTTPError] the first only. *)
Definition is_URLError (e : Py.error) : bool :=
  match e with
  | Py.URLError | Py.HTTPError => true
  | _ => false
  end.

Definition is_HTTPError (e : Py.error) : bool :=
  match e with
  | Py.HTTPError => true
  | _ => false
  end.

Definition ContentUriScrapeResult : Type :=
  Status * option (list ContentURIs).

Definition returns (r : ContentUriScrapeResult) (st : state)
    : Py.outcome ContentUriScrapeResult * state :=
  (Py.Return r, st).

Definition raises (e : Py.error) (st : state)
    : Py.outcome ContentUriScrapeResult * state :=
  (Py.Raise e, st).

Definition get_legistar_content_uris (client : string) (legistar_ev : json)
    (st : state) : Py.outcome ContentUriScrapeResult * state :=
  match Py.subscript legistar_ev "EventVideoPath" with
  | Py.Raise e => raises e st
  | Py.Return video_path =>
      if Py.truthy video_path then
        returns (Ok, Some [{| video_uri := str_simplified video_path;
                              caption_uri := JNull |}]) st
      else
        match Py.subscript legistar_ev "EventInSiteURL" with
        | Py.Raise e => raises e st
        | Py.Return site_url =>
            if negb (Py.truthy site_url) then
              returns (UnrecognizedPatternError, None) st
            else
              match urlopen site_url (world st) with
              | (Py.Raise e, w) =>
                  if is_URLError e then
                    returns (ResourceAccessError, None) (set_world w st)
                  else raises e (set_world w st)
              | (Py.Return soup, w) =>
                  let st1 := set_world w st in
                  match find_video_link soup with
                  | None => returns (UnrecognizedPatternError, None) st1
                  | Some None => returns (ContentNotProvidedError, None) st1
                  | Some (Some extract_url) =>
                      let video_page_url :=
                        video_page_url_of client extract_url in
                      let (page, st3) :=
                        match urlopen (JStr video_page_url) (world st1) with
                        | (Py.Raise e, w2) => (Py.Raise e, set_world w2 st1)
                        | (Py.Return soup2, w2) =>
                            parse_video_page client soup2 (set_world w2 st1)
                        end in
                      match page with
                      | Py.Raise e =>
                          if is_HTTPError e then
                            returns (ResourceAccessError, None) st3
                          else raises e st3
                      | Py.Return None => raises Py.NotImplementedError st3
                      | Py.Return (Some uris) => returns (Ok, Some uris) st3
                      end
                  end
              end
        end
  end.

End scraper.

End LegistarContent.

(** ** Examples for the functions that read files and pages *)

(** A static data file with a seat, a primary body and the two persons of
    [StaticExample]; its seats are given without roles. *)
Module StaticFileExample.

Definition read_json (file_path : string) : Py.outcome json :=
  if String.eqb file_path "static.json" then
    Py.Return
      (JDict
         [("seats", JDict [("Position 1", JDict [("name", JStr "Position 1")])]);
          ("primary_bodies",
           JDict [("City Council", JDict [("name", JStr "City Council")])]);
          ("persons",
           JDict [("Jane", JDict StaticExample.jane);
                  ("John", JDict StaticExample.john)])])
  else Py.Raise Py.OSError.

Definition Seat_from_dict (seat_json : json) (h : heap)
    : Py.outcome (Seat * heap) :=
  match seat_json with
  | JDict _ => Py.Return ({| roles := None |}, h)
  | _ => Py.Raise Py.TypeError
  end.

(** The scraped roles of [Example.scraped] are the objects that exist. *)
Definition scraped_heap : heap :=
  {| objects := Example.scraped; next := 4%nat |}.

End StaticFileExample.

(** A Legistar server that knows one body, one person with two office
    records, and one event with an item, a vote and a sponsor; the world is
    the number of requests sent. *)
Module LegistarExample.

Definition World : Type := nat.

Definition council : json :=
  JDict [("BodyId", JInt 3); ("BodyName", JStr "City Council")].

Definition jane : json :=
  JDict [("PersonId", JInt 7); ("PersonFullName", JStr "Jane")].

Definition office_records : json :=
  JList [JDict [("OfficeRecordId", JInt 1); ("OfficeRecordBodyId", JInt 3)];
         JDict [("OfficeRecordId", JInt 2); ("OfficeRecordBodyId", JInt 3)]].

Definition events : json :=
  JList [JDict [("EventId", JInt 1); ("EventBodyId", JInt 3)]].

Definition event_items : json :=
  JList [JDict [("EventItemId", JInt 11); ("EventItemMatterId", JInt 5)]].

Definition votes : json :=
  JList [JDict [("VoteId", JInt 100); ("VotePersonId", JInt 7)]].

Definition sponsors : json :=
  JList [JDict [("MatterSponsorNameId", JInt 7)]].

Definition pages : list (string * json) :=
  [("http://webapi.legistar.com/v1/seattle/Bodies/3", council);
   ("http://webapi.legistar.com/v1/seattle/Persons/7", jane);
   ("http://webapi.legistar.com/v1/seattle/Persons/7/OfficeRecords",
    office_records);
   ("http://webapi.legistar.com/v1/seattle/Events?$filter=EventDate+ge+datetime%272021-01-01T00:00:00%27+and+EventDate+lt+datetime%272021-01-02T00:00:00%27",
    events);
   ("http://webapi.legistar.com/v1/seattle/Events/1/EventItems?AgendaNote=1&MinutesNote=1&Attachments=1",
    event_items);
   ("http://webapi.legistar.com/v1/seattle/EventItems/11/Votes", votes);
   ("http://webapi.legistar.com/v1/seattle/Matters/5/Sponsors", sponsors)].

Definition requests_get (url : string) (w : World)
    : Py.outcome Legistar.response * World :=
  (Py.Return
     match Py.dict_get url pages with
     | Some page =>
         {| Legistar.status_code := 200;
            Legistar.response_json := Py.Return page |}
     | None =>
         {| Legistar.status_code := 404;
            Legistar.response_json := Py.Raise Py.JSONDecodeError |}
     end,
   S w).

Definition repr (j : json) : string := "".

Definition utcnow (w : World) : datetime * World := (0, w).

Definition str_datetime (d : datetime) : string :=
  if d =? 0 then "2021-01-01 00:00:00" else "2021-01-02 00:00:00".

Definition start : Legistar.state World :=
  {| Legistar.known_legistar_persons := ∅;
     Legistar.known_legistar_bodies := ∅;
     Legistar.world := 0%nat |}.

End LegistarExample.

(** A Legistar site with a meeting page that links to a video page, and
    two parsers, of which the second reads the video page. *)
Module ContentExample.

Definition World : Type := unit.
Definition Soup : Type := nat.

Definition site_url : string :=
  "https://seattle.legistar.com/MeetingDetail.aspx?ID=1".

Definition urlopen (url : json) (w : World) : Py.outcome Soup * World :=
  match url with
  | JStr u =>
      if String.eqb u site_url then (Py.Return 1%nat, w)
      else if String.eqb u
                "https://seattle.legistar.com/Video.aspx?Mode=Granicus&ID1=8844"
      then (Py.Return 2%nat, w)
      else (Py.Raise Py.HTTPError, w)
  | _ => (Py.Raise Py.TypeError, w)
  end.

Definition find_video_link (soup : Soup) : option (option string) :=
  match soup with
  | 1%nat =>
      Some (Some "window.open('Video.aspx?Mode=Granicus&ID1=8844','video');return false;")
  | _ => None
  end.

Definition video : LegistarContent.ContentURIs :=
  {| LegistarContent.video_uri := JStr "https://video.example/8844.mp4";
     LegistarContent.caption_uri := JNull |}.

Definition finds_nothing : LegistarContent.parser World Soup :=
  fun _ _ w => (Py.Return None, w).

Definition finds_video : LegistarContent.parser World Soup :=
  fun _ soup w =>
    (Py.Return (if Nat.eqb soup 2 then Some [video] else None), w).

Definition all_parsers : list (LegistarContent.parser World Soup) :=
  [finds_nothing; finds_video].

Definition event : json :=
  JDict [("EventVideoPath", JNull); ("EventInSiteURL", JStr site_url)].

Definition start : LegistarContent.state World Soup :=
  {| LegistarContent.video_page_parser := ∅; LegistarContent.world := tt |}.

(** The state in which [finds_nothing] is remembered for the client. *)
Definition stuck : LegistarContent.state World Soup :=
  {| LegistarContent.video_page_parser := {[ "seattle" := finds_nothing ]};
     LegistarContent.world := tt |}.

End ContentExample.
(** ** The sanitizer *)

Definition default_council_pres_patterns : list string := ["chair"; "pres"; "super"].
Definition default_chair_patterns : list string := ["chair"; "pres"].

Section sanitize_roles.

(** [str_simplified] wraps [cleantext.clean]; the sanitizer only needs it
    as a function from text to text. *)
Variable str_simplified : string -> string.

(** [datetime.today().astimezone(pytz.utc)]: the clock is read as one
    instant for the whole call, so the two reads of the validator agree. *)
Variable today : datetime.

Variable person_name : string.
Variable static_data : option ScraperStaticData.
Variable council_pres_patterns : list string.
Variable chair_patterns : list string.

Definition primary_body_names : list string :=
  match static_data with
  | None => ["city council"; "council briefing"]
  | Some sd =>
      if decide (primary_bodies sd = ∅)
      then ["city council"; "council briefing"]
      else Text.lower <$> (map_to_list (primary_bodies sd)).*1
  end.

(** [static_data.persons[person_name].seat.roles]; [None] where Python
    raises [KeyError], [AttributeError] or yields [None]. *)
Definition static_roles : option (list loc) :=
  sd ← static_data; p ← persons sd !! person_name; s ← seat p; roles s.

Definition have_primary_roles : bool :=
  match static_roles with
  | Some rs => bool_decide (0 < length rs)%nat
  | None => false
  end.

(** The loop of [_is_role_period_ok] over the static roles.  Comparing
    [None] with a [datetime] raises [TypeError]. *)
Fixpoint coincides_with_static (σ : store) (statics : list loc)
    (s e : datetime) : result bool :=
  match statics with
  | [] => Ok false
  | static_role :: rest =>
      match start_datetime (σ static_role) with
      | None => Raise TypeError
      | Some ss =>
          if ss <=? s then
            match end_datetime (σ static_role) with
            | None => Raise TypeError
            | Some se =>
                if e <=? se then Ok true
                else coincides_with_static σ rest s e
            end
          else coincides_with_static σ rest s e
      end
  end.

Definition _is_role_period_ok (σ : store) (role : Role) : result bool :=
  match start_datetime role, end_datetime role with
  | Some s, Some e =>
      if negb have_primary_roles
      then Ok ((s <=? today) && (today <=? e))
      else coincides_with_static σ (default [] static_roles) s e
  | _, _ => Ok false
  end.

Definition _is_primary_body (role : Role) : bool :=
  match body role with
  | Some b =>
      match name b with
      | Some n =>
          bool_decide (Text.lower (str_simplified n) ∈ primary_body_names)
      | None => false
      end
  | None => false
  end.

Definition _fix_primary_title (role : Role) : string :=
  match title role with
  | None => RoleTitle.COUNCILMEMBER
  | Some t =>
      if Text.re_search_I (Text.join "|" council_pres_patterns)
           (str_simplified t)
      then RoleTitle.COUNCILPRESIDENT
      else RoleTitle.COUNCILMEMBER
  end.

Definition _fix_nonprimary_title (role : Role) : string :=
  match title role with
  | None => RoleTitle.MEMBER
  | Some t =>
      let role_title := Text.lower (str_simplified t) in
      if Text.contains "vice" role_title then RoleTitle.VICE_CHAIR
      else if Text.contains "alt" role_title then RoleTitle.ALTERNATE
      else if Text.contains "super" role_title then RoleTitle.SUPERVISOR
      else if Text.re_search_I (Text.join "|" chair_patterns) role_title
      then RoleTitle.CHAIR
      else RoleTitle.MEMBER
  end.

Definition _is_councilmember_term (role : Role) : bool :=
  bool_decide (title role = Some RoleTitle.COUNCILMEMBER)
  && bool_decide (is_Some (start_datetime role))
  && bool_decide (is_Some (end_datetime role)).

(** [list(filterfalse(..., filter(_is_role_period_ok, roles)))] *)
Fixpoint kept_roles (σ : store) (roles : list loc) : result (list loc) :=
  match roles with
  | [] => Ok []
  | role :: rest =>
      ok ← _is_role_period_ok σ (σ role);
      rest' ← kept_roles σ rest;
      Ok (if ok && negb (have_primary_roles && _is_primary_body (σ role))
          then role :: rest' else rest')
  end.

(** The two loops that standardize titles, each assigning [role.title]. *)
Fixpoint fix_primary_titles (σ : store) (roles : list loc) : store :=
  match roles with
  | [] => σ
  | role :: rest =>
      fix_primary_titles
        (if _is_primary_body (σ role)
         then set_title σ role (_fix_primary_title (σ role)) else σ)
        rest
  end.

Fixpoint fix_nonprimary_titles (σ : store) (roles : list loc) : store :=
  match roles with
  | [] => σ
  | role :: rest =>
      fix_nonprimary_titles
        (if _is_primary_body (σ role)
         then σ else set_title σ role (_fix_nonprimary_title (σ role)))
        rest
  end.

Definition standardize_titles (σ : store) (roles : list loc) : store :=
  fix_nonprimary_titles (fix_primary_titles σ roles) roles.

(** The sort key [(role.body.name, role.start_datetime, role.end_datetime)].
    On a councilmember term all three are present (see
    [councilmember_term_key]); the defaults below are never compared. *)
Definition body_name (role : Role) : string :=
  default EmptyString (b ← body role; name b).

Definition sort_key (role : Role) : string * datetime * datetime :=
  (body_name role,
   default 0 (start_datetime role),
   default 0 (end_datetime role)).

(** Tuples compare lexicographically. *)
Definition key_leb (k1 k2 : string * datetime * datetime) : bool :=
  let '(n1, s1, e1) := k1 in
  let '(n2, s2, e2) := k2 in
  match String.compare n1 n2 with
  | Lt => true
  | Gt => false
  | Eq => (s1 <? s2) || ((s1 =? s2) && (e1 <=? e2))
  end.

Definition scraped_member_roles_by_body (σ : store) (roles : list loc)
    : list (list loc) :=
  groupby (fun r1 r2 => String.eqb (body_name (σ r1)) (body_name (σ r2)))
    (sorted (fun r1 r2 => key_leb (sort_key (σ r1)) (sort_key (σ r2)))
       (List.filter
          (fun role =>
             negb have_primary_roles && _is_councilmember_term (σ role))
          roles)).

(** [roles[roles.index(role)]]: the first object of the list that equals
    [role]; [None] where [index] raises [ValueError]. *)
Definition roles_index (σ : store) (roles : list loc) (role : Role)
    : option loc :=
  List.find (fun r => bool_decide (σ r = role)) roles.

(** One iteration of the inner loop, on [prev_role] and [this_role]. *)
Definition end_before (σ : store) (roles : list loc)
    (prev_role this_role : loc) : result store :=
  match end_datetime (σ prev_role), start_datetime (σ this_role) with
  | Some e, Some s =>
      if s <? e then
        match roles_index σ roles (σ prev_role) with
        | Some target => Ok (set_end_datetime σ target (s - one_day))
        | None => Raise ValueError
        end
      else Ok σ
  | _, _ => Raise TypeError
  end.

(** [for i in [i for i, role in enumerate(roles_for_body) if i > 0]] *)
Fixpoint end_overlaps (σ : store) (roles : list loc)
    (roles_for_body : list loc) : result store :=
  match roles_for_body with
  | prev_role :: (this_role :: _) as rest =>
      σ' ← end_before σ roles prev_role this_role;
      end_overlaps σ' roles rest
  | _ => Ok σ
  end.

Fixpoint end_overlaps_by_body (σ : store) (roles : list loc)
    (by_body : list (list loc)) : result store :=
  match by_body with
  | [] => Ok σ
  | roles_for_body :: rest =>
      σ' ← end_overlaps σ roles roles_for_body;
      end_overlaps_by_body σ' roles rest
  end.

(** The function itself.  It takes the store at the call and returns the
    store at the return together with the returned value, which the
    signature declares [Optional[List[Role]]]. *)
Definition sanitize_roles (roles : option (list loc)) (σ : store)
    : result (store * option (list loc)) :=
  let roles := default [] roles in
  roles ← kept_roles σ roles;
  let σ := standardize_titles σ roles in
  let by_body := scraped_member_roles_by_body σ roles in
  let roles :=
    if have_primary_roles
    then (roles ++ default [] static_roles)%list else roles in
  if bool_decide (length by_body = 0%nat) then Ok (σ, Some roles)
  else
    σ ← end_overlaps_by_body σ roles by_body;
    Ok (σ, Some roles).


(** *** The sweep as the specification words it

    For each index [i] from 1 on, when the previous role ends strictly
    after the current one starts, the previous role's end becomes the
    current start minus one day.  The assignment goes to the previous role
    itself, with no lookup by value. *)
Definition truncate_previous (σ : store) (prev_role this_role : loc)
    : store :=
  match end_datetime (σ prev_role), start_datetime (σ this_role) with
  | Some e, Some s =>
      if s <? e then set_end_datetime σ prev_role (s - one_day) else σ
  | _, _ => σ
  end.

Fixpoint truncate_overlaps (σ : store) (roles_for_body : list loc)
    : store :=
  match roles_for_body with
  | prev_role :: (this_role :: _) as rest =>
      truncate_overlaps (truncate_previous σ prev_role this_role) rest
  | _ => σ
  end.

Fixpoint truncate_overlaps_by_body (σ : store) (by_body : list (list loc))
    : store :=
  match by_body with
  | [] => σ
  | roles_for_body :: rest =>
      truncate_overlaps_by_body (truncate_overlaps σ roles_for_body) rest
  end.

(** Both sweeps, run over the sorted list before it is cut into groups:
    a pair of neighbours is visited when the two are on the same body. *)
Fixpoint end_overlaps_flat (same : loc -> loc -> bool) (σ : store)
    (roles : list loc) (sorted_roles : list loc) : result store :=
  match sorted_roles with
  | prev_role :: (this_role :: _) as rest =>
      if same prev_role this_role then
        σ' ← end_before σ roles prev_role this_role;
        end_overlaps_flat same σ' roles rest
      else end_overlaps_flat same σ roles rest
  | _ => Ok σ
  end.

Fixpoint truncate_overlaps_flat (same : loc -> loc -> bool) (σ : store)
    (sorted_roles : list loc) : store :=
  match sorted_roles with
  | prev_role :: (this_role :: _) as rest =>
      truncate_overlaps_flat same
        (if same prev_role this_role
         then truncate_previous σ prev_role this_role else σ)
        rest
  | _ => σ
  end.

(** *** Predicates used in the statements *)

(** Two values of one object that differ at most in the title. *)
Definition same_but_title (ρ ρ' : Role) : Prop :=
  body ρ = body ρ' /\ start_datetime ρ = start_datetime ρ' /\
  end_datetime ρ = end_datetime ρ' /\
  external_source_id ρ = external_source_id ρ'.

(** A static role's window contains [s, e]. *)
Definition contains_period (σ : store) (s e : datetime) (r : loc) : bool :=
  match start_datetime (σ r), end_datetime (σ r) with
  | Some ss, Some se => (ss <=? s) && (e <=? se)
  | _, _ => false
  end.

Definition has_period (ρ : Role) : Prop :=
  is_Some (start_datetime ρ) /\ is_Some (end_datetime ρ).

(** The test the two filters apply to one role. *)
Definition keeps (σ : store) (r : loc) : bool :=
  match _is_role_period_ok σ (σ r) with
  | Ok ok => ok && negb (have_primary_roles && _is_primary_body (σ r))
  | Raise _ => false
  end.

(** Without static roles the validator never raises; with static roles it
    does not raise when each of them has both dates. *)
Definition static_periods_known (σ : store) : Prop :=
  forall r, In r (default [] static_roles) -> has_period (σ r).

(** The filter, the order and the grouping of
    [scraped_member_roles_by_body], by name. *)
Definition member_term (σ : store) (r : loc) : bool :=
  negb have_primary_roles && _is_councilmember_term (σ r).

Definition role_leb (σ : store) (r1 r2 : loc) : bool :=
  key_leb (sort_key (σ r1)) (sort_key (σ r2)).

Definition same_body (σ : store) (r1 r2 : loc) : bool :=
  String.eqb (body_name (σ r1)) (body_name (σ r2)).

Definition sorted_member_roles (σ : store) (roles : list loc) : list loc :=
  sorted (role_leb σ) (List.filter (member_term σ) roles).

(** With names and starts read in [σ0] and ends in [σ]: on one body, [y]
    ends no later than [x] starts. *)
Definition ends_before (σ0 σ : store) (y x : loc) : Prop :=
  body_name (σ0 y) = body_name (σ0 x) ->
  forall e s,
    end_datetime (σ y) = Some e -> start_datetime (σ0 x) = Some s ->
    e <= s.

(** What holds while the sweep stands at [prev], with [done] the roles
    before it, latest first: only roles of [done] have a new end, and the
    roles passed so far no longer overlap. *)
Definition sweep_invariant (σ0 : store) (done : list loc) (prev : loc)
    (σ : store) : Prop :=
  (forall y, σ y = σ0 y \/
             (In y done /\ exists d, σ y = with_end_datetime (σ0 y) d)) /\
  all_pairs (fun x y => ends_before σ0 σ y x) (prev :: done).

(** The classifiers give the canonical titles back to themselves. *)
Definition canonical_titles_fixed : Prop :=
  (forall ρ t,
      In t [RoleTitle.COUNCILMEMBER; RoleTitle.COUNCILPRESIDENT] ->
      title ρ = Some t -> _fix_primary_title ρ = t) /\
  (forall ρ t,
      In t [RoleTitle.VICE_CHAIR; RoleTitle.ALTERNATE;
            RoleTitle.SUPERVISOR; RoleTitle.CHAIR; RoleTitle.MEMBER] ->
      title ρ = Some t -> _fix_nonprimary_title ρ = t).

(** The roles appended after the kept ones. *)
Definition appended_static_roles : list loc :=
  if have_primary_roles then default [] static_roles else [].

(** The names under which the static data declares the primary bodies:
    the keys of [static_data.primary_bodies], and the two default names
    where there is no static data or it declares no primary body. *)
Definition declared_primary_body (k : string) : Prop :=
  match static_data with
  | Some sd =>
      if decide (primary_bodies sd = ∅)
      then k = "city council" \/ k = "council briefing"
      else is_Some (primary_bodies sd !! k)
  | None => k = "city council" \/ k = "council briefing"
  end.

(** The body of the role has the name of a declared primary body, letter
    case set aside on both sides, and blanks simplified on the side of the
    role only. *)
Definition on_primary_body (role : Role) : Prop :=
  exists b n k,
    body role = Some b /\ name b = Some n /\ declared_primary_body k /\
    Text.lower (str_simplified n) = Text.lower k.


(** An end that the sweep moved: role [y] ended after the start [s] of a
    member term [x] on its body, and now ends one day before [s]. *)
Definition end_moved (σ0 σ : store) (roles : list loc) (y : loc) : Prop :=
  exists x s e,
    In y (sorted_member_roles σ0 roles) /\
    In x (sorted_member_roles σ0 roles) /\
    body_name (σ0 y) = body_name (σ0 x) /\
    end_datetime (σ0 y) = Some e /\ start_datetime (σ0 x) = Some s /\
    s < e /\ σ y = with_end_datetime (σ0 y) (s - one_day).
(** ** Facts about the order on sort keys *)

Lemma string_compare_refl (s : string) : String.compare s s = Eq.
Proof. apply String_as_OT.cmp_eq. reflexivity. Qed.

Lemma string_compare_lt_trans (a b c : string) :
  String.compare a b = Lt -> String.compare b c = Lt ->
  String.compare a c = Lt.
Proof.
  intros Hab Hbc.
  apply String_as_OT.cmp_lt in Hab. apply String_as_OT.cmp_lt in Hbc.
  apply String_as_OT.cmp_lt. eapply String_as_OT.lt_trans; eassumption.
Qed.

Lemma string_compare_gt_lt (a b : string) :
  String.compare a b = Gt -> String.compare b a = Lt.
Proof.
  intros H. pose proof (String_as_OT.cmp_antisym a b) as Ha.
  unfold String_as_OT.cmp in Ha. rewrite H in Ha.
  destruct (String.compare b a); simpl in Ha; congruence.
Qed.

Lemma string_compare_lt_gt (a b : string) :
  String.compare a b = Lt -> String.compare b a = Gt.
Proof.
  intros H. pose proof (String_as_OT.cmp_antisym a b) as Ha.
  unfold String_as_OT.cmp in Ha. rewrite H in Ha.
  destruct (String.compare b a); simpl in Ha; congruence.
Qed.

Lemma string_compare_eq (a b : string) :
  String.compare a b = Eq -> a = b.
Proof. apply String_as_OT.cmp_eq. Qed.

Lemma key_leb_total k1 k2 : key_leb k1 k2 = true \/ key_leb k2 k1 = true.
Proof.
  destruct k1 as [[n1 s1] e1], k2 as [[n2 s2] e2]. unfold key_leb.
  destruct (String.compare n1 n2) eqn:E.
  - apply string_compare_eq in E. subst n2.
    rewrite string_compare_refl.
    destruct (Z.ltb_spec s1 s2), (Z.ltb_spec s2 s1),
      (Z.eqb_spec s1 s2), (Z.eqb_spec s2 s1),
      (Z.leb_spec e1 e2), (Z.leb_spec e2 e1); simpl; auto; lia.
  - auto.
  - apply string_compare_gt_lt in E. rewrite E. auto.
Qed.

Lemma key_leb_trans k1 k2 k3 :
  key_leb k1 k2 = true -> key_leb k2 k3 = true -> key_leb k1 k3 = true.
Proof.
  destruct k1 as [[n1 s1] e1], k2 as [[n2 s2] e2], k3 as [[n3 s3] e3].
  unfold key_leb.
  destruct (String.compare n1 n2) eqn:E12; try discriminate;
    destruct (String.compare n2 n3) eqn:E23; try discriminate.
  - apply string_compare_eq in E12. apply string_compare_eq in E23.
    subst. rewrite string_compare_refl.
    destruct (Z.ltb_spec s1 s2), (Z.ltb_spec s2 s3), (Z.ltb_spec s1 s3),
      (Z.eqb_spec s1 s2), (Z.eqb_spec s2 s3), (Z.eqb_spec s1 s3),
      (Z.leb_spec e1 e2), (Z.leb_spec e2 e3), (Z.leb_spec e1 e3);
      simpl; auto; lia.
  - apply string_compare_eq in E12. subst. rewrite E23. auto.
  - apply string_compare_eq in E23. subst. rewrite E12. auto.
  - rewrite (string_compare_lt_trans _ _ _ E12 E23). auto.
Qed.

Lemma key_leb_antisym k1 k2 :
  key_leb k1 k2 = true -> key_leb k2 k1 = true -> k1 = k2.
Proof.
  destruct k1 as [[n1 s1] e1], k2 as [[n2 s2] e2]. unfold key_leb.
  destruct (String.compare n1 n2) eqn:E; try discriminate.
  - apply string_compare_eq in E. subst. rewrite string_compare_refl.
    destruct (Z.ltb_spec s1 s2), (Z.ltb_spec s2 s1),
      (Z.eqb_spec s1 s2), (Z.eqb_spec s2 s1),
      (Z.leb_spec e1 e2), (Z.leb_spec e2 e1); simpl;
      try discriminate; intros; f_equal; try f_equal; lia.
  - apply string_compare_lt_gt in E. rewrite E. discriminate.
Qed.

(** Below equal names the order is that of the start, then the end. *)
Lemma key_leb_same_name n s1 e1 s2 e2 :
  key_leb (n, s1, e1) (n, s2, e2) = true -> s1 <= s2.
Proof.
  unfold key_leb. rewrite string_compare_refl.
  destruct (Z.ltb_spec s1 s2), (Z.eqb_spec s1 s2); simpl;
    try discriminate; lia.
Qed.

(** A name between two equal names is that name. *)
Lemma key_leb_name_between n1 s1 e1 n2 s2 e2 s3 e3 :
  key_leb (n1, s1, e1) (n2, s2, e2) = true ->
  key_leb (n2, s2, e2) (n1, s3, e3) = true -> n2 = n1.
Proof.
  unfold key_leb.
  destruct (String.compare n1 n2) eqn:E12; try discriminate.
  - apply string_compare_eq in E12. auto.
  - apply string_compare_lt_gt in E12. rewrite E12. discriminate.
Qed.

(** ** Facts about sorting and grouping *)

Section sorting_facts.
Context {A : Type} (leb : A -> A -> bool).
Hypothesis leb_total : forall x y, leb x y = true \/ leb y x = true.
Hypothesis leb_trans :
  forall x y z, leb x y = true -> leb y z = true -> leb x z = true.

Lemma In_insert_sorted x y l :
  In y (insert_sorted leb x l) <-> y = x \/ In y l.
Proof.
  induction l as [|z l IH]; simpl.
  - intuition.
  - destruct (leb x z); simpl; [intuition|]. rewrite IH. intuition.
Qed.

Lemma In_sorted y l : In y (sorted leb l) <-> In y l.
Proof.
  induction l as [|x l IH]; simpl; [tauto|].
  rewrite In_insert_sorted, IH. intuition.
Qed.


Lemma ascending_insert x l :
  ascending leb l -> ascending leb (insert_sorted leb x l).
Proof.
  induction 1 as [|z l Hz Hl IH]; simpl.
  - constructor; [intros y []|constructor].
  - destruct (leb x z) eqn:E.
    + constructor; [|constructor; assumption].
      intros y [<-|Hy]; [assumption|]. eapply leb_trans; eauto.
    + constructor; [|assumption].
      intros y Hy. apply In_insert_sorted in Hy as [->|Hy]; [|auto].
      destruct (leb_total x z); congruence.
Qed.

Lemma ascending_sorted l : ascending leb (sorted leb l).
Proof.
  induction l; simpl; [constructor|]. apply ascending_insert; assumption.
Qed.

Lemma ascending_app_inv l1 x l2 :
  ascending leb (l1 ++ x :: l2)%list ->
  forall y, In y l2 -> leb x y = true.
Proof.
  induction l1 as [|z l1 IH]; simpl; inversion 1; subst; auto.
Qed.

Lemma ascending_neighbours l1 x y l2 :
  ascending leb (l1 ++ x :: y :: l2)%list -> leb x y = true.
Proof.
  intros H. eapply ascending_app_inv; [eassumption|]. left. reflexivity.
Qed.


Lemma filter_insert_sorted z x l :
  List.filter (same_key leb z) (insert_sorted leb x l)
  = List.filter (same_key leb z) (x :: l).
Proof.
  induction l as [|y l IH]; [reflexivity|].
  simpl insert_sorted. destruct (leb x y) eqn:Exy; [reflexivity|].
  simpl in *. rewrite IH.
  destruct (same_key leb z x) eqn:Ex; [|reflexivity].
  destruct (same_key leb z y) eqn:Ey; [|reflexivity].
  unfold same_key in Ex, Ey.
  apply andb_true_iff in Ex as [Hxz Hzx].
  apply andb_true_iff in Ey as [Hyz Hzy].
  rewrite (leb_trans _ _ _ Hxz Hzy) in Exy. discriminate.
Qed.

Lemma filter_sorted z l :
  List.filter (same_key leb z) (sorted leb l) = List.filter (same_key leb z) l.
Proof.
  induction l as [|x l IH]; [reflexivity|].
  simpl sorted. rewrite filter_insert_sorted. simpl. rewrite IH.
  reflexivity.
Qed.

Lemma first_of_two (x t : A) X Y Z W :
  (X ++ x :: Y = Z ++ t :: W)%list -> ~ In x Z -> t <> x -> In t X.
Proof.
  revert Z. induction X as [|a X IH]; intros [|b Z] HE Hn Hne;
    simpl in *; inversion HE; subst.
  - congruence.
  - exfalso. apply Hn. left. reflexivity.
  - left. reflexivity.
  - right. eapply IH; eauto.
Qed.

Lemma sorted_stable_before l l1 t l2 P x Q :
  l = (l1 ++ t :: l2)%list ->
  sorted leb l = (P ++ x :: Q)%list ->
  ~ In x l1 -> t <> x -> same_key leb x t = true -> In t P.
Proof.
  intros Hl HS Hn Hne Hk.
  pose proof (filter_sorted x l) as HF.
  rewrite HS, Hl in HF. rewrite !List.filter_app in HF. simpl in HF.
  rewrite Hk in HF.
  assert (Hxx : same_key leb x x = true).
  { unfold same_key. destruct (leb_total x x) as [H|H]; rewrite H; auto. }
  rewrite Hxx in HF.
  apply first_of_two in HF; auto.
  - apply List.filter_In in HF. tauto.
  - rewrite List.filter_In. tauto.
Qed.
End sorting_facts.

(** Sweeping the groups is sweeping the sorted list. *)
Lemma groupby_head {A} (same : A -> A -> bool) x l :
  exists g gs, groupby same (x :: l) = (x :: g) :: gs.
Proof.
  revert x. induction l as [|y l IH]; intros x; simpl.
  - eauto.
  - destruct (IH y) as (g & gs & E). simpl in E. rewrite E.
    destruct (same x y); eauto.
Qed.

Lemma end_overlaps_by_body_flat same σ roles l :
  end_overlaps_by_body σ roles (groupby same l)
  = end_overlaps_flat same σ roles l.
Proof.
  revert σ. induction l as [|x l IH]; intros σ; [reflexivity|].
  destruct l as [|y l]; [reflexivity|].
  destruct (groupby_head same y l) as (g & gs & E).
  change (groupby same (x :: y :: l)) with
    (match groupby same (y :: l) with
     | (y' :: g') :: gs' =>
         if same x y' then (x :: y' :: g') :: gs'
         else [x] :: (y' :: g') :: gs'
     | _ => [[x]]
     end).
  rewrite E in *. cbn [end_overlaps_flat].
  destruct (same x y).
  - cbn [end_overlaps_by_body end_overlaps].
    destruct (end_before σ roles x y) as [σ1|e]; [|reflexivity].
    exact (IH σ1).
  - exact (IH σ).
Qed.

Lemma truncate_overlaps_by_body_flat same σ l :
  truncate_overlaps_by_body σ (groupby same l)
  = truncate_overlaps_flat same σ l.
Proof.
  revert σ. induction l as [|x l IH]; intros σ; [reflexivity|].
  destruct l as [|y l]; [reflexivity|].
  destruct (groupby_head same y l) as (g & gs & E).
  change (groupby same (x :: y :: l)) with
    (match groupby same (y :: l) with
     | (y' :: g') :: gs' =>
         if same x y' then (x :: y' :: g') :: gs'
         else [x] :: (y' :: g') :: gs'
     | _ => [[x]]
     end).
  rewrite E in *. cbn [truncate_overlaps_flat].
  destruct (same x y); exact (IH _).
Qed.

(** ** Facts about the title loops *)


Lemma same_but_title_refl ρ : same_but_title ρ ρ.
Proof. repeat split. Qed.

Lemma same_but_title_trans ρ1 ρ2 ρ3 :
  same_but_title ρ1 ρ2 -> same_but_title ρ2 ρ3 -> same_but_title ρ1 ρ3.
Proof. unfold same_but_title. intuition congruence. Qed.

Lemma set_title_same σ r t r' : same_but_title (set_title σ r t r') (σ r').
Proof. unfold set_title. destruct (decide (r' = r)); repeat split. Qed.

Lemma set_title_eq σ r t : title (set_title σ r t r) = Some t.
Proof. unfold set_title. destruct (decide (r = r)); [reflexivity|congruence]. Qed.

Lemma set_title_ne σ r t r' : r' <> r -> set_title σ r t r' = σ r'.
Proof. unfold set_title. destruct (decide (r' = r)); congruence. Qed.

Lemma _is_primary_body_body ρ ρ' :
  body ρ = body ρ' -> _is_primary_body ρ = _is_primary_body ρ'.
Proof. unfold _is_primary_body. intros ->. reflexivity. Qed.

Lemma _fix_primary_title_cases ρ :
  _fix_primary_title ρ = RoleTitle.COUNCILMEMBER \/
  _fix_primary_title ρ = RoleTitle.COUNCILPRESIDENT.
Proof.
  unfold _fix_primary_title. destruct (title ρ); auto.
  destruct (Text.re_search_I _ _); auto.
Qed.

Lemma _fix_nonprimary_title_cases ρ :
  In (_fix_nonprimary_title ρ)
    [RoleTitle.VICE_CHAIR; RoleTitle.ALTERNATE; RoleTitle.SUPERVISOR;
     RoleTitle.CHAIR; RoleTitle.MEMBER].
Proof.
  unfold _fix_nonprimary_title. destruct (title ρ); simpl; [|tauto].
  repeat match goal with
         | |- context [if ?b then _ else _] => destruct b
         end; tauto.
Qed.

Lemma _fix_nonprimary_title_not_council ρ :
  _fix_nonprimary_title ρ <> RoleTitle.COUNCILMEMBER /\
  _fix_nonprimary_title ρ <> RoleTitle.COUNCILPRESIDENT.
Proof.
  pose proof (_fix_nonprimary_title_cases ρ) as H. simpl in H.
  split; intros E; rewrite E in H;
    repeat destruct H as [H|H]; try discriminate H; exact H.
Qed.

Lemma fix_primary_titles_same σ l r :
  same_but_title (fix_primary_titles σ l r) (σ r).
Proof.
  revert σ. induction l as [|a l IH]; intros σ; simpl.
  - apply same_but_title_refl.
  - eapply same_but_title_trans; [apply IH|].
    destruct (_is_primary_body (σ a));
      [apply set_title_same|apply same_but_title_refl].
Qed.

Lemma fix_nonprimary_titles_same σ l r :
  same_but_title (fix_nonprimary_titles σ l r) (σ r).
Proof.
  revert σ. induction l as [|a l IH]; intros σ; simpl.
  - apply same_but_title_refl.
  - eapply same_but_title_trans; [apply IH|].
    destruct (_is_primary_body (σ a));
      [apply same_but_title_refl|apply set_title_same].
Qed.

Lemma standardize_titles_same σ l r :
  same_but_title (standardize_titles σ l r) (σ r).
Proof.
  unfold standardize_titles. eapply same_but_title_trans;
    [apply fix_nonprimary_titles_same|apply fix_primary_titles_same].
Qed.

Lemma fix_primary_titles_notin σ l r :
  ~ In r l -> fix_primary_titles σ l r = σ r.
Proof.
  revert σ. induction l as [|a l IH]; intros σ Hn; simpl; [reflexivity|].
  rewrite IH by (simpl in Hn; tauto).
  destruct (_is_primary_body (σ a)); [|reflexivity].
  apply set_title_ne. simpl in Hn. intros ->. tauto.
Qed.

Lemma fix_nonprimary_titles_notin σ l r :
  ~ In r l -> fix_nonprimary_titles σ l r = σ r.
Proof.
  revert σ. induction l as [|a l IH]; intros σ Hn; simpl; [reflexivity|].
  rewrite IH by (simpl in Hn; tauto).
  destruct (_is_primary_body (σ a)); [reflexivity|].
  apply set_title_ne. simpl in Hn. intros ->. tauto.
Qed.

Lemma standardize_titles_notin σ l r :
  ~ In r l -> standardize_titles σ l r = σ r.
Proof.
  intros Hn. unfold standardize_titles.
  rewrite fix_nonprimary_titles_notin, fix_primary_titles_notin; auto.
Qed.

Lemma fix_primary_titles_nonprimary σ l r :
  _is_primary_body (σ r) = false -> fix_primary_titles σ l r = σ r.
Proof.
  revert σ. induction l as [|a l IH]; intros σ Hp; simpl; [reflexivity|].
  destruct (_is_primary_body (σ a)) eqn:Ea.
  - rewrite IH.
    + apply set_title_ne. intros ->. congruence.
    + rewrite <- Hp. apply _is_primary_body_body, set_title_same.
  - apply IH, Hp.
Qed.

Lemma fix_nonprimary_titles_primary σ l r :
  _is_primary_body (σ r) = true -> fix_nonprimary_titles σ l r = σ r.
Proof.
  revert σ. induction l as [|a l IH]; intros σ Hp; simpl; [reflexivity|].
  destruct (_is_primary_body (σ a)) eqn:Ea.
  - apply IH, Hp.
  - rewrite IH.
    + apply set_title_ne. intros ->. congruence.
    + rewrite <- Hp. apply _is_primary_body_body, set_title_same.
Qed.

(** An object of the list ends with a title that one of the two
    classifiers produced; from its original value when the object occurs
    once in the list. *)
Lemma fix_primary_titles_in σ l r :
  In r l -> _is_primary_body (σ r) = true ->
  exists ρ, title (fix_primary_titles σ l r) = Some (_fix_primary_title ρ)
            /\ (NoDup l -> ρ = σ r).
Proof.
  revert σ. induction l as [|a l IH]; intros σ Hin Hp; [destruct Hin|].
  simpl. destruct (in_dec Nat.eq_dec r l) as [Hl|Hl].
  - destruct (IH (if _is_primary_body (σ a)
                  then set_title σ a (_fix_primary_title (σ a)) else σ) Hl)
      as (ρ & Ht & Hρ).
    { rewrite <- Hp. apply _is_primary_body_body.
      destruct (_is_primary_body (σ a));
        [apply set_title_same|reflexivity]. }
    exists ρ. split; [exact Ht|]. intros Hnd. inversion Hnd; subst.
    rewrite Hρ by assumption.
    destruct (_is_primary_body (σ a)); [|reflexivity].
    apply set_title_ne. intros ->.
    match goal with H : _ ∉ _ |- _ => apply H, list_elem_of_In, Hl end.
  - destruct Hin as [->|Hin]; [|tauto].
    rewrite fix_primary_titles_notin by assumption. rewrite Hp.
    exists (σ r). rewrite set_title_eq. auto.
Qed.

Lemma fix_nonprimary_titles_in σ l r :
  In r l -> _is_primary_body (σ r) = false ->
  exists ρ,
    title (fix_nonprimary_titles σ l r) = Some (_fix_nonprimary_title ρ)
    /\ (NoDup l -> ρ = σ r).
Proof.
  revert σ. induction l as [|a l IH]; intros σ Hin Hp; [destruct Hin|].
  simpl. destruct (in_dec Nat.eq_dec r l) as [Hl|Hl].
  - destruct (IH (if _is_primary_body (σ a)
                  then σ
                  else set_title σ a (_fix_nonprimary_title (σ a))) Hl)
      as (ρ & Ht & Hρ).
    { rewrite <- Hp. apply _is_primary_body_body.
      destruct (_is_primary_body (σ a));
        [reflexivity|apply set_title_same]. }
    exists ρ. split; [exact Ht|]. intros Hnd. inversion Hnd; subst.
    rewrite Hρ by assumption.
    destruct (_is_primary_body (σ a)); [reflexivity|].
    apply set_title_ne. intros ->.
    match goal with H : _ ∉ _ |- _ => apply H, list_elem_of_In, Hl end.
  - destruct Hin as [->|Hin]; [|tauto].
    rewrite fix_nonprimary_titles_notin by assumption. rewrite Hp.
    exists (σ r). rewrite set_title_eq. auto.
Qed.

Lemma standardize_titles_primary σ l r :
  In r l -> _is_primary_body (σ r) = true ->
  exists ρ, title (standardize_titles σ l r) = Some (_fix_primary_title ρ)
            /\ (NoDup l -> ρ = σ r).
Proof.
  intros Hin Hp. unfold standardize_titles.
  rewrite fix_nonprimary_titles_primary.
  - apply fix_primary_titles_in; assumption.
  - rewrite <- Hp. apply _is_primary_body_body, fix_primary_titles_same.
Qed.

Lemma standardize_titles_nonprimary σ l r :
  In r l -> _is_primary_body (σ r) = false ->
  exists ρ,
    title (standardize_titles σ l r) = Some (_fix_nonprimary_title ρ)
    /\ (NoDup l -> ρ = σ r).
Proof.
  intros Hin Hp. unfold standardize_titles.
  assert (Hσ : forall x, _is_primary_body (σ x) = false ->
                         fix_primary_titles σ l x = σ x)
    by (intros; apply fix_primary_titles_nonprimary; assumption).
  destruct (fix_nonprimary_titles_in (fix_primary_titles σ l) l r Hin)
    as (ρ & Ht & Hρ).
  { rewrite Hσ; assumption. }
  exists ρ. split; [exact Ht|]. intros Hnd. rewrite Hρ, Hσ; auto.
Qed.

(** Only roles on a primary body carry the title Councilmember. *)
Lemma standardize_titles_councilmember σ l r :
  In r l ->
  title (standardize_titles σ l r) = Some RoleTitle.COUNCILMEMBER ->
  _is_primary_body (σ r) = true.
Proof.
  intros Hin Ht. destruct (_is_primary_body (σ r)) eqn:Hp; [reflexivity|].
  destruct (standardize_titles_nonprimary σ l r Hin Hp) as (ρ & Hρ & _).
  rewrite Hρ in Ht. injection Ht as Ht.
  destruct (_fix_nonprimary_title_not_council ρ) as [H _]. contradiction.
Qed.

(** ** The primary bodies *)

Lemma primary_body_names_declared (x : string) :
  x ∈ primary_body_names <->
  exists k, declared_primary_body k /\ x = Text.lower k.
Proof.
  unfold primary_body_names, declared_primary_body.
  assert (Hdefault :
            x ∈ ["city council"; "council briefing"] <->
            exists k, (k = "city council" \/ k = "council briefing") /\
                      x = Text.lower k).
  { rewrite !elem_of_cons, elem_of_nil. split.
    - intros [->|[->|[]]].
      + exists "city council". auto.
      + exists "council briefing". auto.
    - intros (k & [->| ->] & ->); simpl; auto. }
  destruct static_data as [sd|]; [|exact Hdefault].
  destruct (decide (primary_bodies sd = ∅)); [exact Hdefault|].
  rewrite list_elem_of_fmap. split.
  - intros (k & -> & Hk). apply list_elem_of_fmap in Hk as ([k' b] & -> & Hkb).
    apply elem_of_map_to_list in Hkb. exists k'. split; [eauto|reflexivity].
  - intros (k & [b Hb] & ->). exists k. split; [reflexivity|].
    apply list_elem_of_fmap. exists (k, b). split; [reflexivity|].
    apply elem_of_map_to_list. exact Hb.
Qed.

(** The test of the code is the declaration of the static data. *)
Lemma _is_primary_body_declared ρ :
  _is_primary_body ρ = true <-> on_primary_body ρ.
Proof.
  unfold _is_primary_body, on_primary_body. split.
  - destruct (body ρ) as [b|]; [|discriminate].
    destruct (name b) as [n|] eqn:En; [|discriminate].
    intros H. apply bool_decide_eq_true in H.
    apply primary_body_names_declared in H as (k & Hk & E).
    exists b, n, k. auto.
  - intros (b & n & k & -> & -> & Hk & E).
    apply bool_decide_eq_true. apply primary_body_names_declared.
    exists k. auto.
Qed.

(** ** Facts about the period validator and the filter *)



Lemma coincides_with_static_sound σ statics s e :
  coincides_with_static σ statics s e = Ok true ->
  exists r, In r statics /\ contains_period σ s e r = true.
Proof.
  induction statics as [|r statics IH]; simpl; intros H;
    [discriminate H|].
  destruct (start_datetime (σ r)) as [ss|] eqn:Es; [|discriminate H].
  destruct (ss <=? s) eqn:Es'.
  - destruct (end_datetime (σ r)) as [se|] eqn:Ee; [|discriminate H].
    destruct (e <=? se) eqn:Ee'.
    + exists r. split; [left; reflexivity|].
      unfold contains_period. rewrite Es, Ee, Es', Ee'. reflexivity.
    + destruct (IH H) as (r' & ? & ?). eauto.
  - destruct (IH H) as (r' & ? & ?). eauto.
Qed.

Lemma coincides_with_static_total σ statics s e :
  (forall r, In r statics -> has_period (σ r)) ->
  coincides_with_static σ statics s e
  = Ok (existsb (contains_period σ s e) statics).
Proof.
  induction statics as [|r statics IH]; intros Hall; [reflexivity|].
  simpl. destruct (Hall r (or_introl eq_refl)) as [[ss Hs] [se He]].
  unfold contains_period at 1. rewrite Hs, He.
  rewrite IH by (intros; apply Hall; right; assumption).
  destruct (ss <=? s), (e <=? se); reflexivity.
Qed.

Lemma coincides_with_static_returns σ statics s e accepted :
  coincides_with_static σ statics s e = Ok accepted ->
  accepted = existsb (contains_period σ s e) statics.
Proof.
  induction statics as [|r statics IH]; simpl; intros H.
  - injection H as <-. reflexivity.
  - unfold contains_period at 1.
    destruct (start_datetime (σ r)) as [ss|]; [|discriminate H].
    destruct (ss <=? s).
    + destruct (end_datetime (σ r)) as [se|]; [|discriminate H].
      destruct (e <=? se); [injection H as <-; reflexivity|].
      simpl. exact (IH H).
    + destruct (end_datetime (σ r)); simpl; exact (IH H).
Qed.

Lemma _is_role_period_ok_has_period σ ρ :
  _is_role_period_ok σ ρ = Ok true -> has_period ρ.
Proof.
  unfold _is_role_period_ok, has_period.
  destruct (start_datetime ρ), (end_datetime ρ); try discriminate.
  split; eexists; reflexivity.
Qed.

(** The validator reads the dates of the role and, through the store, the
    dates of the static roles. *)
Lemma coincides_with_static_ext σ σ' statics s e :
  (forall r, In r statics ->
             start_datetime (σ r) = start_datetime (σ' r) /\
             end_datetime (σ r) = end_datetime (σ' r)) ->
  coincides_with_static σ statics s e
  = coincides_with_static σ' statics s e.
Proof.
  induction statics as [|r statics IH]; intros H; [reflexivity|].
  simpl. destruct (H r (or_introl eq_refl)) as [-> ->].
  rewrite IH by (intros; apply H; right; assumption). reflexivity.
Qed.

Lemma _is_role_period_ok_ext σ σ' ρ ρ' :
  (forall r, start_datetime (σ r) = start_datetime (σ' r) /\
             end_datetime (σ r) = end_datetime (σ' r)) ->
  start_datetime ρ = start_datetime ρ' ->
  end_datetime ρ = end_datetime ρ' ->
  _is_role_period_ok σ ρ = _is_role_period_ok σ' ρ'.
Proof.
  intros H Hs He. unfold _is_role_period_ok. rewrite Hs, He.
  destruct (start_datetime ρ'), (end_datetime ρ'); try reflexivity.
  destruct have_primary_roles; simpl; [|reflexivity].
  apply coincides_with_static_ext. intros; apply H.
Qed.


Lemma kept_roles_filter σ l k :
  kept_roles σ l = Ok k -> k = List.filter (keeps σ) l.
Proof.
  revert k. induction l as [|r l IH]; intros k; simpl.
  - intros [= <-]. reflexivity.
  - unfold keeps at 1.
    destruct (_is_role_period_ok σ (σ r)) as [ok|]; [|discriminate].
    simpl. destruct (kept_roles σ l) as [k'|]; [|discriminate].
    simpl. intros [= <-]. rewrite (IH k' eq_refl).
    destruct (ok && _); reflexivity.
Qed.

Lemma kept_roles_total σ l :
  (forall r, In r l -> exists ok, _is_role_period_ok σ (σ r) = Ok ok) ->
  kept_roles σ l = Ok (List.filter (keeps σ) l).
Proof.
  induction l as [|r l IH]; intros H; [reflexivity|].
  simpl. unfold keeps at 1.
  destruct (H r (or_introl eq_refl)) as [ok ->]. simpl.
  rewrite IH by (intros; apply H; right; assumption). simpl.
  destruct (ok && _); reflexivity.
Qed.

Lemma kept_roles_In σ l k r :
  kept_roles σ l = Ok k ->
  In r k <->
  In r l /\ _is_role_period_ok σ (σ r) = Ok true /\
  (have_primary_roles && _is_primary_body (σ r)) = false.
Proof.
  intros Hk. rewrite (kept_roles_filter _ _ _ Hk), List.filter_In.
  unfold keeps. destruct (_is_role_period_ok σ (σ r)) as [[]|];
    destruct (have_primary_roles && _is_primary_body (σ r));
    simpl; intuition congruence.
Qed.

Lemma keeps_ext σ σ' :
  (forall r, body (σ r) = body (σ' r) /\
             start_datetime (σ r) = start_datetime (σ' r) /\
             end_datetime (σ r) = end_datetime (σ' r)) ->
  forall r, keeps σ r = keeps σ' r.
Proof.
  intros H r. unfold keeps.
  rewrite (_is_role_period_ok_ext σ σ' (σ r) (σ' r));
    try (intros; apply H).
  rewrite (_is_primary_body_body (σ r) (σ' r)) by apply H. reflexivity.
Qed.

Lemma kept_roles_ext σ σ' l :
  (forall r, body (σ r) = body (σ' r) /\
             start_datetime (σ r) = start_datetime (σ' r) /\
             end_datetime (σ r) = end_datetime (σ' r)) ->
  kept_roles σ l = kept_roles σ' l.
Proof.
  intros H. induction l as [|r l IH]; [reflexivity|]. simpl.
  rewrite (_is_role_period_ok_ext σ σ' (σ r) (σ' r));
    try (intros; apply H).
  rewrite (_is_primary_body_body (σ r) (σ' r)) by apply H.
  rewrite IH. reflexivity.
Qed.


Lemma _is_role_period_ok_total σ ρ :
  have_primary_roles = false \/ static_periods_known σ ->
  exists ok, _is_role_period_ok σ ρ = Ok ok.
Proof.
  intros H. unfold _is_role_period_ok.
  destruct (start_datetime ρ), (end_datetime ρ); eauto.
  destruct have_primary_roles eqn:Eh; simpl; eauto.
  destruct H as [H|H]; [discriminate|].
  rewrite coincides_with_static_total by exact H. eauto.
Qed.

(** ** Facts about the sweep *)

Lemma all_pairs_app_before {A} (R : A -> A -> Prop) l1 x l2 :
  all_pairs R (l1 ++ x :: l2)%list -> forall y, In y l1 -> R y x.
Proof.
  induction l1 as [|z l1 IH]; simpl; [intros _ y []|].
  inversion 1; subst. intros y [<-|Hy]; [|auto].
  match goal with H : forall y, In y _ -> R _ y |- _ => apply H end.
  apply in_or_app. right. left. reflexivity.
Qed.

Lemma all_pairs_app_r {A} (R : A -> A -> Prop) l1 l2 :
  all_pairs R (l1 ++ l2)%list -> all_pairs R l2.
Proof.
  induction l1 as [|z l1 IH]; simpl; [auto|]. inversion 1; subst. auto.
Qed.

Lemma all_pairs_impl {A} (R R' : A -> A -> Prop) l :
  (forall x y, R x y -> R' x y) -> all_pairs R l -> all_pairs R' l.
Proof. intros H. induction 1; constructor; auto. Qed.

Lemma find_first {A} (f : A -> bool) l x :
  List.find f l = Some x ->
  exists l1 l2, l = (l1 ++ x :: l2)%list /\ f x = true /\
                forall y, In y l1 -> f y = false.
Proof.
  induction l as [|a l IH]; simpl; [discriminate|].
  destruct (f a) eqn:Ea.
  - intros [= <-]. exists [], l. simpl. intuition.
  - intros H. destruct (IH H) as (l1 & l2 & -> & Hx & Hl1).
    exists (a :: l1), l2. simpl. split; [reflexivity|]. split; [exact Hx|].
    intros y [<-|Hy]; auto.
Qed.

Lemma role_leb_total σ x y : role_leb σ x y = true \/ role_leb σ y x = true.
Proof. apply key_leb_total. Qed.

Lemma role_leb_trans σ x y z :
  role_leb σ x y = true -> role_leb σ y z = true -> role_leb σ x z = true.
Proof. apply key_leb_trans. Qed.

Lemma role_leb_refl σ x y : σ x = σ y -> role_leb σ x y = true.
Proof.
  intros E. unfold role_leb. rewrite E.
  destruct (key_leb_total (sort_key (σ y)) (sort_key (σ y))); assumption.
Qed.

Lemma same_body_true σ x y :
  same_body σ x y = true <-> body_name (σ x) = body_name (σ y).
Proof. apply String.eqb_eq. Qed.

Lemma member_term_inv σ r :
  member_term σ r = true ->
  have_primary_roles = false /\
  title (σ r) = Some RoleTitle.COUNCILMEMBER /\
  (exists s, start_datetime (σ r) = Some s) /\
  (exists e, end_datetime (σ r) = Some e).
Proof.
  unfold member_term, _is_councilmember_term. intros H.
  apply andb_true_iff in H as [Hh H].
  apply andb_true_iff in H as [H He]. apply andb_true_iff in H as [Ht Hs].
  apply bool_decide_eq_true in Ht, Hs, He.
  destruct have_primary_roles; [discriminate|]. auto.
Qed.

Lemma In_sorted_member_roles σ roles r :
  In r (sorted_member_roles σ roles) <->
  In r roles /\ member_term σ r = true.
Proof.
  unfold sorted_member_roles. rewrite In_sorted, List.filter_In. tauto.
Qed.

Lemma ascending_sorted_member_roles σ roles :
  ascending (role_leb σ) (sorted_member_roles σ roles).
Proof.
  apply ascending_sorted; [apply role_leb_total|apply role_leb_trans].
Qed.

(** The order of two roles on one body is that of their starts. *)
Lemma role_leb_start σ x y sx sy :
  role_leb σ x y = true -> body_name (σ x) = body_name (σ y) ->
  start_datetime (σ x) = Some sx -> start_datetime (σ y) = Some sy ->
  sx <= sy.
Proof.
  unfold role_leb, sort_key. intros H Hn Hx Hy.
  rewrite Hn, Hx, Hy in H. simpl in H.
  eapply key_leb_same_name. exact H.
Qed.

Lemma role_leb_between σ y p x :
  role_leb σ y p = true -> role_leb σ p x = true ->
  body_name (σ y) = body_name (σ x) -> body_name (σ p) = body_name (σ y).
Proof.
  unfold role_leb, sort_key. intros H1 H2 Hn. rewrite <- Hn in H2.
  eapply key_leb_name_between; eassumption.
Qed.

Lemma set_end_datetime_eq σ r d :
  set_end_datetime σ r d r = with_end_datetime (σ r) d.
Proof.
  unfold set_end_datetime. destruct (decide (r = r)); congruence.
Qed.

Lemma set_end_datetime_ne σ r d r' :
  r' <> r -> set_end_datetime σ r d r' = σ r'.
Proof. unfold set_end_datetime. destruct (decide (r' = r)); congruence. Qed.

Section sweep_facts.
(** The store after the titles are standardized, and the kept roles. *)
Variable σ0 : store.
Variable kept : list loc.

Lemma sweep_invariant_fields done prev σ y :
  sweep_invariant σ0 done prev σ ->
  title (σ y) = title (σ0 y) /\ body (σ y) = body (σ0 y) /\
  start_datetime (σ y) = start_datetime (σ0 y) /\
  external_source_id (σ y) = external_source_id (σ0 y) /\
  (is_Some (end_datetime (σ0 y)) -> is_Some (end_datetime (σ y))).
Proof.
  intros [Ha _]. destruct (Ha y) as [->|(_ & d & ->)]; simpl;
    repeat split; eauto.
Qed.

Lemma sweep_invariant_start : forall x,
  sweep_invariant σ0 [] x σ0.
Proof.
  intros x. split; [auto|].
  constructor; [intros y []|constructor].
Qed.

(** The neighbours are on different bodies: nothing is done. *)
Lemma sweep_skip done prev this rest σ :
  sorted_member_roles σ0 kept = (rev done ++ prev :: this :: rest)%list ->
  sweep_invariant σ0 done prev σ ->
  same_body σ0 prev this = false ->
  sweep_invariant σ0 (prev :: done) this σ.
Proof.
  intros HS [Ha Hb] Hsame.
  pose proof (ascending_sorted_member_roles σ0 kept) as Hasc.
  rewrite HS in Hasc.
  assert (Hpt : role_leb σ0 prev this = true)
    by (eapply (ascending_neighbours (role_leb σ0)); exact Hasc).
  split.
  - intros y. destruct (Ha y) as [H|(H & d & Hd)]; [auto|].
    right. split; [right; exact H|eauto].
  - constructor; [|exact Hb].
    intros y Hy Hn. exfalso.
    assert (Hyp : role_leb σ0 y prev = true).
    { destruct Hy as [<-|Hy]; [apply role_leb_refl; reflexivity|].
      eapply (all_pairs_app_before (fun x y => role_leb σ0 x y = true));
        [exact Hasc|]. apply in_rev in Hy. exact Hy. }
    pose proof (role_leb_between σ0 y prev this Hyp Hpt Hn) as E.
    assert (same_body σ0 prev this = true)
      by (apply same_body_true; congruence).
    congruence.
Qed.

Lemma one_day_pos : 0 < one_day.
Proof. reflexivity. Qed.

(** The neighbours are on one body: the code assigns to the previous
    role itself, as [truncate_previous] does. *)
Lemma sweep_step done prev this rest σ :
  sorted_member_roles σ0 kept = (rev done ++ prev :: this :: rest)%list ->
  sweep_invariant σ0 done prev σ ->
  same_body σ0 prev this = true ->
  end_before σ kept prev this = Ok (truncate_previous σ prev this) /\
  sweep_invariant σ0 (prev :: done) this (truncate_previous σ prev this).
Proof.
  intros HS Hinv Hsame. pose proof Hinv as [Ha Hb].
  apply same_body_true in Hsame.
  pose proof (ascending_sorted_member_roles σ0 kept) as Hasc.
  rewrite HS in Hasc.
  assert (Hpt : role_leb σ0 prev this = true)
    by (eapply (ascending_neighbours (role_leb σ0)); exact Hasc).
  assert (Hprev : In prev kept /\ member_term σ0 prev = true).
  { apply In_sorted_member_roles. rewrite HS.
    apply in_or_app. right. left. reflexivity. }
  assert (Hthis : In this kept /\ member_term σ0 this = true).
  { apply In_sorted_member_roles. rewrite HS.
    apply in_or_app. right. right. left. reflexivity. }
  destruct Hprev as [Hpk Hpm], Hthis as [Htk Htm].
  destruct (member_term_inv _ _ Hpm) as (_ & Hpt' & [sp Hsp] & [ep Hep]).
  destruct (member_term_inv _ _ Htm) as (_ & _ & [st Hst] & _).
  pose proof (role_leb_start σ0 prev this sp st Hpt Hsame Hsp Hst) as Hle.
  destruct (sweep_invariant_fields done prev σ prev Hinv)
    as (_ & _ & _ & _ & Hpe).
  destruct (Hpe (ex_intro _ ep Hep)) as [e He].
  destruct (sweep_invariant_fields done prev σ this Hinv)
    as (_ & _ & Hts & _ & _).
  rewrite Hst in Hts.
  inversion Hb as [|? ? Hb1 Hb2]; subst.
  unfold end_before, truncate_previous. rewrite He, Hts.
  destruct (Z.ltb_spec st e) as [Hlt|Hge].
  - (* an overlap *)
    assert (Hnd : ~ In prev done).
    { intros Hin. specialize (Hb1 prev Hin eq_refl e sp He Hsp). lia. }
    assert (Hσp : σ prev = σ0 prev).
    { destruct (Ha prev) as [H|[H _]]; [exact H|contradiction]. }
    assert (Hidx : roles_index σ kept (σ prev) = Some prev).
    { unfold roles_index.
      destruct (List.find (fun r => bool_decide (σ r = σ prev)) kept)
        as [t|] eqn:Ef.
      2:{ pose proof (List.find_none _ _ Ef prev Hpk) as Hf.
          simpl in Hf. apply bool_decide_eq_false in Hf. congruence. }
      f_equal. destruct (decide (t = prev)) as [E|Hne]; [exact E|].
      exfalso.
      destruct (find_first _ _ _ Ef) as (K1 & K2 & HK & Ht & HK1).
      apply bool_decide_eq_true in Ht.
      assert (Htd : ~ In t done).
      { intros Hin.
        destruct (sweep_invariant_fields done prev σ t Hinv)
          as (_ & Hbt & _).
        assert (Hn : body_name (σ0 t) = body_name (σ0 prev)).
        { unfold body_name. rewrite <- Hbt, Ht, Hσp. reflexivity. }
        assert (Het : end_datetime (σ t) = Some e) by congruence.
        specialize (Hb1 t Hin Hn e sp Het Hsp). lia. }
      assert (Hσt : σ t = σ0 t).
      { destruct (Ha t) as [H|[H _]]; [exact H|contradiction]. }
      assert (E0 : σ0 t = σ0 prev) by congruence.
      assert (Htm' : member_term σ0 t = true).
      { unfold member_term. rewrite E0. exact Hpm. }
      assert (Hin : In t (rev done)).
      { eapply (sorted_stable_before (role_leb σ0)
                  (role_leb_total σ0) (role_leb_trans σ0)
                  (List.filter (member_term σ0) kept)
                  (List.filter (member_term σ0) K1) t
                  (List.filter (member_term σ0) K2)
                  (rev done) prev (this :: rest)).
        - rewrite HK, List.filter_app. simpl. rewrite Htm'. reflexivity.
        - exact HS.
        - rewrite List.filter_In. intros [Hin _].
          specialize (HK1 prev Hin). simpl in HK1.
          apply bool_decide_eq_false in HK1. congruence.
        - exact Hne.
        - unfold same_key.
          rewrite (role_leb_refl σ0 t prev E0).
          rewrite (role_leb_refl σ0 prev t (eq_sym E0)). reflexivity. }
      apply Htd. apply in_rev. exact Hin. }
    rewrite Hidx. split; [reflexivity|].
    split.
    + intros y. destruct (decide (y = prev)) as [->|Hne].
      * right. split; [left; reflexivity|].
        exists (st - one_day). rewrite set_end_datetime_eq, Hσp.
        reflexivity.
      * rewrite set_end_datetime_ne by exact Hne.
        destruct (Ha y) as [H|(H & d & Hd)]; [auto|].
        right. split; [right; exact H|eauto].
    + assert (Hmono : forall x y,
                 ends_before σ0 σ y x ->
                 ends_before σ0
                   (set_end_datetime σ prev (st - one_day)) y x).
      { intros x y H Hn e' s' He' Hs'.
        destruct (decide (y = prev)) as [->|Hne].
        - rewrite set_end_datetime_eq in He'. simpl in He'.
          injection He' as <-.
          specialize (H Hn e s' He Hs'). pose proof one_day_pos. lia.
        - rewrite set_end_datetime_ne in He' by exact Hne.
          exact (H Hn e' s' He' Hs'). }
      constructor.
      * intros y [<-|Hy] Hn e' s' He' Hs'.
        -- rewrite set_end_datetime_eq in He'. simpl in He'.
           injection He' as <-. pose proof one_day_pos.
           assert (s' = st) by congruence. lia.
        -- assert (Hne : y <> prev) by (intros ->; contradiction).
           rewrite set_end_datetime_ne in He' by exact Hne.
           assert (s' = st) by congruence. subst s'.
           assert (Hn' : body_name (σ0 y) = body_name (σ0 prev))
             by congruence.
           specialize (Hb1 y Hy Hn' e' sp He' Hsp). lia.
      * eapply all_pairs_impl; [|exact Hb]. simpl. exact Hmono.
  - (* no overlap *)
    split; [reflexivity|]. split.
    + intros y. destruct (Ha y) as [H|(H & d & Hd)]; [auto|].
      right. split; [right; exact H|eauto].
    + constructor; [|exact Hb].
      intros y [<-|Hy] Hn e' s' He' Hs'.
      * assert (e' = e) by congruence. assert (s' = st) by congruence.
        lia.
      * assert (s' = st) by congruence. subst s'.
        assert (Hn' : body_name (σ0 y) = body_name (σ0 prev))
          by congruence.
        specialize (Hb1 y Hy Hn' e' sp He' Hsp). lia.
Qed.

(** The whole sweep, from any point of the sorted list on. *)
Lemma sweep_flat rest : forall done prev σ,
  sorted_member_roles σ0 kept = (rev done ++ prev :: rest)%list ->
  sweep_invariant σ0 done prev σ ->
  let σ' := truncate_overlaps_flat (same_body σ0) σ (prev :: rest) in
  end_overlaps_flat (same_body σ0) σ kept (prev :: rest) = Ok σ' /\
  exists done' last,
    sorted_member_roles σ0 kept = rev (last :: done') /\
    sweep_invariant σ0 done' last σ'.
Proof.
  induction rest as [|this rest IH]; intros done prev σ HS Hinv.
  - simpl. split; [reflexivity|]. exists done, prev. auto.
  - cbn [truncate_overlaps_flat end_overlaps_flat].
    destruct (same_body σ0 prev this) eqn:Hsame.
    + destruct (sweep_step done prev this rest σ HS Hinv Hsame)
        as [Estep Hinv'].
      rewrite Estep. apply (IH (prev :: done) this); [|exact Hinv'].
      simpl. rewrite <- app_assoc. exact HS.
    + apply (IH (prev :: done) this).
      * simpl. rewrite <- app_assoc. exact HS.
      * eapply sweep_skip; eassumption.
Qed.
End sweep_facts.

(** The sweep of [sanitize_roles] assigns as [truncate_previous] does; only
    ends of member terms change, and afterwards a member term ends no later
    than every member term that follows it on its body. *)
Lemma sweep_correct σ0 kept :
  let by_body := scraped_member_roles_by_body σ0 kept in
  let σ' := truncate_overlaps_by_body σ0 by_body in
  end_overlaps_by_body σ0 kept by_body = Ok σ' /\
  (forall y, σ' y = σ0 y \/
             (In y (sorted_member_roles σ0 kept) /\
              exists d, σ' y = with_end_datetime (σ0 y) d)) /\
  (forall A x B,
      sorted_member_roles σ0 kept = (A ++ x :: B)%list ->
      forall y, In y A -> ends_before σ0 σ' y x).
Proof.
  intros by_body σ'. subst by_body σ'.
  change (scraped_member_roles_by_body σ0 kept)
    with (groupby (same_body σ0) (sorted_member_roles σ0 kept)).
  rewrite end_overlaps_by_body_flat, truncate_overlaps_by_body_flat.
  destruct (sorted_member_roles σ0 kept) as [|x rest] eqn:HS.
  - simpl. split; [reflexivity|]. split; [auto|].
    intros [|? ?] ? ? ?; discriminate.
  - destruct (sweep_flat σ0 kept rest [] x σ0 HS
                (sweep_invariant_start σ0 x))
      as (Hrun & done' & last & HS' & Ha & Hb).
    split; [exact Hrun|]. split.
    + intros y. destruct (Ha y) as [H|(H & Hd)]; [auto|].
      right. split; [|exact Hd].
      rewrite <- HS, HS'. apply in_rev. rewrite rev_involutive.
      right. exact H.
    + intros A z B HAB y Hy.
      assert (E : (last :: done') = (rev B ++ z :: rev A)%list).
      { rewrite <- (rev_involutive (last :: done')), <- HS', HS, HAB.
        rewrite rev_app_distr. simpl. rewrite <- app_assoc. reflexivity. }
      rewrite E in Hb.
      apply all_pairs_app_r in Hb.
      inversion Hb; subst.
      match goal with H : forall y, In y (rev A) -> _ |- _ => apply H end.
      apply in_rev. rewrite rev_involutive. exact Hy.
Qed.

(** ** The shape of a run *)

Lemma member_term_static σ r :
  have_primary_roles = true -> member_term σ r = false.
Proof. intros H. unfold member_term. rewrite H. reflexivity. Qed.

Lemma scraped_member_roles_by_body_static σ kept :
  have_primary_roles = true -> scraped_member_roles_by_body σ kept = [].
Proof.
  intros H.
  change (scraped_member_roles_by_body σ kept)
    with (groupby (same_body σ) (sorted_member_roles σ kept)).
  unfold sorted_member_roles.
  assert (E : List.filter (member_term σ) kept = []).
  { induction kept as [|r l IH]; simpl; [reflexivity|].
    rewrite member_term_static by exact H. exact IH. }
  rewrite E. reflexivity.
Qed.

Lemma sanitize_roles_run roles σ kept :
  kept_roles σ (default [] roles) = Ok kept ->
  let σ0 := standardize_titles σ kept in
  sanitize_roles roles σ
  = Ok (truncate_overlaps_by_body σ0 (scraped_member_roles_by_body σ0 kept),
        Some (kept ++ appended_static_roles)%list).
Proof.
  intros Hk σ0. unfold sanitize_roles, appended_static_roles.
  rewrite Hk. simpl. fold σ0.
  destruct have_primary_roles eqn:Eh.
  - rewrite scraped_member_roles_by_body_static by exact Eh. reflexivity.
  - rewrite app_nil_r.
    destruct (sweep_correct σ0 kept) as (Hrun & _).
    destruct (bool_decide _) eqn:Eb.
    + apply bool_decide_eq_true in Eb.
      destruct (scraped_member_roles_by_body σ0 kept); [|discriminate].
      reflexivity.
    + rewrite Hrun. reflexivity.
Qed.

Lemma sanitize_roles_raise roles σ e :
  kept_roles σ (default [] roles) = Raise e ->
  sanitize_roles roles σ = Raise e.
Proof. intros H. unfold sanitize_roles. rewrite H. reflexivity. Qed.

Lemma sanitize_roles_inv roles σ σ' out :
  sanitize_roles roles σ = Ok (σ', out) ->
  exists kept,
    kept_roles σ (default [] roles) = Ok kept /\
    out = Some (kept ++ appended_static_roles)%list /\
    σ' = truncate_overlaps_by_body (standardize_titles σ kept)
           (scraped_member_roles_by_body (standardize_titles σ kept) kept).
Proof.
  intros H. destruct (kept_roles σ (default [] roles)) as [kept|e] eqn:Hk.
  - rewrite (sanitize_roles_run roles σ kept Hk) in H.
    injection H as <- <-. eauto.
  - rewrite (sanitize_roles_raise roles σ e Hk) in H. discriminate.
Qed.

Lemma sanitize_roles_total roles σ :
  have_primary_roles = false \/ static_periods_known σ ->
  exists σ' out, sanitize_roles roles σ = Ok (σ', Some out).
Proof.
  intros H.
  rewrite (sanitize_roles_run roles σ
             (List.filter (keeps σ) (default [] roles))).
  - eauto.
  - apply kept_roles_total. intros r _.
    apply _is_role_period_ok_total. exact H.
Qed.

(** What a run does to the store. *)
Lemma sanitize_roles_store roles σ σ' kept :
  kept_roles σ (default [] roles) = Ok kept ->
  σ' = truncate_overlaps_by_body (standardize_titles σ kept)
         (scraped_member_roles_by_body (standardize_titles σ kept) kept) ->
  forall r,
    body (σ' r) = body (σ r) /\
    start_datetime (σ' r) = start_datetime (σ r) /\
    external_source_id (σ' r) = external_source_id (σ r) /\
    title (σ' r) = title (standardize_titles σ kept r) /\
    (is_Some (end_datetime (σ r)) -> is_Some (end_datetime (σ' r))) /\
    (have_primary_roles = true ->
     end_datetime (σ' r) = end_datetime (σ r)) /\
    (~ In r kept -> σ' r = σ r).
Proof.
  intros Hk -> r.
  set (σ0 := standardize_titles σ kept).
  destruct (standardize_titles_same σ kept r) as (Hb & Hs & He & Hx).
  fold σ0 in Hb, Hs, He, Hx.
  destruct (sweep_correct σ0 kept) as (_ & Ha & _). simpl in Ha.
  assert (Hstat : have_primary_roles = true ->
            truncate_overlaps_by_body σ0
              (scraped_member_roles_by_body σ0 kept) r = σ0 r).
  { intros Eh. rewrite scraped_member_roles_by_body_static by exact Eh.
    reflexivity. }
  destruct (Ha r) as [E|(Hin & d & E)]; rewrite E; simpl.
  - repeat split; try congruence.
    intros Hn. unfold σ0. apply standardize_titles_notin. exact Hn.
  - repeat split; try congruence.
    + eauto.
    + intros Eh. rewrite <- (Hstat Eh) in He. rewrite E in He. exact He.
    + intros Hn. apply In_sorted_member_roles in Hin. tauto.
Qed.

(** ** The kept roles *)

Lemma kept_roles_has_period σ l kept r :
  kept_roles σ l = Ok kept -> In r kept -> has_period (σ r).
Proof.
  intros Hk Hr. apply (kept_roles_In σ l kept r Hk) in Hr.
  eapply _is_role_period_ok_has_period. apply Hr.
Qed.

Lemma kept_roles_nonprimary σ l kept r :
  kept_roles σ l = Ok kept -> have_primary_roles = true -> In r kept ->
  _is_primary_body (σ r) = false.
Proof.
  intros Hk Eh Hr. apply (kept_roles_In σ l kept r Hk) in Hr.
  destruct Hr as (_ & _ & H). rewrite Eh in H. exact H.
Qed.

Lemma kept_roles_incl σ l kept r :
  kept_roles σ l = Ok kept -> In r kept -> In r l.
Proof. intros Hk Hr. apply (kept_roles_In σ l kept r Hk) in Hr. tauto. Qed.

(** A kept role titled Councilmember has a body with a name and both
    dates: its sort key is read without any default. *)
Lemma councilmember_term_key σ l kept r :
  kept_roles σ l = Ok kept -> In r kept ->
  title (standardize_titles σ kept r) = Some RoleTitle.COUNCILMEMBER ->
  exists b n s e,
    body (standardize_titles σ kept r) = Some b /\ name b = Some n /\
    start_datetime (standardize_titles σ kept r) = Some s /\
    end_datetime (standardize_titles σ kept r) = Some e.
Proof.
  intros Hk Hr Ht.
  pose proof (standardize_titles_councilmember σ kept r Hr Ht) as Hp.
  destruct (kept_roles_has_period σ l kept r Hk Hr) as [[s Hs] [e He]].
  destruct (standardize_titles_same σ kept r) as (Hb & Hs' & He' & _).
  unfold _is_primary_body in Hp.
  destruct (body (σ r)) as [b|] eqn:Eb; [|discriminate].
  destruct (name b) as [n|] eqn:En; [|discriminate].
  exists b, n, s, e. repeat split; congruence.
Qed.

(** ** What the sweep leaves at each role *)

Lemma insert_sorted_Permutation {A} (leb : A -> A -> bool) x l :
  insert_sorted leb x l ≡ₚ x :: l.
Proof.
  induction l as [|y l IH]; simpl; [reflexivity|].
  destruct (leb x y); [reflexivity|].
  rewrite IH. apply Permutation_swap.
Qed.

Lemma sorted_Permutation {A} (leb : A -> A -> bool) l : sorted leb l ≡ₚ l.
Proof.
  induction l as [|x l IH]; simpl; [reflexivity|].
  rewrite insert_sorted_Permutation, IH. reflexivity.
Qed.

Lemma NoDup_List_filter {A} (f : A -> bool) l :
  NoDup l -> NoDup (List.filter f l).
Proof.
  induction 1 as [|x l Hx Hl IH]; simpl; [constructor|].
  destruct (f x); [|exact IH].
  constructor; [|exact IH].
  intros Hin. apply Hx. apply list_elem_of_In.
  apply list_elem_of_In in Hin. apply List.filter_In in Hin. tauto.
Qed.

Lemma truncate_previous_ne σ prev this r :
  r <> prev -> truncate_previous σ prev this r = σ r.
Proof.
  intros Hne. unfold truncate_previous.
  destruct (end_datetime (σ prev)); [|reflexivity].
  destruct (start_datetime (σ this)); [|reflexivity].
  destruct (_ <? _); [|reflexivity].
  apply set_end_datetime_ne. exact Hne.
Qed.

Lemma truncate_previous_eq σ prev this e s :
  end_datetime (σ prev) = Some e -> start_datetime (σ this) = Some s ->
  truncate_previous σ prev this prev
  = if s <? e then with_end_datetime (σ prev) (s - one_day) else σ prev.
Proof.
  intros He Hs. unfold truncate_previous. rewrite He, Hs.
  destruct (s <? e); [apply set_end_datetime_eq|reflexivity].
Qed.

Lemma truncate_overlaps_flat_notin same l : forall σ r,
  ~ In r l -> truncate_overlaps_flat same σ l r = σ r.
Proof.
  induction l as [|p l IH]; intros σ r Hr; [reflexivity|].
  destruct l as [|t l]; [reflexivity|].
  change (truncate_overlaps_flat same σ (p :: t :: l))
    with (truncate_overlaps_flat same
            (if same p t then truncate_previous σ p t else σ) (t :: l)).
  rewrite IH by (intros H; apply Hr; right; exact H).
  destruct (same p t); [|reflexivity].
  apply truncate_previous_ne. intros ->. apply Hr. left. reflexivity.
Qed.

(** Where the objects of the sorted list are all different, the previous
    role of a pair holds after the sweep what the step on that pair
    assigned. *)
Lemma truncate_overlaps_flat_pair same prev this B e s : forall A σ,
  NoDup (A ++ prev :: this :: B)%list ->
  end_datetime (σ prev) = Some e -> start_datetime (σ this) = Some s ->
  truncate_overlaps_flat same σ (A ++ prev :: this :: B)%list prev
  = if same prev this && (s <? e)
    then with_end_datetime (σ prev) (s - one_day) else σ prev.
Proof.
  induction A as [|a A IH]; intros σ Hnd He Hs.
  - simpl app.
    change (truncate_overlaps_flat same σ (prev :: this :: B))
      with (truncate_overlaps_flat same
              (if same prev this then truncate_previous σ prev this else σ)
              (this :: B)).
    apply NoDup_cons in Hnd as [Hp _].
    rewrite truncate_overlaps_flat_notin
      by (intros H; apply Hp, list_elem_of_In; exact H).
    destruct (same prev this); simpl; [|reflexivity].
    apply truncate_previous_eq; assumption.
  - change ((a :: A) ++ prev :: this :: B)%list
      with (a :: (A ++ prev :: this :: B))%list in Hnd |- *.
    apply NoDup_cons in Hnd as [Ha Hnd].
    assert (Hap : a <> prev).
    { intros ->. apply Ha. apply list_elem_of_In, in_or_app.
      right. left. reflexivity. }
    assert (Hat : a <> this).
    { intros ->. apply Ha. apply list_elem_of_In, in_or_app.
      right. right. left. reflexivity. }
    assert (E : exists (x : loc) l, (A ++ prev :: this :: B)%list = x :: l)
      by (destruct A; simpl; eauto).
    destruct E as (x & l & E). rewrite E.
    change (truncate_overlaps_flat same σ (a :: x :: l))
      with (truncate_overlaps_flat same
              (if same a x then truncate_previous σ a x else σ) (x :: l)).
    rewrite <- E.
    set (σ1 := if same a x then truncate_previous σ a x else σ).
    assert (H1 : forall r, r <> a -> σ1 r = σ r).
    { intros r Hr. unfold σ1. destruct (same a x); [|reflexivity].
      apply truncate_previous_ne. exact Hr. }
    rewrite (IH σ1 Hnd).
    + rewrite (H1 prev) by congruence. reflexivity.
    + rewrite (H1 prev) by congruence. exact He.
    + rewrite (H1 this) by congruence. exact Hs.
Qed.

Lemma groupby_pair {A} (same : A -> A -> bool) l : forall g G1 p t G2,
  In g (groupby same l) -> g = (G1 ++ p :: t :: G2)%list ->
  same p t = true /\ exists L1 L2, l = (L1 ++ p :: t :: L2)%list.
Proof.
  induction l as [|x l IH]; intros g G1 p t G2 Hg E; [destruct Hg|].
  destruct l as [|y l].
  - simpl in Hg. destruct Hg as [<-|[]].
    destruct G1 as [|? [|? ?]]; discriminate.
  - destruct (groupby_head same y l) as (g' & gs & Eg).
    change (groupby same (x :: y :: l))
      with (match groupby same (y :: l) with
            | (y0 :: g0) :: gs0 =>
                if same x y0 then (x :: y0 :: g0) :: gs0
                else [x] :: (y0 :: g0) :: gs0
            | _ => [[x]]
            end) in Hg.
    assert (Hrest : In g (groupby same (y :: l)) ->
              same p t = true /\ exists L1 L2, x :: y :: l = (L1 ++ p :: t :: L2)%list).
    { intros H. destruct (IH g G1 p t G2 H E) as (Hs & L1 & L2 & EL).
      split; [exact Hs|]. exists (x :: L1), L2. rewrite EL. reflexivity. }
    rewrite Eg in Hg, Hrest.
    destruct (same x y) eqn:Exy.
    + destruct Hg as [<-|Hg]; [|apply Hrest; right; exact Hg].
      destruct G1 as [|a G1].
      * simpl in E. injection E as -> -> _.
        split; [exact Exy|]. exists [], l. reflexivity.
      * simpl in E. injection E as _ E.
        destruct (IH (y :: g') G1 p t G2) as (Hs & L1 & L2 & EL).
        -- rewrite Eg. left. reflexivity.
        -- exact E.
        -- split; [exact Hs|]. exists (x :: L1), L2. rewrite EL.
           reflexivity.
    + destruct Hg as [<-|Hg]; [|apply Hrest; exact Hg].
      destruct G1 as [|? [|? ?]]; discriminate.
Qed.

Lemma lookup_pair {A} (l : list A) i p t :
  l !! i = Some p -> l !! S i = Some t ->
  l = (take i l ++ p :: t :: drop (S (S i)) l)%list.
Proof.
  intros Hp Ht. rewrite <- (take_drop_middle l i p Hp) at 1.
  f_equal. f_equal. symmetry. 
  rewrite (drop_S l t (S i) Ht). reflexivity.
Qed.

(** ** The claims *)

(** C1, amended.  In the returned list, two roles that come from the
    input, are titled Councilmember and are on bodies of one name, the
    same character for character, do not overlap: when the first starts
    strictly before the second, it ends no later than the second starts.
    The sweep changes ends only: the returned list is the list of kept
    roles (followed by the static roles), none dropped. *)
Theorem sanitize_roles_no_overlap roles σ σ' out :
  sanitize_roles roles σ = Ok (σ', Some out) ->
  exists kept,
    kept_roles σ (default [] roles) = Ok kept /\
    out = (kept ++ appended_static_roles)%list /\
    forall r1 r2,
      In r1 kept -> In r2 kept ->
      title (σ' r1) = Some RoleTitle.COUNCILMEMBER ->
      title (σ' r2) = Some RoleTitle.COUNCILMEMBER ->
      body_name (σ' r1) = body_name (σ' r2) ->
      forall s1 s2,
        start_datetime (σ' r1) = Some s1 ->
        start_datetime (σ' r2) = Some s2 ->
        s1 < s2 ->
        exists e1, end_datetime (σ' r1) = Some e1 /\ e1 <= s2.
Proof.
  intros Hrun. destruct (sanitize_roles_inv _ _ _ _ Hrun)
    as (kept & Hk & [= ->] & Hσ').
  exists kept. split; [exact Hk|]. split; [reflexivity|].
  intros r1 r2 H1 H2 Ht1 Ht2 Hn s1 s2 Hs1 Hs2 Hlt.
  set (σ0 := standardize_titles σ kept) in *.
  pose proof (sanitize_roles_store roles σ σ' kept Hk Hσ') as Hst.
  assert (Hmem : forall r, In r kept ->
            title (σ' r) = Some RoleTitle.COUNCILMEMBER ->
            have_primary_roles = false /\ member_term σ0 r = true).
  { intros r Hr Ht.
    destruct (Hst r) as (_ & _ & _ & Htt & _).
    rewrite Htt in Ht. fold σ0 in Ht.
    pose proof (standardize_titles_councilmember σ kept r Hr Ht) as Hp.
    destruct have_primary_roles eqn:Eh.
    - rewrite (kept_roles_nonprimary σ _ kept r Hk Eh Hr) in Hp.
      discriminate.
    - split; [reflexivity|]. unfold member_term, _is_councilmember_term.
      rewrite Eh. simpl.
      destruct (kept_roles_has_period σ _ kept r Hk Hr) as [Hs He].
      destruct (standardize_titles_same σ kept r) as (_ & Hs' & He' & _).
      fold σ0 in Hs', He'. rewrite <- Hs' in Hs. rewrite <- He' in He.
      rewrite !andb_true_iff, !bool_decide_eq_true. auto. }
  destruct (Hmem r1 H1 Ht1) as [Eh Hm1].
  destruct (Hmem r2 H2 Ht2) as [_ Hm2].
  destruct (sweep_correct σ0 kept) as (_ & Ha & Hbefore).
  simpl in Ha, Hbefore. rewrite <- Hσ' in Ha, Hbefore.
  assert (Hf : forall r, body (σ' r) = body (σ0 r) /\
                         start_datetime (σ' r) = start_datetime (σ0 r)).
  { intros r. destruct (Ha r) as [->|(_ & d & ->)]; auto. }
  assert (Hn0 : body_name (σ0 r1) = body_name (σ0 r2)).
  { unfold body_name in *. destruct (Hf r1) as [<- _].
    destruct (Hf r2) as [<- _]. exact Hn. }
  destruct (Hf r1) as [_ Hs1']. destruct (Hf r2) as [_ Hs2'].
  rewrite Hs1 in Hs1'. rewrite Hs2 in Hs2'.
  destruct (member_term_inv _ _ Hm1) as (_ & _ & _ & [e0 He0]).
  assert (He1 : exists e1, end_datetime (σ' r1) = Some e1).
  { destruct (Ha r1) as [->|(_ & d & ->)]; simpl; eauto. }
  destruct He1 as [e1 He1]. exists e1. split; [exact He1|].
  assert (Hin2 : In r2 (sorted_member_roles σ0 kept))
    by (apply In_sorted_member_roles; auto).
  assert (Hin1 : In r1 (sorted_member_roles σ0 kept))
    by (apply In_sorted_member_roles; auto).
  destruct (in_split _ _ Hin2) as (A & B & HAB).
  rewrite HAB in Hin1. apply in_app_or in Hin1 as [HA|[E|HB]].
  - apply (Hbefore A r2 B HAB r1 HA Hn0 e1 s2 He1). auto.
  - subst r1. assert (s1 = s2) by congruence. lia.
  - pose proof (ascending_sorted_member_roles σ0 kept) as Hasc.
    rewrite HAB in Hasc.
    pose proof (ascending_app_inv (role_leb σ0) A r2 B Hasc r1 HB) as Hle.
    pose proof (role_leb_start σ0 r2 r1 s2 s1 Hle (eq_sym Hn0)
                  (eq_sym Hs2') (eq_sym Hs1')).
    lia.
Qed.

(** C7. The sweep of [sanitize_roles] over the groups of sorted
    Councilmember roles is the pairwise sweep [truncate_overlaps_by_body].
    One step, on a previous and a current role: a previous role that ends
    strictly after the current one starts gets the end
    [current start - one_day], and when it ends at or before the current
    start (equal boundaries included) the store is left as it is.  After
    the run, where the kept objects are all different: for the roles at
    [i] and [i + 1] of a group, both Councilmember terms on one body with
    starts in order, the previous role holds the end
    [current start - one_day] and its other fields as before when it ended
    strictly after the current start, and is as it was before the sweep
    otherwise; the start of the current role is as it was. *)
Theorem sanitize_roles_sweep roles σ σ' out :
  sanitize_roles roles σ = Ok (σ', out) ->
  exists kept,
    kept_roles σ (default [] roles) = Ok kept /\
    let σ0 := standardize_titles σ kept in
    let by_body := scraped_member_roles_by_body σ0 kept in
    end_overlaps_by_body σ0 (kept ++ appended_static_roles)%list by_body
    = Ok σ' /\
    σ' = truncate_overlaps_by_body σ0 by_body /\
    (forall τ prev_role this_role e s,
      end_datetime (τ prev_role) = Some e ->
      start_datetime (τ this_role) = Some s ->
      (s < e ->
       truncate_previous τ prev_role this_role
       = set_end_datetime τ prev_role (s - one_day)) /\
      (e <= s -> truncate_previous τ prev_role this_role = τ)) /\
    (NoDup kept ->
     forall roles_for_body i prev_role this_role,
       In roles_for_body by_body ->
       roles_for_body !! i = Some prev_role ->
       roles_for_body !! S i = Some this_role ->
       exists e s0 s,
         end_datetime (σ prev_role) = Some e /\
         start_datetime (σ prev_role) = Some s0 /\
         start_datetime (σ this_role) = Some s /\
         s0 <= s /\
         body_name (σ prev_role) = body_name (σ this_role) /\
         title (σ' prev_role) = Some RoleTitle.COUNCILMEMBER /\
         title (σ' this_role) = Some RoleTitle.COUNCILMEMBER /\
         start_datetime (σ' this_role) = Some s /\
         (s < e ->
          end_datetime (σ' prev_role) = Some (s - one_day) /\
          σ' prev_role = with_end_datetime (σ0 prev_role) (s - one_day)) /\
         (e <= s ->
          end_datetime (σ' prev_role) = Some e /\
          σ' prev_role = σ0 prev_role)).
Proof.
  intros Hrun. destruct (sanitize_roles_inv _ _ _ _ Hrun)
    as (kept & Hk & _ & Hσ').
  exists kept. split; [exact Hk|]. intros σ0 by_body.
  split; [|split; [exact Hσ'|split]].
  - unfold appended_static_roles. destruct have_primary_roles eqn:Eh.
    + subst by_body σ0. rewrite Hσ'.
      rewrite scraped_member_roles_by_body_static by exact Eh.
      reflexivity.
    + rewrite app_nil_r. rewrite Hσ'. apply sweep_correct.
  - intros τ p t e s He Hs. unfold truncate_previous. rewrite He, Hs.
    split; intros H.
    + destruct (Z.ltb_spec s e); [reflexivity|lia].
    + destruct (Z.ltb_spec s e); [lia|reflexivity].
  - intros Hnd g i p t Hg Hp Ht.
    pose proof (lookup_pair g i p t Hp Ht) as Eg.
    change by_body
      with (groupby (same_body σ0) (sorted_member_roles σ0 kept)) in Hg.
    destruct (groupby_pair _ _ _ _ _ _ _ Hg Eg) as (Hsame & L1 & L2 & EL).
    apply same_body_true in Hsame.
    assert (HndL : NoDup (sorted_member_roles σ0 kept)).
    { unfold sorted_member_roles. rewrite sorted_Permutation.
      apply NoDup_List_filter. exact Hnd. }
    assert (Hmp : member_term σ0 p = true).
    { apply (In_sorted_member_roles σ0 kept p). rewrite EL.
      apply in_or_app. right. left. reflexivity. }
    assert (Hmt : member_term σ0 t = true).
    { apply (In_sorted_member_roles σ0 kept t). rewrite EL.
      apply in_or_app. right. right. left. reflexivity. }
    destruct (member_term_inv _ _ Hmp) as (_ & Htp & [s0 Hs0] & [e He]).
    destruct (member_term_inv _ _ Hmt) as (_ & Htt & [s Hs] & _).
    assert (Hle : s0 <= s).
    { pose proof (ascending_sorted_member_roles σ0 kept) as Hasc.
      rewrite EL in Hasc.
      apply (role_leb_start σ0 p t s0 s); try assumption.
      eapply (ascending_neighbours (role_leb σ0)). exact Hasc. }
    pose proof (sanitize_roles_store roles σ σ' kept Hk Hσ') as Hst.
    destruct (standardize_titles_same σ kept p) as (Hbp & Hsp & Hep & _).
    destruct (standardize_titles_same σ kept t) as (Hbt & Hst' & _).
    fold σ0 in Hbp, Hsp, Hep, Hbt, Hst'.
    assert (E : σ' p = if (s <? e)
                       then with_end_datetime (σ0 p) (s - one_day)
                       else σ0 p).
    { rewrite Hσ'. fold σ0.
      change (scraped_member_roles_by_body σ0 kept)
        with (groupby (same_body σ0) (sorted_member_roles σ0 kept)).
      rewrite truncate_overlaps_by_body_flat, EL.
      rewrite EL in HndL.
      rewrite (truncate_overlaps_flat_pair (same_body σ0) p t L2 e s L1 σ0
                 HndL He Hs).
      assert (Hb : same_body σ0 p t = true)
        by (apply same_body_true; exact Hsame).
      rewrite Hb. reflexivity. }
    exists e, s0, s.
    split; [congruence|]. split; [congruence|]. split; [congruence|].
    split; [exact Hle|].
    split; [unfold body_name in *; rewrite <- Hbp, <- Hbt; exact Hsame|].
    destruct (Hst p) as (_ & _ & _ & Htp' & _).
    destruct (Hst t) as (_ & Hst2 & _ & Htt' & _).
    fold σ0 in Htp', Htt'.
    split; [congruence|]. split; [congruence|]. split; [congruence|].
    split; intros H.
    + destruct (Z.ltb_spec s e); [|lia]. rewrite E. auto.
    + destruct (Z.ltb_spec s e); [lia|]. rewrite E. auto.
Qed.

(** C3, amended.  When the person has static roles, the returned list is
    the kept input roles followed by the static roles.  An input role is
    left out when its body has the name of a declared primary body, that
    is when its simplified lower-cased name is the lower-cased key of an
    entry of [static_data.primary_bodies] (or a default name where none is
    declared); so it is when the name is such a key already in simplified
    form.  No kept role is on such a body, nor titled Councilmember or
    Council President.  The static roles keep their dates and their body,
    and a static role that is not also a kept input role keeps all its
    fields; one that is has its title standardized as a kept role. *)
Theorem sanitize_roles_static_authority roles σ σ' out statics :
  static_roles = Some statics -> statics <> [] ->
  sanitize_roles roles σ = Ok (σ', Some out) ->
  exists kept,
    kept_roles σ (default [] roles) = Ok kept /\
    out = (kept ++ statics)%list /\
    (forall r, In r kept -> In r (default [] roles)) /\
    (forall r, In r (default [] roles) ->
               on_primary_body (σ r) -> ~ In r kept) /\
    (forall sd k r b,
        static_data = Some sd -> is_Some (primary_bodies sd !! k) ->
        str_simplified k = k ->
        In r (default [] roles) ->
        body (σ r) = Some b -> name b = Some k -> ~ In r kept) /\
    (forall r, In r kept ->
               ~ on_primary_body (σ' r) /\
               _is_primary_body (σ' r) = false /\
               title (σ' r) <> Some RoleTitle.COUNCILMEMBER /\
               title (σ' r) <> Some RoleTitle.COUNCILPRESIDENT) /\
    (forall r, In r statics ->
               end_datetime (σ' r) = end_datetime (σ r) /\
               start_datetime (σ' r) = start_datetime (σ r) /\
               body (σ' r) = body (σ r) /\
               external_source_id (σ' r) = external_source_id (σ r) /\
               (~ In r kept -> σ' r = σ r) /\
               (In r kept ->
                exists ρ, title (σ' r) = Some (_fix_nonprimary_title ρ) /\
                          (NoDup kept -> ρ = σ r))).
Proof.
  intros Hstat Hne Hrun.
  assert (Eh : have_primary_roles = true).
  { unfold have_primary_roles. rewrite Hstat.
    apply bool_decide_eq_true. destruct statics; [congruence|simpl; lia]. }
  destruct (sanitize_roles_inv _ _ _ _ Hrun) as (kept & Hk & [= ->] & Hσ').
  pose proof (sanitize_roles_store roles σ σ' kept Hk Hσ') as Hst.
  assert (Hdrop : forall r, on_primary_body (σ r) -> ~ In r kept).
  { intros r Hp Hin. apply _is_primary_body_declared in Hp.
    rewrite (kept_roles_nonprimary σ _ kept r Hk Eh Hin) in Hp.
    discriminate. }
  exists kept. split; [exact Hk|]. split.
  { unfold appended_static_roles. rewrite Eh, Hstat. reflexivity. }
  split; [intros r; apply (kept_roles_incl σ _ kept r Hk)|].
  split; [intros r _; apply Hdrop|].
  split; [|split].
  - intros sd k r b Hsd Hkey Hsimple _ Hb Hn. apply Hdrop.
    exists b, k, k. split; [exact Hb|]. split; [exact Hn|].
    split; [|rewrite Hsimple; reflexivity].
    unfold declared_primary_body. rewrite Hsd.
    destruct (decide (primary_bodies sd = ∅)) as [E|_]; [|exact Hkey].
    rewrite E in Hkey. destruct Hkey as [x Hx].
    rewrite lookup_empty in Hx. discriminate.
  - intros r Hin.
    pose proof (kept_roles_nonprimary σ _ kept r Hk Eh Hin) as Hp.
    assert (Hp' : _is_primary_body (σ' r) = false).
    { rewrite <- Hp. apply _is_primary_body_body. apply Hst. }
    split; [|split; [exact Hp'|]].
    + intros H. apply _is_primary_body_declared in H. congruence.
    + destruct (Hst r) as (_ & _ & _ & -> & _).
      destruct (standardize_titles_nonprimary σ kept r Hin Hp)
        as (ρ & -> & _).
      destruct (_fix_nonprimary_title_not_council ρ).
      split; intros [= E]; contradiction.
  - intros r _. destruct (Hst r) as (Hb & Hs & Hx & Ht & _ & He & Hn).
    split; [auto|]. split; [exact Hs|]. split; [exact Hb|].
    split; [exact Hx|]. split; [exact Hn|].
    intros Hin. rewrite Ht.
    apply standardize_titles_nonprimary; [exact Hin|].
    apply (kept_roles_nonprimary σ _ kept r Hk Eh Hin).
Qed.

(** C4, amended.  Every role of the returned list that comes from the
    input has a start and an end, and an input role that lacks either is
    not among them.  (The static roles are appended as they are.) *)
Theorem sanitize_roles_kept_have_period roles σ σ' out :
  sanitize_roles roles σ = Ok (σ', Some out) ->
  exists kept,
    kept_roles σ (default [] roles) = Ok kept /\
    out = (kept ++ appended_static_roles)%list /\
    (forall r, In r kept -> has_period (σ' r)) /\
    (forall r, start_datetime (σ r) = None \/ end_datetime (σ r) = None ->
               ~ In r kept).
Proof.
  intros Hrun.
  destruct (sanitize_roles_inv _ _ _ _ Hrun) as (kept & Hk & [= ->] & Hσ').
  pose proof (sanitize_roles_store roles σ σ' kept Hk Hσ') as Hst.
  exists kept. split; [exact Hk|]. split; [reflexivity|]. split.
  - intros r Hin.
    destruct (kept_roles_has_period σ _ kept r Hk Hin) as [Hs He].
    destruct (Hst r) as (_ & Hs' & _ & _ & He' & _).
    split; [rewrite Hs'; exact Hs|auto].
  - intros r Hnone Hin.
    destruct (kept_roles_has_period σ _ kept r Hk Hin) as [[s Hs] [e He]].
    destruct Hnone; congruence.
Qed.

(** C6, amended.  A call creates no object and the returned list holds
    the very objects of the input list (kept ones) and of the static data.
    Objects that are not kept are left as they were; of a kept object the
    body, the start and the source id are left as they were, the title is
    overwritten with a canonical title, and the end is overwritten only by
    the sweep, never when the person has static roles. *)
Theorem sanitize_roles_frame roles σ σ' out :
  sanitize_roles roles σ = Ok (σ', Some out) ->
  exists kept,
    out = (kept ++ appended_static_roles)%list /\
    (forall r, In r kept -> In r (default [] roles)) /\
    (forall r, ~ In r kept -> σ' r = σ r) /\
    (forall r, body (σ' r) = body (σ r) /\
               start_datetime (σ' r) = start_datetime (σ r) /\
               external_source_id (σ' r) = external_source_id (σ r)) /\
    (forall r, In r kept ->
               exists t, title (σ' r) = Some t /\
                 In t [RoleTitle.COUNCILMEMBER; RoleTitle.COUNCILPRESIDENT;
                       RoleTitle.VICE_CHAIR; RoleTitle.ALTERNATE;
                       RoleTitle.SUPERVISOR; RoleTitle.CHAIR;
                       RoleTitle.MEMBER]) /\
    (have_primary_roles = true ->
     forall r, end_datetime (σ' r) = end_datetime (σ r)).
Proof.
  intros Hrun.
  destruct (sanitize_roles_inv _ _ _ _ Hrun) as (kept & Hk & [= ->] & Hσ').
  pose proof (sanitize_roles_store roles σ σ' kept Hk Hσ') as Hst.
  exists kept. split; [reflexivity|].
  split; [intros r; apply (kept_roles_incl σ _ kept r Hk)|].
  split; [intros r; apply Hst|].
  split; [intros r; destruct (Hst r) as (? & ? & ? & _); auto|].
  split; [|intros Eh r; apply Hst; exact Eh].
  intros r Hin. destruct (Hst r) as (_ & _ & _ & -> & _).
  destruct (_is_primary_body (σ r)) eqn:Hp.
  - destruct (standardize_titles_primary σ kept r Hin Hp) as (ρ & -> & _).
    eexists. split; [reflexivity|].
    destruct (_fix_primary_title_cases ρ) as [-> | ->]; simpl; auto.
  - destruct (standardize_titles_nonprimary σ kept r Hin Hp)
      as (ρ & -> & _).
    eexists. split; [reflexivity|].
    pose proof (_fix_nonprimary_title_cases ρ) as H. simpl in *. tauto.
Qed.

(** C9. The title of a role on a non-primary body: Member for no title;
    otherwise, on the simplified lower-cased text, in this order, "vice"
    gives Vice Chair, "alt" Alternate, "super" Supervisor, a chair pattern
    Chair, and anything else Member.  It is never Councilmember nor
    Council President; and a kept role on a non-primary body ends with
    such a title, computed from its original title when the role occurs
    once in the list. *)
Theorem nonprimary_title_priority :
  (forall role, title role = None ->
                _fix_nonprimary_title role = RoleTitle.MEMBER) /\
  (forall role t,
      title role = Some t ->
      let role_title := Text.lower (str_simplified t) in
      (Text.contains "vice" role_title = true ->
       _fix_nonprimary_title role = RoleTitle.VICE_CHAIR) /\
      (Text.contains "vice" role_title = false ->
       (Text.contains "alt" role_title = true ->
        _fix_nonprimary_title role = RoleTitle.ALTERNATE) /\
       (Text.contains "alt" role_title = false ->
        (Text.contains "super" role_title = true ->
         _fix_nonprimary_title role = RoleTitle.SUPERVISOR) /\
        (Text.contains "super" role_title = false ->
         (Text.re_search_I (Text.join "|" chair_patterns) role_title = true
          -> _fix_nonprimary_title role = RoleTitle.CHAIR) /\
         (Text.re_search_I (Text.join "|" chair_patterns) role_title = false
          -> _fix_nonprimary_title role = RoleTitle.MEMBER))))) /\
  (forall role,
      _fix_nonprimary_title role <> RoleTitle.COUNCILMEMBER /\
      _fix_nonprimary_title role <> RoleTitle.COUNCILPRESIDENT) /\
  (forall roles σ σ' out,
      sanitize_roles roles σ = Ok (σ', Some out) ->
      exists kept,
        kept_roles σ (default [] roles) = Ok kept /\
        out = (kept ++ appended_static_roles)%list /\
        forall r,
          In r kept -> _is_primary_body (σ r) = false ->
          (exists ρ, title (σ' r) = Some (_fix_nonprimary_title ρ) /\
                     (NoDup kept -> ρ = σ r)) /\
          title (σ' r) <> Some RoleTitle.COUNCILMEMBER /\
          title (σ' r) <> Some RoleTitle.COUNCILPRESIDENT).
Proof.
  split; [|split; [|split]].
  - intros role H. unfold _fix_nonprimary_title. rewrite H. reflexivity.
  - intros role t H role_title. unfold _fix_nonprimary_title. rewrite H.
    fold role_title.
    destruct (Text.contains "vice" role_title);
      [split; [reflexivity|discriminate]|split; [discriminate|intros _]].
    destruct (Text.contains "alt" role_title);
      [split; [reflexivity|discriminate]|split; [discriminate|intros _]].
    destruct (Text.contains "super" role_title);
      [split; [reflexivity|discriminate]|split; [discriminate|intros _]].
    destruct (Text.re_search_I _ role_title);
      split; (reflexivity || discriminate).
  - apply _fix_nonprimary_title_not_council.
  - intros roles σ σ' out Hrun.
    destruct (sanitize_roles_inv _ _ _ _ Hrun)
      as (kept & Hk & [= ->] & Hσ').
    pose proof (sanitize_roles_store roles σ σ' kept Hk Hσ') as Hst.
    exists kept. split; [exact Hk|]. split; [reflexivity|].
    intros r Hin Hp. destruct (Hst r) as (_ & _ & _ & -> & _).
    destruct (standardize_titles_nonprimary σ kept r Hin Hp)
      as (ρ & Ht & Hρ).
    split; [eauto|]. rewrite Ht.
    destruct (_fix_nonprimary_title_not_council ρ).
    split; intros [= E]; contradiction.
Qed.

(** ** A second run *)

Lemma with_title_id ρ t : title ρ = Some t -> with_title ρ t = ρ.
Proof. destruct ρ. simpl. intros ->. reflexivity. Qed.

Lemma with_end_datetime_id ρ d :
  end_datetime ρ = Some d -> with_end_datetime ρ d = ρ.
Proof. destruct ρ. simpl. intros ->. reflexivity. Qed.

Lemma set_title_id σ r t : title (σ r) = Some t -> set_title σ r t = σ.
Proof.
  intros H. apply functional_extensionality. intros r'.
  unfold set_title. destruct (decide (r' = r)) as [->|]; [|reflexivity].
  apply with_title_id. exact H.
Qed.

Lemma standardize_titles_id σ l :
  (forall r, In r l ->
             title (σ r)
             = Some (if _is_primary_body (σ r)
                     then _fix_primary_title (σ r)
                     else _fix_nonprimary_title (σ r))) ->
  standardize_titles σ l = σ.
Proof.
  intros H. unfold standardize_titles.
  assert (H1 : forall l', incl l' l -> fix_primary_titles σ l' = σ).
  { induction l' as [|a l' IH]; intros Hi; [reflexivity|]. simpl.
    assert (Ha : In a l) by (apply Hi; left; reflexivity).
    specialize (H a Ha).
    destruct (_is_primary_body (σ a)).
    - rewrite set_title_id by exact H.
      apply IH. intros x Hx. apply Hi. right. exact Hx.
    - apply IH. intros x Hx. apply Hi. right. exact Hx. }
  rewrite H1 by apply incl_refl.
  assert (H2 : forall l', incl l' l -> fix_nonprimary_titles σ l' = σ).
  { induction l' as [|a l' IH]; intros Hi; [reflexivity|]. simpl.
    assert (Ha : In a l) by (apply Hi; left; reflexivity).
    specialize (H a Ha).
    destruct (_is_primary_body (σ a)).
    - apply IH. intros x Hx. apply Hi. right. exact Hx.
    - rewrite set_title_id by exact H.
      apply IH. intros x Hx. apply Hi. right. exact Hx. }
  apply H2, incl_refl.
Qed.

Lemma filter_all {A} (f : A -> bool) l :
  (forall x, In x l -> f x = true) -> List.filter f l = l.
Proof.
  induction l as [|a l IH]; intros H; [reflexivity|]. simpl.
  rewrite (H a (or_introl eq_refl)), IH; [reflexivity|].
  intros x Hx. apply H. right. exact Hx.
Qed.

Lemma filter_none {A} (f : A -> bool) l :
  (forall x, In x l -> f x = false) -> List.filter f l = [].
Proof.
  induction l as [|a l IH]; intros H; [reflexivity|]. simpl.
  rewrite (H a (or_introl eq_refl)). apply IH.
  intros x Hx. apply H. right. exact Hx.
Qed.

(** C5, amended.  A second run on the output of a first run returns that
    output again, store and list, provided that the classifiers give the
    canonical titles back to themselves (as they do with the default
    patterns), that the first run changed no end, and that every static
    role of the person is on a primary body with both dates.  (A role
    whose end the first run moved is dropped by the second.) *)
Theorem sanitize_roles_idempotent roles σ σ1 out1 :
  canonical_titles_fixed ->
  sanitize_roles roles σ = Ok (σ1, Some out1) ->
  (forall r, end_datetime (σ1 r) = end_datetime (σ r)) ->
  (forall r, In r appended_static_roles ->
             _is_primary_body (σ r) = true /\ has_period (σ r)) ->
  sanitize_roles (Some out1) σ1 = Ok (σ1, Some out1).
Proof.
  intros [Hfixp Hfixn] Hrun Hend Hstat.
  destruct (sanitize_roles_inv _ _ _ _ Hrun) as (kept & Hk & [= ->] & Hσ1).
  pose proof (sanitize_roles_store roles σ σ1 kept Hk Hσ1) as Hst.
  set (σ0 := standardize_titles σ kept) in *.
  (* the sweep of the first run did nothing *)
  assert (E10 : σ1 = σ0).
  { apply functional_extensionality. intros r.
    destruct (sweep_correct σ0 kept) as (_ & Ha & _). simpl in Ha.
    rewrite <- Hσ1 in Ha. destruct (Ha r) as [E|(_ & d & E)]; [exact E|].
    rewrite E. apply with_end_datetime_id.
    destruct (standardize_titles_same σ kept r) as (_ & _ & He & _).
    fold σ0 in He. rewrite He, <- Hend, E. reflexivity. }
  (* the filter keeps the kept roles and drops the static ones *)
  assert (Hk2 : kept_roles σ1 (kept ++ appended_static_roles)%list
                = Ok kept).
  { rewrite (kept_roles_ext σ1 σ).
    2:{ intros r. destruct (Hst r) as (? & ? & _). auto. }
    rewrite kept_roles_total.
    - rewrite List.filter_app, filter_all, filter_none.
      + rewrite app_nil_r. reflexivity.
      + intros r Hr. unfold keeps.
        destruct (Hstat r Hr) as [Hp _]. rewrite Hp.
        unfold appended_static_roles in Hr.
        destruct have_primary_roles; [|destruct Hr].
        destruct (_is_role_period_ok σ (σ r)) as [[]|]; reflexivity.
      + intros r Hr. apply (kept_roles_In σ _ kept r Hk) in Hr.
        destruct Hr as (_ & Hok & Hnp). unfold keeps.
        rewrite Hok, Hnp. reflexivity.
    - intros r Hr. apply in_app_or in Hr as [Hr|Hr].
      + apply (kept_roles_In σ _ kept r Hk) in Hr.
        destruct Hr as (_ & Hok & _). eauto.
      + apply _is_role_period_ok_total.
        unfold appended_static_roles in Hr, Hstat.
        destruct have_primary_roles; [|destruct Hr]. right.
        intros x Hx. apply Hstat. exact Hx. }
  rewrite (sanitize_roles_run (Some (kept ++ appended_static_roles)%list)
             σ1 kept Hk2).
  (* the titles are canonical already *)
  assert (Estd : standardize_titles σ1 kept = σ1).
  { apply standardize_titles_id. intros r Hr. rewrite E10.
    destruct (_is_primary_body (σ0 r)) eqn:Hp.
    - assert (Hp' : _is_primary_body (σ r) = true).
      { rewrite <- Hp. apply _is_primary_body_body. symmetry.
        apply standardize_titles_same. }
      destruct (standardize_titles_primary σ kept r Hr Hp')
        as (ρ & Ht & _).
      fold σ0 in Ht. rewrite Ht. f_equal. symmetry.
      apply (Hfixp (σ0 r) (_fix_primary_title ρ)); [|exact Ht].
      destruct (_fix_primary_title_cases ρ) as [-> | ->]; simpl; auto.
    - assert (Hp' : _is_primary_body (σ r) = false).
      { rewrite <- Hp. apply _is_primary_body_body. symmetry.
        apply standardize_titles_same. }
      destruct (standardize_titles_nonprimary σ kept r Hr Hp')
        as (ρ & Ht & _).
      fold σ0 in Ht. rewrite Ht. f_equal. symmetry.
      apply (Hfixn (σ0 r) (_fix_nonprimary_title ρ)); [|exact Ht].
      apply _fix_nonprimary_title_cases. }
  rewrite Estd. rewrite E10 at 1 2. fold σ0 in Hσ1. rewrite <- Hσ1.
  reflexivity.
Qed.

(** ** Further properties of the sanitizer *)

(** X1. The returned list is the input list with some roles removed, in the
    order of the input, followed by the static roles of the person: nothing
    is reordered and nothing is added but the static roles. *)
Theorem sanitize_roles_keeps_order roles σ σ' out :
  sanitize_roles roles σ = Ok (σ', Some out) ->
  out = (List.filter (keeps σ) (default [] roles)
         ++ appended_static_roles)%list /\
  sublist (List.filter (keeps σ) (default [] roles)) (default [] roles) /\
  (length out <= length (default [] roles)
                 + length appended_static_roles)%nat.
Proof.
  intros Hrun.
  destruct (sanitize_roles_inv _ _ _ _ Hrun) as (kept & Hk & [= ->] & _).
  pose proof (kept_roles_filter _ _ _ Hk) as ->.
  split; [reflexivity|].
  assert (Hsub : forall l, sublist (List.filter (keeps σ) l) l).
  { induction l as [|a l IH]; simpl; [constructor|].
    destruct (keeps σ a); constructor; exact IH. }
  split; [apply Hsub|].
  rewrite length_app. pose proof (sublist_length _ _ (Hsub (default [] roles))).
  lia.
Qed.

(** X2. After a run a kept role is titled Councilmember or Council
    President exactly when its body is a primary body. *)
Theorem sanitize_roles_council_titles roles σ σ' out :
  sanitize_roles roles σ = Ok (σ', Some out) ->
  exists kept,
    kept_roles σ (default [] roles) = Ok kept /\
    out = (kept ++ appended_static_roles)%list /\
    forall r,
      In r kept ->
      (_is_primary_body (σ' r) = true <->
       title (σ' r) = Some RoleTitle.COUNCILMEMBER \/
       title (σ' r) = Some RoleTitle.COUNCILPRESIDENT).
Proof.
  intros Hrun.
  destruct (sanitize_roles_inv _ _ _ _ Hrun) as (kept & Hk & [= ->] & Hσ').
  pose proof (sanitize_roles_store roles σ σ' kept Hk Hσ') as Hst.
  exists kept. split; [exact Hk|]. split; [reflexivity|].
  intros r Hin. destruct (Hst r) as (Hb & _ & _ & Ht & _).
  rewrite (_is_primary_body_body (σ' r) (σ r) Hb), Ht.
  destruct (_is_primary_body (σ r)) eqn:Hp.
  - destruct (standardize_titles_primary σ kept r Hin Hp) as (ρ & -> & _).
    split; [intros _|reflexivity].
    destruct (_fix_primary_title_cases ρ) as [-> | ->]; auto.
  - destruct (standardize_titles_nonprimary σ kept r Hin Hp) as (ρ & -> & _).
    destruct (_fix_nonprimary_title_not_council ρ) as [H1 H2].
    split; [discriminate|]. intros [[= E]|[= E]]; contradiction.
Qed.

(** X4. Which input roles are trusted.  Without static roles every kept
    role was running at the time of the call: it started no later than
    today and its end, as the input gave it, is no earlier than today.  With
    static roles every kept role lies within the window of a static role
    and is on no primary body. *)
Theorem sanitize_roles_trusted_periods roles σ σ' out :
  sanitize_roles roles σ = Ok (σ', Some out) ->
  exists kept,
    kept_roles σ (default [] roles) = Ok kept /\
    out = (kept ++ appended_static_roles)%list /\
    forall r,
      In r kept ->
      exists s e,
        start_datetime (σ r) = Some s /\ end_datetime (σ r) = Some e /\
        start_datetime (σ' r) = Some s /\
        (have_primary_roles = false -> s <= today /\ today <= e) /\
        (have_primary_roles = true ->
         _is_primary_body (σ r) = false /\
         exists static_role,
           In static_role (default [] static_roles) /\
           contains_period σ s e static_role = true).
Proof.
  intros Hrun.
  destruct (sanitize_roles_inv _ _ _ _ Hrun) as (kept & Hk & [= ->] & Hσ').
  pose proof (sanitize_roles_store roles σ σ' kept Hk Hσ') as Hst.
  exists kept. split; [exact Hk|]. split; [reflexivity|].
  intros r Hin.
  pose proof (proj1 (kept_roles_In σ _ kept r Hk) Hin) as (_ & Hok & Hnp).
  destruct (_is_role_period_ok_has_period _ _ Hok) as [[s Hs] [e He]].
  exists s, e. split; [exact Hs|]. split; [exact He|].
  destruct (Hst r) as (_ & Hs' & _). split; [congruence|].
  unfold _is_role_period_ok in Hok. rewrite Hs, He in Hok. split.
  - intros Eh. rewrite Eh in Hok. simpl in Hok. injection Hok as Hok.
    apply andb_true_iff in Hok as [H1 H2]. lia.
  - intros Eh. rewrite Eh in Hok, Hnp. simpl in Hok, Hnp.
    split; [exact Hnp|]. apply coincides_with_static_sound. exact Hok.
Qed.

Lemma titles_closed_after_run roles σ σ' out :
  sanitize_roles roles σ = Ok (σ', Some out) ->
  (forall r, In r appended_static_roles ->
             exists t, title (σ r) = Some t /\ In t role_titles) ->
  forall r, In r out -> exists t, title (σ' r) = Some t /\ In t role_titles.
Proof.
  intros Hrun Hstat r Hr.
  destruct (sanitize_roles_inv _ _ _ _ Hrun) as (kept & Hk & [= ->] & Hσ').
  pose proof (sanitize_roles_store roles σ σ' kept Hk Hσ') as Hst.
  destruct (in_dec Nat.eq_dec r kept) as [Hin|Hn].
  - destruct (Hst r) as (_ & _ & _ & -> & _).
    destruct (_is_primary_body (σ r)) eqn:Hp.
    + destruct (standardize_titles_primary σ kept r Hin Hp) as (ρ & -> & _).
      eexists. split; [reflexivity|].
      destruct (_fix_primary_title_cases ρ) as [-> | ->]; simpl; auto.
    + destruct (standardize_titles_nonprimary σ kept r Hin Hp)
        as (ρ & -> & _).
      eexists. split; [reflexivity|].
      pose proof (_fix_nonprimary_title_cases ρ) as H. simpl in *.
      intuition.
  - apply in_app_or in Hr as [Hr|Hr]; [contradiction|].
    destruct (Hst r) as (_ & _ & _ & _ & _ & _ & E).
    rewrite (E Hn). apply Hstat. exact Hr.
Qed.

(** X5. When the static roles of the person carry titles of [RoleTitle]
    (as the static file parser ensures), every role of the returned list
    does. *)
Theorem sanitize_roles_titles_closed roles σ σ' out :
  sanitize_roles roles σ = Ok (σ', Some out) ->
  (forall r, In r appended_static_roles ->
             exists t, title (σ r) = Some t /\ In t role_titles) ->
  forall r, In r out -> exists t, title (σ' r) = Some t /\ In t role_titles.
Proof. apply titles_closed_after_run. Qed.

Section sweep_moves.
Variable σ0 : store.
Variable kept : list loc.

(** When the sweep meets an overlap, the previous role still has the end
    it came with. *)
Lemma sweep_overlap_fresh done prev this rest σ e s :
  sorted_member_roles σ0 kept = (rev done ++ prev :: this :: rest)%list ->
  sweep_invariant σ0 done prev σ ->
  same_body σ0 prev this = true ->
  end_datetime (σ prev) = Some e -> start_datetime (σ0 this) = Some s ->
  s < e -> σ prev = σ0 prev.
Proof.
  intros HS Hinv Hsame He Hs Hlt. pose proof Hinv as [Ha Hb].
  apply same_body_true in Hsame.
  pose proof (ascending_sorted_member_roles σ0 kept) as Hasc.
  rewrite HS in Hasc.
  assert (Hpt : role_leb σ0 prev this = true)
    by (eapply (ascending_neighbours (role_leb σ0)); exact Hasc).
  assert (Hpm : member_term σ0 prev = true).
  { apply (In_sorted_member_roles σ0 kept prev). rewrite HS.
    apply in_or_app. right. left. reflexivity. }
  destruct (member_term_inv _ _ Hpm) as (_ & _ & [sp Hsp] & _).
  pose proof (role_leb_start σ0 prev this sp s Hpt Hsame Hsp Hs) as Hle.
  destruct (Ha prev) as [E|[Hin _]]; [exact E|].
  inversion Hb as [|? ? Hb1 _]; subst.
  specialize (Hb1 prev Hin eq_refl e sp He Hsp). lia.
Qed.

Lemma sweep_flat_moved rest : forall done prev σ,
  sorted_member_roles σ0 kept = (rev done ++ prev :: rest)%list ->
  sweep_invariant σ0 done prev σ ->
  (forall y, σ y = σ0 y \/ end_moved σ0 σ kept y) ->
  forall y,
    truncate_overlaps_flat (same_body σ0) σ (prev :: rest) y = σ0 y \/
    end_moved σ0 (truncate_overlaps_flat (same_body σ0) σ (prev :: rest))
      kept y.
Proof.
  induction rest as [|this rest IH]; intros done prev σ HS Hinv HJ;
    [exact HJ|].
  cbn [truncate_overlaps_flat].
  assert (HS' : sorted_member_roles σ0 kept
                = (rev (prev :: done) ++ this :: rest)%list)
    by (simpl; rewrite <- app_assoc; exact HS).
  destruct (same_body σ0 prev this) eqn:Hsame.
  - destruct (sweep_step σ0 kept done prev this rest σ HS Hinv Hsame)
      as [_ Hinv'].
    apply (IH (prev :: done) this _ HS' Hinv').
    intros y. unfold truncate_previous.
    destruct (end_datetime (σ prev)) as [e|] eqn:He; [|apply HJ].
    destruct (start_datetime (σ this)) as [s|] eqn:Hs; [|apply HJ].
    destruct (Z.ltb_spec s e) as [Hlt|_]; [|apply HJ].
    destruct (sweep_invariant_fields σ0 done prev σ this Hinv)
      as (_ & _ & Hs0 & _). rewrite Hs in Hs0. symmetry in Hs0.
    pose proof (sweep_overlap_fresh done prev this rest σ e s
                  HS Hinv Hsame He Hs0 Hlt) as Hfresh.
    destruct (decide (y = prev)) as [->|Hne].
    + right. exists this, s, e.
      split; [rewrite HS; apply in_or_app; right; left; reflexivity|].
      split; [rewrite HS; apply in_or_app; right; right; left; reflexivity|].
      split; [apply same_body_true; exact Hsame|].
      split; [congruence|]. split; [exact Hs0|]. split; [exact Hlt|].
      rewrite set_end_datetime_eq, Hfresh. reflexivity.
    + rewrite set_end_datetime_ne by exact Hne.
      destruct (HJ y) as [E|(x & s' & e' & H1 & H2 & H3 & H4 & H5 & H6 & H7)];
        [left; exact E|].
      right. exists x, s', e'. repeat (split; [assumption|]).
      rewrite set_end_datetime_ne by exact Hne. exact H7.
  - apply (IH (prev :: done) this _ HS'); [|exact HJ].
    eapply sweep_skip; eassumption.
Qed.

Lemma sweep_moved y :
  let σ' := truncate_overlaps_by_body σ0
              (scraped_member_roles_by_body σ0 kept) in
  σ' y = σ0 y \/ end_moved σ0 σ' kept y.
Proof.
  intros σ'. subst σ'.
  change (scraped_member_roles_by_body σ0 kept)
    with (groupby (same_body σ0) (sorted_member_roles σ0 kept)).
  rewrite truncate_overlaps_by_body_flat.
  destruct (sorted_member_roles σ0 kept) as [|x rest] eqn:HS;
    [left; reflexivity|].
  rewrite <- HS.
  assert (HS' : sorted_member_roles σ0 kept = (rev [] ++ x :: rest)%list)
    by exact HS.
  rewrite HS at 1 2.
  apply (sweep_flat_moved rest [] x σ0 HS' (sweep_invariant_start σ0 x)).
  intros z. left. reflexivity.
Qed.
End sweep_moves.

(** X3. The sweep only moves ends earlier, and only for a reason: an
    object either keeps its end, or it is a kept Councilmember role that
    ended strictly after the start of another kept Councilmember role on its
    body, and its end is now one day before that start. *)
Theorem sanitize_roles_ends_move_earlier roles σ σ' out :
  sanitize_roles roles σ = Ok (σ', Some out) ->
  forall r,
    end_datetime (σ' r) = end_datetime (σ r) \/
    exists x s e,
      In r out /\ In x out /\
      title (σ' r) = Some RoleTitle.COUNCILMEMBER /\
      title (σ' x) = Some RoleTitle.COUNCILMEMBER /\
      body_name (σ' r) = body_name (σ' x) /\
      end_datetime (σ r) = Some e /\ start_datetime (σ x) = Some s /\
      s < e /\ end_datetime (σ' r) = Some (s - one_day) /\
      s - one_day < e.
Proof.
  intros Hrun r.
  destruct (sanitize_roles_inv _ _ _ _ Hrun) as (kept & Hk & [= ->] & Hσ').
  pose proof (sanitize_roles_store roles σ σ' kept Hk Hσ') as Hst.
  set (σ0 := standardize_titles σ kept) in *.
  destruct (standardize_titles_same σ kept r) as (_ & _ & He0 & _).
  fold σ0 in He0.
  pose proof (sweep_moved σ0 kept r) as Hm. simpl in Hm.
  rewrite <- Hσ' in Hm.
  destruct Hm as [E|(x & s & e & Hr & Hx & Hn & He & Hs & Hlt & E)].
  - left. rewrite E. exact He0.
  - right. exists x, s, e.
    apply In_sorted_member_roles in Hr as [Hrk Hrm].
    apply In_sorted_member_roles in Hx as [Hxk Hxm].
    destruct (member_term_inv _ _ Hrm) as (_ & Htr & _).
    destruct (member_term_inv _ _ Hxm) as (_ & Htx & _).
    destruct (Hst r) as (Hbr & _ & _ & Htr' & _).
    destruct (Hst x) as (Hbx & Hsx & _ & Htx' & _).
    fold σ0 in Htr', Htx'.
    destruct (standardize_titles_same σ kept r) as (Hbr0 & _).
    destruct (standardize_titles_same σ kept x) as (Hbx0 & Hsx0 & _).
    fold σ0 in Hbr0, Hbx0, Hsx0.
    split; [apply in_or_app; left; exact Hrk|].
    split; [apply in_or_app; left; exact Hxk|].
    split; [congruence|]. split; [congruence|].
    split.
    { unfold body_name in *. rewrite Hbr, Hbx, <- Hbr0, <- Hbx0. exact Hn. }
    split; [congruence|]. split; [congruence|]. split; [exact Hlt|].
    split; [rewrite E; reflexivity|]. pose proof one_day_pos. lia.
Qed.

(** X27. The period validator, where it returns.  A role that lacks a start
    or an end is rejected.  Of a role with both dates, the answer without
    static roles of the person says whether today lies in [start, end];
    with static roles it says whether the window of some static role
    contains [start, end], a static role without a start or an end
    containing nothing. *)
Theorem period_validator_answer σ role :
  (start_datetime role = None \/ end_datetime role = None ->
   _is_role_period_ok σ role = Ok false) /\
  (forall s e accepted,
      start_datetime role = Some s -> end_datetime role = Some e ->
      _is_role_period_ok σ role = Ok accepted ->
      (have_primary_roles = false ->
       accepted = bool_decide (s <= today /\ today <= e)) /\
      (have_primary_roles = true ->
       accepted = existsb (contains_period σ s e)
                    (default [] static_roles))).
Proof.
  split.
  - unfold _is_role_period_ok. intros [-> | ->]; [reflexivity|].
    destruct (start_datetime role); reflexivity.
  - intros s e accepted Hs He. unfold _is_role_period_ok. rewrite Hs, He.
    intros H. split.
    + intros Eh. rewrite Eh in H. simpl in H. injection H as <-.
      destruct (Z.leb_spec s today), (Z.leb_spec today e); simpl;
        symmetry; try (apply bool_decide_eq_true; lia);
        apply bool_decide_eq_false; lia.
    + intros Eh. rewrite Eh in H. simpl in H.
      apply coincides_with_static_returns. exact H.
Qed.

(** X28. [sanitize_roles] never returns [None]: what it returns is a list.
    No roles ([None]) are treated as the empty list: the call returns, with
    the store as it was and the static roles of the person alone. *)
Theorem sanitize_roles_never_none :
  (forall roles σ σ' out,
      sanitize_roles roles σ = Ok (σ', out) -> exists l, out = Some l) /\
  (forall σ, sanitize_roles None σ = sanitize_roles (Some []) σ) /\
  (forall σ, sanitize_roles None σ = Ok (σ, Some appended_static_roles)).
Proof.
  split; [|split].
  - intros roles σ σ' out H.
    destruct (sanitize_roles_inv _ _ _ _ H) as (k & _ & -> & _). eauto.
  - intros σ. reflexivity.
  - intros σ. unfold sanitize_roles, appended_static_roles. simpl.
    destruct have_primary_roles; reflexivity.
Qed.

End sanitize_roles.

(** ** Claims about particular arguments *)

Lemma contains_empty (s : string) : Text.contains "" s = true.
Proof. destruct s; reflexivity. Qed.

Lemma re_search_I_no_patterns (s : string) :
  Text.re_search_I (Text.join "|" []) s = true.
Proof.
  unfold Text.re_search_I. simpl. rewrite contains_empty. reflexivity.
Qed.

(** C8, amended.  The patterns of an empty list join to the empty regular
    expression, which the classifiers accept and which is found in every
    title: with no council-president pattern a role with a title is
    classified Council President on a primary body (Councilmember only
    without a title), and with no chair pattern a role whose title has
    none of "vice", "alt", "super" is classified Chair on another body
    (Member only without a title).  These are the titles the kept roles
    have after a run. *)
Theorem empty_patterns_match_every_title
    (str_simplified : string -> string) (today : datetime)
    (person_name : string) (static_data : option ScraperStaticData) :
  (forall role,
      _fix_primary_title str_simplified [] role
      = match title role with
        | Some _ => RoleTitle.COUNCILPRESIDENT
        | None => RoleTitle.COUNCILMEMBER
        end) /\
  (forall role,
      _fix_nonprimary_title str_simplified [] role
      = match title role with
        | Some t =>
            let role_title := Text.lower (str_simplified t) in
            if Text.contains "vice" role_title then RoleTitle.VICE_CHAIR
            else if Text.contains "alt" role_title then RoleTitle.ALTERNATE
            else if Text.contains "super" role_title
                 then RoleTitle.SUPERVISOR
                 else RoleTitle.CHAIR
        | None => RoleTitle.MEMBER
        end) /\
  (forall council_pres_patterns chair_patterns roles σ σ' out,
      sanitize_roles str_simplified today person_name static_data
        council_pres_patterns chair_patterns roles σ = Ok (σ', Some out) ->
      exists kept,
        kept_roles str_simplified today person_name static_data σ
          (default [] roles) = Ok kept /\
        out = (kept ++ appended_static_roles person_name static_data)%list
        /\
        forall r,
          In r kept -> NoDup kept ->
          (council_pres_patterns = [] ->
           _is_primary_body str_simplified static_data (σ r) = true ->
           title (σ' r)
           = Some (_fix_primary_title str_simplified [] (σ r))) /\
          (chair_patterns = [] ->
           _is_primary_body str_simplified static_data (σ r) = false ->
           title (σ' r)
           = Some (_fix_nonprimary_title str_simplified [] (σ r)))).
Proof.
  split; [|split].
  - intros role. unfold _fix_primary_title. destruct (title role); auto.
    rewrite re_search_I_no_patterns. reflexivity.
  - intros role. unfold _fix_nonprimary_title. destruct (title role); auto.
    rewrite re_search_I_no_patterns. reflexivity.
  - intros cpp chp roles σ σ' out Hrun.
    destruct (sanitize_roles_inv _ _ _ _ _ _ _ _ _ _ Hrun)
      as (kept & Hk & [= ->] & Hσ').
    exists kept. split; [exact Hk|]. split; [reflexivity|].
    intros r Hin Hnd.
    destruct (sanitize_roles_store str_simplified today person_name
                static_data cpp chp roles σ σ' kept Hk Hσ' r)
      as (_ & _ & _ & Ht & _).
    rewrite Ht. split.
    + intros -> Hp.
      destruct (standardize_titles_primary str_simplified person_name
                  static_data [] chp σ kept r Hin Hp) as (ρ & Hρ & E).
      rewrite Hρ, (E Hnd). reflexivity.
    + intros -> Hp.
      destruct (standardize_titles_nonprimary str_simplified static_data
                  cpp [] σ kept r Hin Hp) as (ρ & Hρ & E).
      rewrite Hρ, (E Hnd). reflexivity.
Qed.

(** ** Counterexamples to the claims that fail *)

(** C1 as stated fails: roles 0 and 1 are on the council, which is a primary
    body under both spellings of its name, and both end up Councilmember;
    role 0 starts first and still ends after role 1 starts.  The sweep
    sorts and groups on the name as scraped, so the two roles are in two
    groups and are never compared. *)
Lemma no_overlap_counterexample :
  exists σ',
    sanitize_roles Example.str_simplified (Example.day 7) "Jane" None
      default_council_pres_patterns default_chair_patterns
      (Some [0; 1]%nat) Example.two_spellings
    = Ok (σ', Some [0; 1]%nat) /\
    _is_primary_body Example.str_simplified None (σ' 0%nat) = true /\
    _is_primary_body Example.str_simplified None (σ' 1%nat) = true /\
    Text.lower (Example.str_simplified (body_name (σ' 0%nat)))
    = Text.lower (Example.str_simplified (body_name (σ' 1%nat))) /\
    title (σ' 0%nat) = Some RoleTitle.COUNCILMEMBER /\
    title (σ' 1%nat) = Some RoleTitle.COUNCILMEMBER /\
    start_datetime (σ' 0%nat) = Some (Example.day 0) /\
    start_datetime (σ' 1%nat) = Some (Example.day 5) /\
    Example.day 0 < Example.day 5 /\
    end_datetime (σ' 0%nat) = Some (Example.day 10) /\
    Example.day 5 < Example.day 10.
Proof.
  eexists. split; [reflexivity|]. repeat split; reflexivity.
Qed.

(** C3 as stated fails, in two ways.  The static data declares the
    council under a key with two blanks; the scraped role 0 is on that
    body, under that very name, and is returned, retitled Member: the keys
    are lower-cased but not simplified, the name of the role is both.  And
    the static role 8, which the caller also passes among the scraped
    roles, is kept as an input role and retitled, so it is returned twice
    and not as the static data had it. *)
Lemma static_authority_counterexample :
  (exists σ',
      sanitize_roles Example.str_simplified (Example.day 7) "Jane"
        (Some (Example.static_data_two_blanks [5%nat]))
        default_council_pres_patterns default_chair_patterns
        (Some [0%nat]) Example.declared_with_blanks
      = Ok (σ', Some [0; 5]%nat) /\
      static_roles "Jane" (Some (Example.static_data_two_blanks [5%nat]))
      = Some [5%nat] /\
      primary_bodies (Example.static_data_two_blanks [5%nat])
        !! "City  Council" = Some Example.council_two_blanks /\
      body (σ' 0%nat) = Some Example.council_two_blanks /\
      title (σ' 0%nat) = Some RoleTitle.MEMBER) /\
  (exists σ',
      sanitize_roles Example.str_simplified (Example.day 7) "Jane"
        (Some (Example.static_data [8%nat]))
        default_council_pres_patterns default_chair_patterns
        (Some [8%nat]) Example.declared_with_blanks
      = Ok (σ', Some [8; 8]%nat) /\
      static_roles "Jane" (Some (Example.static_data [8%nat]))
      = Some [8%nat] /\
      title (Example.declared_with_blanks 8%nat) = Some "Chairman" /\
      title (σ' 8%nat) = Some RoleTitle.CHAIR).
Proof.
  split; eexists; (split; [reflexivity|]); repeat split; reflexivity.
Qed.

(** C4 as stated fails: a static role without an end is returned. *)
Lemma missing_end_counterexample :
  sanitize_roles Example.str_simplified (Example.day 7) "Jane"
    (Some (Example.static_data [6%nat]))
    default_council_pres_patterns default_chair_patterns
    None Example.with_statics
  = Ok (Example.with_statics, Some [6%nat]) /\
  end_datetime (Example.with_statics 6%nat) = None.
Proof. split; reflexivity. Qed.

(** C5 as stated fails: the first run moves the end of role 0 before today,
    and the second run drops that role. *)
Lemma idempotence_counterexample :
  exists σ1 σ2,
    sanitize_roles Example.str_simplified (Example.day 7) "Jane" None
      default_council_pres_patterns default_chair_patterns
      (Some [0; 1; 2; 3]%nat) Example.scraped
    = Ok (σ1, Some [0; 1; 2]%nat) /\
    sanitize_roles Example.str_simplified (Example.day 7) "Jane" None
      default_council_pres_patterns default_chair_patterns
      (Some [0; 1; 2]%nat) σ1
    = Ok (σ2, Some [1; 2]%nat) /\
    [1; 2]%nat <> [0; 1; 2]%nat.
Proof.
  eexists. eexists. split; [reflexivity|]. split; [reflexivity|].
  discriminate.
Qed.

(** C6 as stated fails: role 0, which the caller holds, has another title
    and another end after the call. *)
Lemma mutation_counterexample :
  exists σ',
    sanitize_roles Example.str_simplified (Example.day 7) "Jane" None
      default_council_pres_patterns default_chair_patterns
      (Some [0; 1; 2; 3]%nat) Example.scraped
    = Ok (σ', Some [0; 1; 2]%nat) /\
    title (Example.scraped 0%nat) = None /\
    title (σ' 0%nat) = Some RoleTitle.COUNCILMEMBER /\
    end_datetime (Example.scraped 0%nat) = Some (Example.day 10) /\
    end_datetime (σ' 0%nat) = Some (Example.day 4).
Proof.
  eexists. split; [reflexivity|]. repeat split; reflexivity.
Qed.

(** C8 as stated fails: with empty pattern lists the council role 1 becomes
    Council President, not Councilmember, and the committee role 2, whose
    title has none of "vice", "alt", "super", becomes Chair, not Member. *)
Lemma empty_patterns_counterexample :
  exists σ',
    sanitize_roles Example.str_simplified (Example.day 7) "Jane" None
      [] [] (Some [0; 1; 2; 3]%nat) Example.scraped
    = Ok (σ', Some [0; 1; 2]%nat) /\
    _is_primary_body Example.str_simplified None (Example.scraped 1%nat)
    = true /\
    title (σ' 1%nat) = Some RoleTitle.COUNCILPRESIDENT /\
    _is_primary_body Example.str_simplified None (Example.scraped 2%nat)
    = false /\
    title (Example.scraped 2%nat) = Some "Secretary" /\
    title (σ' 2%nat) = Some RoleTitle.CHAIR.
Proof.
  eexists. split; [reflexivity|]. repeat split; reflexivity.
Qed.

(** ** A static role without a date

    The validator tests the dates of the scraped role against [None] and
    not those of the static roles, which a static data file may leave out
    as well. *)

(** C2. The static role 5 contains the period of the scraped role 0, so the
    role is to be accepted; the validator, meeting first the static role
    7, which has no start, raises [TypeError]. *)
Lemma period_validator_dateless_static_role :
  static_roles "Jane" (Some (Example.static_data [7; 5]%nat))
  = Some [7; 5]%nat /\
  start_datetime (Example.with_statics 7%nat) = None /\
  start_datetime (Example.with_statics 0%nat) = Some (Example.day 2) /\
  end_datetime (Example.with_statics 0%nat) = Some (Example.day 3) /\
  contains_period Example.with_statics (Example.day 2) (Example.day 3) 5%nat
  = true /\
  _is_role_period_ok (Example.day 7) "Jane"
    (Some (Example.static_data [7; 5]%nat))
    Example.with_statics (Example.with_statics 0%nat)
  = Raise TypeError.
Proof. repeat split; reflexivity. Qed.

(** C10. On the same static roles the call raises [TypeError] out of the
    validator and returns no list. *)
Lemma sanitize_roles_dateless_static_role :
  sanitize_roles Example.str_simplified (Example.day 7) "Jane"
    (Some (Example.static_data [7; 5]%nat))
    default_council_pres_patterns default_chair_patterns
    (Some [0; 1]%nat) Example.with_statics
  = Raise TypeError.
Proof. reflexivity. Qed.

(** ** The theorems at concrete inputs *)

Lemma sanitize_roles_no_overlap_witness :
  let run :=
    sanitize_roles Example.str_simplified (Example.day 7) "Jane" None
      default_council_pres_patterns default_chair_patterns
      (Some [0; 1; 2; 3]%nat) Example.scraped in
  let σ' := returned_store run Example.scraped in
  run = Ok (σ', Some [0; 1; 2]%nat) /\
  exists e1, end_datetime (σ' 0%nat) = Some e1 /\ e1 <= Example.day 5.
Proof.
  intros run σ'.
  assert (Hrun : run = Ok (σ', Some [0; 1; 2]%nat)) by reflexivity.
  split; [exact Hrun|].
  destruct (sanitize_roles_no_overlap _ _ _ _ _ _ _ _ _ _ Hrun)
    as (kept & Hk & _ & H).
  vm_compute in Hk. injection Hk as <-.
  refine (H 0%nat 1%nat _ _ _ _ _ (Example.day 0) (Example.day 5) _ _ _);
    try reflexivity; simpl; auto.
Defined.

Lemma sanitize_roles_sweep_witness :
  let run :=
    sanitize_roles Example.str_simplified (Example.day 7) "Jane" None
      default_council_pres_patterns default_chair_patterns
      (Some [0; 1; 2; 3]%nat) Example.scraped in
  let σ' := returned_store run Example.scraped in
  run = Ok (σ', Some [0; 1; 2]%nat) /\
  end_datetime (Example.scraped 0%nat) = Some (Example.day 10) /\
  start_datetime (Example.scraped 1%nat) = Some (Example.day 5) /\
  end_datetime (σ' 0%nat) = Some (Example.day 5 - one_day).
Proof.
  intros run σ'.
  assert (Hrun : run = Ok (σ', Some [0; 1; 2]%nat)) by reflexivity.
  split; [exact Hrun|]. split; [reflexivity|]. split; [reflexivity|].
  destruct (sanitize_roles_sweep _ _ _ _ _ _ _ _ _ _ Hrun)
    as (kept & Hk & _ & _ & _ & H).
  vm_compute in Hk. injection Hk as <-.
  assert (Hnd : NoDup [0; 1; 2]%nat)
    by (apply NoDup_ListNoDup; repeat constructor; simpl; intuition lia).
  destruct (H Hnd [0; 1]%nat 0%nat 0%nat 1%nat)
    as (e & s0 & s & He & _ & Hs & _ & _ & _ & _ & _ & Hlt & _);
    [left; reflexivity|reflexivity|reflexivity|].
  injection He as <-. injection Hs as <-.
  apply Hlt. reflexivity.
Defined.

Lemma sanitize_roles_static_authority_witness :
  let run :=
    sanitize_roles Example.str_simplified (Example.day 7) "Jane"
      (Some (Example.static_data [5%nat]))
      default_council_pres_patterns default_chair_patterns
      (Some [0; 1]%nat) Example.with_statics in
  let σ' := returned_store run Example.with_statics in
  static_roles "Jane" (Some (Example.static_data [5%nat])) = Some [5%nat] /\
  [5%nat] <> [] /\
  run = Ok (σ', Some [1; 5]%nat) /\
  is_Some (primary_bodies (Example.static_data [5%nat]) !! "City Council") /\
  body (Example.with_statics 0%nat) = Some Example.city_council /\
  ~ In 0%nat [1%nat] /\
  σ' 5%nat = Example.with_statics 5%nat.
Proof.
  intros run σ'.
  assert (Hs : static_roles "Jane" (Some (Example.static_data [5%nat]))
               = Some [5%nat]) by reflexivity.
  assert (Hne : [5%nat] <> []) by discriminate.
  assert (Hrun : run = Ok (σ', Some [1; 5]%nat)) by reflexivity.
  assert (Hkey : is_Some (primary_bodies (Example.static_data [5%nat])
                            !! "City Council"))
    by (exists Example.city_council; reflexivity).
  split; [exact Hs|]. split; [exact Hne|]. split; [exact Hrun|].
  split; [exact Hkey|]. split; [reflexivity|].
  destruct (sanitize_roles_static_authority _ _ _ _ _ _ _ _ _ _ _
              Hs Hne Hrun) as (kept & Hk & _ & _ & _ & Hdrop & _ & H).
  vm_compute in Hk. injection Hk as <-.
  split.
  - apply (Hdrop (Example.static_data [5%nat]) "City Council" 0%nat
             Example.city_council); try reflexivity; [exact Hkey|].
    left. reflexivity.
  - destruct (H 5%nat) as (_ & _ & _ & _ & Hsame & _);
      [left; reflexivity|].
    apply Hsame. intros [E|[]]. discriminate.
Defined.

Lemma sanitize_roles_kept_have_period_witness :
  let run :=
    sanitize_roles Example.str_simplified (Example.day 7) "Jane" None
      default_council_pres_patterns default_chair_patterns
      (Some [0; 1; 2; 3]%nat) Example.scraped in
  let σ' := returned_store run Example.scraped in
  run = Ok (σ', Some [0; 1; 2]%nat) /\ has_period (σ' 2%nat).
Proof.
  intros run σ'.
  assert (Hrun : run = Ok (σ', Some [0; 1; 2]%nat)) by reflexivity.
  split; [exact Hrun|].
  destruct (sanitize_roles_kept_have_period _ _ _ _ _ _ _ _ _ _ Hrun)
    as (kept & Hk & _ & H & _).
  vm_compute in Hk. injection Hk as <-.
  apply H. simpl. auto.
Defined.

Lemma sanitize_roles_frame_witness :
  let run :=
    sanitize_roles Example.str_simplified (Example.day 7) "Jane" None
      default_council_pres_patterns default_chair_patterns
      (Some [0; 1; 2; 3]%nat) Example.scraped in
  let σ' := returned_store run Example.scraped in
  run = Ok (σ', Some [0; 1; 2]%nat) /\
  body (σ' 0%nat) = body (Example.scraped 0%nat) /\
  start_datetime (σ' 0%nat) = start_datetime (Example.scraped 0%nat).
Proof.
  intros run σ'.
  assert (Hrun : run = Ok (σ', Some [0; 1; 2]%nat)) by reflexivity.
  split; [exact Hrun|].
  destruct (sanitize_roles_frame _ _ _ _ _ _ _ _ _ _ Hrun)
    as (kept & _ & _ & _ & H & _).
  destruct (H 0%nat) as (Hb & Hs & _). split; assumption.
Defined.

Lemma nonprimary_title_priority_witness :
  title (Example.role (Some "  Vice   Chair ") Example.transportation
           None None)
  = Some "  Vice   Chair " /\
  Text.contains "vice"
    (Text.lower (Example.str_simplified "  Vice   Chair ")) = true /\
  _fix_nonprimary_title Example.str_simplified default_chair_patterns
    (Example.role (Some "  Vice   Chair ") Example.transportation None None)
  = RoleTitle.VICE_CHAIR.
Proof.
  split; [reflexivity|]. split; [reflexivity|].
  destruct (nonprimary_title_priority Example.str_simplified
              (Example.day 7) "Jane" None
              default_council_pres_patterns default_chair_patterns)
    as (_ & H & _).
  apply (H _ "  Vice   Chair "); reflexivity.
Defined.

Lemma sanitize_roles_idempotent_witness :
  let run :=
    sanitize_roles Example.str_simplified (Example.day 7) "Jane" None
      default_council_pres_patterns default_chair_patterns
      (Some [1; 2; 3]%nat) Example.scraped in
  let σ1 := returned_store run Example.scraped in
  canonical_titles_fixed Example.str_simplified
    default_council_pres_patterns default_chair_patterns /\
  run = Ok (σ1, Some [1; 2]%nat) /\
  (forall r, end_datetime (σ1 r) = end_datetime (Example.scraped r)) /\
  sanitize_roles Example.str_simplified (Example.day 7) "Jane" None
    default_council_pres_patterns default_chair_patterns
    (Some [1; 2]%nat) σ1
  = Ok (σ1, Some [1; 2]%nat).
Proof.
  intros run σ1.
  assert (Hfix : canonical_titles_fixed Example.str_simplified
                   default_council_pres_patterns default_chair_patterns).
  { split.
    - intros ρ t Hin Ht. unfold _fix_primary_title. rewrite Ht.
      destruct Hin as [<-|[<-|[]]]; reflexivity.
    - intros ρ t Hin Ht. unfold _fix_nonprimary_title. rewrite Ht.
      destruct Hin as [<-|[<-|[<-|[<-|[<-|[]]]]]]; reflexivity. }
  assert (Hrun : run = Ok (σ1, Some [1; 2]%nat)) by reflexivity.
  assert (Hend : forall r,
             end_datetime (σ1 r) = end_datetime (Example.scraped r)).
  { intros r. do 4 (destruct r as [|r]; [reflexivity|]). reflexivity. }
  split; [exact Hfix|]. split; [exact Hrun|]. split; [exact Hend|].
  apply (sanitize_roles_idempotent _ _ _ _ _ _ _ _ _ _ Hfix Hrun Hend).
  intros r [].
Defined.

Lemma empty_patterns_match_every_title_witness :
  let run :=
    sanitize_roles Example.str_simplified (Example.day 7) "Jane" None
      [] [] (Some [0; 1; 2; 3]%nat) Example.scraped in
  let σ' := returned_store run Example.scraped in
  run = Ok (σ', Some [0; 1; 2]%nat) /\
  _fix_primary_title Example.str_simplified [] (Example.scraped 1%nat)
  = RoleTitle.COUNCILPRESIDENT /\
  title (σ' 1%nat) = Some RoleTitle.COUNCILPRESIDENT.
Proof.
  intros run σ'.
  assert (Hrun : run = Ok (σ', Some [0; 1; 2]%nat)) by reflexivity.
  destruct (empty_patterns_match_every_title Example.str_simplified
              (Example.day 7) "Jane" None) as (H1 & _ & H3).
  split; [exact Hrun|]. split; [exact (H1 (Example.scraped 1%nat))|].
  destruct (H3 _ _ _ _ _ _ Hrun) as (kept & Hk & _ & H).
  vm_compute in Hk. injection Hk as <-.
  assert (Hnd : NoDup [0; 1; 2]%nat)
    by (apply NoDup_ListNoDup; repeat constructor; simpl; intuition lia).
  destruct (H 1%nat) as [Hp _]; [simpl; auto|exact Hnd|].
  rewrite Hp; reflexivity.
Defined.

(** ** [reduced_list] *)

Lemma filter_nil_iff {A} (f : A -> bool) l :
  List.filter f l = [] <-> forall x, In x l -> f x = false.
Proof.
  induction l as [|a l IH]; simpl; [intuition|].
  destruct (f a) eqn:Ea.
  - split; [discriminate|]. intros H. specialize (H a (or_introl eq_refl)).
    congruence.
  - rewrite IH. split; [intros H x [<-|Hx]; auto|intros H x Hx; auto].
Qed.

(** X6. A list that [reduced_list] returns holds exactly the items of the
    input that are not [None], in the order of the input; and it returns
    [None] exactly when [collapse] is set and no item is left (an empty
    input included). *)
Theorem reduced_list_result {A : Type} (input_list : list (option A))
    (collapse : bool) :
  (forall filtered,
      reduced_list input_list collapse = Some filtered ->
      sublist filtered input_list /\
      (forall item, In item filtered <-> In item input_list /\ item <> None)
      /\ (collapse = true -> filtered <> [])) /\
  (reduced_list input_list collapse = None <->
   collapse = true /\ forall item, In item input_list -> item = None).
Proof.
  unfold reduced_list.
  set (keep := fun item : option A =>
                 match item with None => false | Some _ => true end).
  assert (Hsub : forall l, sublist (List.filter keep l) l).
  { induction l as [|a l IH]; simpl; [constructor|].
    destruct (keep a); constructor; exact IH. }
  assert (Hkeep : forall item, keep item = true <-> item <> None)
    by (intros [x|]; simpl; split; congruence).
  split.
  - intros filtered H.
    destruct (collapse && _) eqn:E; [discriminate|]. injection H as <-.
    split; [apply Hsub|]. split.
    + intros item. rewrite List.filter_In, Hkeep. reflexivity.
    + intros ->. simpl in E. apply bool_decide_eq_false in E.
      intros E'. rewrite E' in E. apply E. reflexivity.
  - split.
    + destruct collapse; simpl; [|discriminate].
      destruct (bool_decide _) eqn:E; [|discriminate]. intros _.
      apply bool_decide_eq_true in E. split; [reflexivity|].
      apply length_zero_iff_nil in E.
      intros item Hin. pose proof (proj1 (filter_nil_iff keep _) E item Hin).
      destruct item; [discriminate|reflexivity].
    + intros [-> H]. simpl.
      assert (E : List.filter keep input_list = []).
      { apply filter_nil_iff. intros x Hx. rewrite (H x Hx). reflexivity. }
      rewrite E. reflexivity.
Qed.

(** X7. Reducing a reduced list changes nothing, and without [collapse]
    the result is always a list. *)
Theorem reduced_list_again {A : Type} (input_list : list (option A))
    (collapse : bool) :
  (forall filtered,
      reduced_list input_list collapse = Some filtered ->
      reduced_list filtered collapse = Some filtered /\
      (length filtered <= length input_list)%nat) /\
  (exists filtered, reduced_list input_list false = Some filtered).
Proof.
  unfold reduced_list.
  set (keep := fun item : option A =>
                 match item with None => false | Some _ => true end).
  split; [|simpl; eauto].
  intros filtered H.
  destruct (collapse && _) eqn:E; [discriminate|]. injection H as <-.
  assert (Hid : List.filter keep (List.filter keep input_list)
                = List.filter keep input_list).
  { apply filter_all. intros x Hx. apply List.filter_In in Hx. tauto. }
  rewrite Hid, E. split; [reflexivity|].
  clear. induction input_list as [|a l IH]; simpl; [lia|].
  destruct (keep a); simpl; lia.
Qed.

(** ** Created objects *)

Lemma alloc_next ρ h : next (snd (alloc ρ h)) = S (next h).
Proof. reflexivity. Qed.

Lemma alloc_old ρ h r :
  (r < next h)%nat -> objects (snd (alloc ρ h)) r = objects h r.
Proof.
  intros H. simpl. case_decide; [lia|reflexivity].
Qed.

Lemma alloc_new ρ h : objects (snd (alloc ρ h)) (fst (alloc ρ h)) = ρ.
Proof. simpl. case_decide; congruence. Qed.

(** What [deepcopy] does to the heap [h0] it starts from ([h] is the heap
    reached so far): old objects are untouched, the copies are new objects
    and carry the values of the originals. *)
Lemma deepcopy_roles_spec (n0 : loc) (h0 : heap) : forall rs memo h rs' h',
  deepcopy_roles memo rs h = (rs', h') ->
  (n0 <= next h)%nat ->
  (forall r, (r < n0)%nat -> objects h r = objects h0 r) ->
  (forall r, In r rs -> (r < n0)%nat) ->
  (forall old new, memo_get memo old = Some new ->
                   (n0 <= new < next h)%nat /\
                   objects h new = objects h0 old) ->
  (next h <= next h')%nat /\
  (forall r, (r < next h)%nat -> objects h' r = objects h r) /\
  Forall2 (fun r r' => (n0 <= r' < next h')%nat /\
                       objects h' r' = objects h0 r) rs rs'.
Proof.
  induction rs as [|r rs IH]; intros memo h rs' h' Hc Hn Hold Hrs Hmemo.
  - simpl in Hc. injection Hc as <- <-. split; [lia|]. split; [auto|constructor].
  - simpl in Hc. destruct (memo_get memo r) as [r1|] eqn:Em.
    + destruct (deepcopy_roles memo rs h) as [rs'' h''] eqn:Er.
      injection Hc as <- <-.
      destruct (IH memo h rs'' h'' Er Hn Hold
                  (fun x Hx => Hrs x (or_intror Hx)) Hmemo)
        as (Hnx & Hobj & Hall).
      split; [exact Hnx|]. split; [exact Hobj|].
      constructor; [|exact Hall].
      destruct (Hmemo r r1 Em) as [Hr1 Hv].
      split; [lia|]. rewrite Hobj by lia. exact Hv.
    + match type of Hc with
      | context [deepcopy_roles ?m rs ?hh] =>
          destruct (deepcopy_roles m rs hh) as [rs'' h''] eqn:Er
      end.
      injection Hc as <- <-.
      change (deepcopy_roles ((r, next h) :: memo) rs
                (snd (alloc (objects h r) h)) = (rs'', h'')) in Er.
      assert (Hr : (r < n0)%nat) by (apply Hrs; left; reflexivity).
      destruct (IH _ _ rs'' h'' Er) as (Hnx & Hobj & Hall).
      * simpl. lia.
      * intros x Hx. rewrite alloc_old by lia. apply Hold. exact Hx.
      * intros x Hx. apply Hrs. right. exact Hx.
      * intros old new. simpl.
        destruct (decide (old = r)) as [->|Hne].
        -- intros [= <-]. split; [lia|].
           case_decide; [|congruence].
           apply Hold. exact Hr.
        -- intros Hm. destruct (Hmemo old new Hm) as [Hnew Hv].
           split; [lia|].
           case_decide; [lia|exact Hv].
      * simpl in Hnx. split; [lia|]. split.
        -- intros x Hx. rewrite Hobj by (simpl; lia).
           apply alloc_old. exact Hx.
        -- constructor; [|exact Hall]. split; [lia|].
           rewrite Hobj by (simpl; lia). simpl.
           case_decide; [|congruence].
           apply Hold. exact Hr.
Qed.

Lemma deepcopy_seat_spec (s : Seat) (h : heap) s' h' :
  deepcopy_seat s h = (s', h') ->
  (forall r, In r (default [] (roles s)) -> (r < next h)%nat) ->
  (next h <= next h')%nat /\
  (forall r, (r < next h)%nat -> objects h' r = objects h r) /\
  (roles s = None <-> roles s' = None) /\
  Forall2 (fun r r' => (next h <= r' < next h')%nat /\
                       objects h' r' = objects h r)
    (default [] (roles s)) (default [] (roles s')).
Proof.
  unfold deepcopy_seat. destruct (roles s) as [rs|] eqn:Ers.
  - destruct (deepcopy_roles [] rs h) as [rs' h1] eqn:Ec.
    intros [= <- <-] Hrs. simpl in *.
    destruct (deepcopy_roles_spec (next h) h rs [] h rs' h1 Ec)
      as (H1 & H2 & H3); auto.
    { intros old new. simpl. discriminate. }
    split; [exact H1|]. split; [exact H2|]. split; [|exact H3].
    split; discriminate.
  - intros [= <- <-] _. rewrite Ers. simpl.
    split; [lia|]. split; [auto|]. split; [tauto|constructor].
Qed.

(** ** [parse_static_person] *)

Lemma dict_get_without k ks d :
  existsb (String.eqb k) ks = false ->
  Py.dict_get k (Py.dict_without ks d) = Py.dict_get k d.
Proof.
  intros Hk. induction d as [|[k' v] d IH]; [reflexivity|].
  unfold Py.dict_without in *. simpl.
  destruct (existsb (String.eqb k') ks) eqn:Ek'; simpl.
  - destruct (String.eqb_spec k k') as [->|_]; [congruence|exact IH].
  - destruct (String.eqb k k'); [reflexivity|exact IH].
Qed.

Lemma dict_get_without_in k ks d :
  existsb (String.eqb k) ks = true ->
  Py.dict_get k (Py.dict_without ks d) = None.
Proof.
  intros Hk. induction d as [|[k' v] d IH]; [reflexivity|].
  unfold Py.dict_without in *. simpl.
  destruct (existsb (String.eqb k') ks) eqn:Ek'; simpl; [exact IH|].
  destruct (String.eqb_spec k k') as [->|_]; [congruence|exact IH].
Qed.

Section parse_static_person_facts.
Variable Person_from_dict : list (string * json) -> Py.outcome Person.
Variable Role_from_dict : list (string * json) -> Py.outcome Role.
Variable Body_from_dict : json -> Py.outcome Body.
Variable primary_bodies : gmap string Body.

(** One turn of the loop leaves everything as it is or appends one new
    object, a role with a title of [RoleTitle] and a body. *)
Lemma parse_static_role_spec role_json seat_roles h seat_roles' h' :
  parse_static_role Role_from_dict Body_from_dict primary_bodies
    role_json seat_roles h = Py.Return (seat_roles', h') ->
  (seat_roles' = seat_roles /\ h' = h) \/
  (exists ρ,
      (decodes_title Role_from_dict ->
       static_role_parsed Body_from_dict primary_bodies ρ) /\
      h' = snd (alloc ρ h) /\
      seat_roles' = Some (default [] seat_roles ++ [next h])%list).
Proof.
  unfold parse_static_role.
  destruct role_json as [| | | |items|d]; try discriminate.
  simpl. destruct (Py.dict_get "body" d) as [body_json|] eqn:Eb;
    [|discriminate].
  simpl.
  destruct (match body_json with
            | JStr body_name => bool_decide (primary_bodies !! body_name = None)
            | _ => false
            end) eqn:Eunknown.
  { intros [= <- <-]. left. auto. }
  destruct (Py.dict_get "title" d) as [title_json|] eqn:Et; [|discriminate].
  simpl. destruct (is_role_title title_json) eqn:Etitle; simpl.
  2:{ intros [= <- <-]. left. auto. }
  destruct title_json as [| | |t| |]; try discriminate.
  simpl in Etitle. apply bool_decide_eq_true in Etitle.
  destruct (Role_from_dict (Py.dict_without ["body"] d)) as [ρ|] eqn:Er;
    [|discriminate].
  simpl.
  match goal with
  | |- context [mbind _ ?m] => destruct m as [b|] eqn:Ebody; [|discriminate]
  end.
  simpl. intros [= <- <-]. right. exists (set_body ρ b).
  split; [|split].
  - intros Hdec.
    assert (Htitle : title ρ = Some t).
    { apply (Hdec _ _ _ Er). rewrite dict_get_without by reflexivity.
      exact Et. }
    exists t, b. simpl. repeat split; auto.
    destruct body_json; eauto.
    left. destruct (primary_bodies !! s) eqn:E; [|discriminate].
    injection Ebody as ->. eauto.
  - reflexivity.
  - destruct seat_roles; reflexivity.
Qed.

Lemma parse_static_roles_spec entries : forall seat_roles h seat_roles' h',
  parse_static_roles Role_from_dict Body_from_dict primary_bodies
    entries seat_roles h = Py.Return (seat_roles', h') ->
  exists parsed,
    default [] seat_roles' = (default [] seat_roles ++ parsed)%list /\
    (parsed = [] -> seat_roles' = seat_roles) /\
    (length parsed <= length entries)%nat /\
    (next h <= next h')%nat /\
    (forall r, (r < next h)%nat -> objects h' r = objects h r) /\
    NoDup parsed /\
    forall r, In r parsed ->
              (next h <= r < next h')%nat /\
              (decodes_title Role_from_dict ->
               static_role_parsed Body_from_dict primary_bodies
                 (objects h' r)).
Proof.
  induction entries as [|role_json entries IH];
    intros seat_roles h seat_roles' h' Hp.
  - simpl in Hp. injection Hp as <- <-. exists [].
    rewrite app_nil_r. split; [reflexivity|]. split; [auto|].
    split; [simpl; lia|]. split; [lia|]. split; [auto|].
    split; [constructor|]. intros r [].
  - simpl in Hp.
    destruct (parse_static_role Role_from_dict Body_from_dict primary_bodies
                role_json seat_roles h) as [[sr1 h1]|] eqn:E1;
      [|discriminate].
    simpl in Hp.
    destruct (IH sr1 h1 seat_roles' h' Hp)
      as (parsed & Hl & Hnil & Hlen & Hnx & Hobj & Hnd & Hall).
    destruct (parse_static_role_spec _ _ _ _ _ E1)
      as [[-> ->]|(ρ & Hρ & -> & ->)].
    + exists parsed. simpl. split; [exact Hl|]. split; [exact Hnil|].
      split; [lia|]. split; [exact Hnx|]. split; [exact Hobj|].
      split; [exact Hnd|exact Hall].
    + simpl in *. exists (next h :: parsed).
      split; [rewrite Hl, <- app_assoc; reflexivity|].
      split; [discriminate|]. split; [simpl; lia|]. split; [lia|].
      split.
      { intros x Hx. rewrite Hobj by lia. case_decide; [lia|reflexivity]. }
      split.
      { constructor; [|exact Hnd]. intros Hin. apply list_elem_of_In in Hin.
        destruct (Hall _ Hin). lia. }
      intros x [<-|Hx].
      * split; [lia|]. rewrite Hobj by lia. case_decide; [exact Hρ|congruence].
      * destruct (Hall x Hx). split; [lia|assumption].
Qed.
End parse_static_person_facts.

Section parse_static_person_theorems.
Variable Person_from_dict : list (string * json) -> Py.outcome Person.
Variable Role_from_dict : list (string * json) -> Py.outcome Role.
Variable Body_from_dict : json -> Py.outcome Body.

Lemma parse_static_person_known_seat person_json all_seats primary_bodies
    h person h' s template :
  Py.dict_get "seat" person_json = Some (JStr s) ->
  all_seats !! s = Some template ->
  (forall r, In r (default [] (roles template)) -> (r < next h)%nat) ->
  parse_static_person Person_from_dict Role_from_dict Body_from_dict
    person_json all_seats primary_bodies h = Py.Return (person, h') ->
  exists person_seat copies parsed,
    seat person = Some person_seat /\
    default [] (roles person_seat) = (copies ++ parsed)%list /\
    Forall2 (fun r r' => (next h <= r' < next h')%nat /\
                         objects h' r' = objects h r)
      (default [] (roles template)) copies /\
    (next h <= next h')%nat /\
    (forall r, (r < next h)%nat -> objects h' r = objects h r) /\
    NoDup parsed /\
    forall r, In r parsed ->
              (next h <= r < next h')%nat /\
              (decodes_title Role_from_dict ->
               static_role_parsed Body_from_dict primary_bodies
                 (objects h' r)).
Proof.
  intros Hseat Hknown Hwf. unfold parse_static_person.
  destruct (Py.subscript (JDict person_json) "name"); [|discriminate].
  simpl.
  destruct (Person_from_dict _) as [person0|]; [|discriminate].
  simpl. rewrite Hseat. simpl. rewrite Hknown.
  destruct (deepcopy_seat template h) as [person_seat h1] eqn:Ecopy.
  destruct (deepcopy_seat_spec _ _ _ _ Ecopy Hwf) as (Hn1 & Hobj1 & _ & Hc).
  destruct (Py.dict_get "roles" person_json) as [roles_json|].
  - destruct (Py.iterate roles_json) as [entries|]; [|discriminate].
    simpl.
    destruct (parse_static_roles Role_from_dict Body_from_dict
                primary_bodies entries (roles person_seat) h1)
      as [[seat_roles h2]|] eqn:Ep; [|discriminate].
    simpl. intros [= <- <-].
    destruct (parse_static_roles_spec _ _ _ _ _ _ _ _ Ep)
      as (parsed & Hl & _ & _ & Hn2 & Hobj2 & Hnd & Hall).
    exists {| roles := seat_roles |}, (default [] (roles person_seat)), parsed.
    split; [reflexivity|]. split; [exact Hl|]. split.
    { eapply Forall2_impl; [exact Hc|]. simpl. intros r r' [Hr Hv].
      split; [lia|]. rewrite Hobj2 by lia. exact Hv. }
    split; [lia|]. split.
    { intros r Hr. rewrite Hobj2 by lia. apply Hobj1. exact Hr. }
    split; [exact Hnd|].
    intros r Hr. destruct (Hall r Hr). split; [lia|assumption].
  - intros [= <- <-].
    exists person_seat, (default [] (roles person_seat)), [].
    split; [reflexivity|]. split; [rewrite app_nil_r; reflexivity|].
    split; [exact Hc|]. split; [exact Hn1|]. split; [exact Hobj1|].
    split; [constructor|]. intros r [].
Qed.

(** X8. The roles of a parsed person's seat are copies of the roles the
    seat was defined with, followed by roles read from the person's entries;
    with a [Role.from_dict] that keeps the title, each of the latter has a
    title of [RoleTitle] and a body that is a primary body of the file or
    was decoded from the entry.  There are no more of them than entries. *)
Theorem parse_static_person_roles person_json all_seats primary_bodies
    h person h' s template :
  decodes_title Role_from_dict ->
  Py.dict_get "seat" person_json = Some (JStr s) ->
  all_seats !! s = Some template ->
  (forall r, In r (default [] (roles template)) -> (r < next h)%nat) ->
  parse_static_person Person_from_dict Role_from_dict Body_from_dict
    person_json all_seats primary_bodies h = Py.Return (person, h') ->
  exists person_seat copies parsed,
    seat person = Some person_seat /\
    default [] (roles person_seat) = (copies ++ parsed)%list /\
    Forall2 (fun r r' => objects h' r' = objects h r)
      (default [] (roles template)) copies /\
    forall r, In r parsed ->
              static_role_parsed Body_from_dict primary_bodies
                (objects h' r).
Proof.
  intros Hdec Hseat Hknown Hwf Hp.
  destruct (parse_static_person_known_seat _ _ _ _ _ _ _ _
              Hseat Hknown Hwf Hp)
    as (ps & copies & parsed & H1 & H2 & H3 & _ & _ & _ & H4).
  exists ps, copies, parsed. split; [exact H1|]. split; [exact H2|].
  split.
  - eapply Forall2_impl; [exact H3|]. simpl. tauto.
  - intros r Hr. apply (H4 r Hr). exact Hdec.
Qed.

(** X9. Parsing a person changes no object that exists: the seats of
    [all_seats] and their roles are as before.  The roles of the person's
    seat are all new objects, so no role is shared with [all_seats] or with
    a person parsed before. *)
Theorem parse_static_person_fresh person_json all_seats primary_bodies
    h person h' :
  (forall s template r,
      all_seats !! s = Some template ->
      In r (default [] (roles template)) -> (r < next h)%nat) ->
  parse_static_person Person_from_dict Role_from_dict Body_from_dict
    person_json all_seats primary_bodies h = Py.Return (person, h') ->
  (next h <= next h')%nat /\
  (forall r, (r < next h)%nat -> objects h' r = objects h r) /\
  forall s template,
    Py.dict_get "seat" person_json = Some (JStr s) ->
    all_seats !! s = Some template ->
    exists person_seat,
      seat person = Some person_seat /\
      forall r, In r (default [] (roles person_seat)) ->
                (next h <= r < next h')%nat.
Proof.
  intros Hwf Hp.
  assert (Hcase :
    (exists s template, Py.dict_get "seat" person_json = Some (JStr s) /\
                        all_seats !! s = Some template) \/ h' = h).
  { revert Hp. unfold parse_static_person.
    destruct (Py.subscript (JDict person_json) "name"); [|discriminate].
    simpl. destruct (Person_from_dict _) as [person0|]; [|discriminate].
    simpl.
    destruct (Py.dict_get "seat" person_json) as [seat_name|];
      [|intros [= _ <-]; auto].
    destruct seat_name as [| | |s| |]; simpl;
      try discriminate; try (intros [= _ <-]; auto).
    destruct (all_seats !! s) as [template|] eqn:E;
      [eauto|intros [= _ <-]; auto]. }
  destruct Hcase as [(s & template & Hseat & Hknown)| ->].
  - destruct (parse_static_person_known_seat _ _ _ _ _ _ _ _
                Hseat Hknown (fun r => Hwf s template r Hknown) Hp)
      as (ps & copies & parsed & H1 & H2 & H3 & H4 & H5 & _ & H6).
    split; [exact H4|]. split; [exact H5|].
    intros s' template' Hseat' Hknown'.
    exists ps. split; [exact H1|]. intros r Hr. rewrite H2 in Hr.
    apply in_app_or in Hr as [Hr|Hr]; [|apply H6; exact Hr].
    clear -H3 Hr. induction H3 as [|? ? ? ? [Hx _] _ IH];
      [destruct Hr|]. destruct Hr as [<-|Hr]; auto.
  - split; [lia|]. split; [auto|].
    intros s template Hseat Hknown.
    destruct (parse_static_person_known_seat _ _ _ _ _ _ _ _
                Hseat Hknown (fun r => Hwf s template r Hknown) Hp)
      as (ps & copies & parsed & H1 & H2 & H3 & _ & _ & _ & H6).
    exists ps. split; [exact H1|]. intros r Hr. rewrite H2 in Hr.
    apply in_app_or in Hr as [Hr|Hr]; [|apply H6; exact Hr].
    clear -H3 Hr. induction H3 as [|? ? ? ? [Hx _] _ IH];
      [destruct Hr|]. destruct Hr as [<-|Hr]; auto.
Qed.
End parse_static_person_theorems.

Section parse_static_person_use.
Variable Person_from_dict : list (string * json) -> Py.outcome Person.
Variable Role_from_dict : list (string * json) -> Py.outcome Role.
Variable Body_from_dict : json -> Py.outcome Body.

(** X10. A person whose entry has no seat, or names a seat that is not
    defined, is returned as [Person.from_dict] made it and no object is
    created, whatever the entry says under "roles"; when [Person.from_dict]
    gives no seat to an entry without one, static data with this person
    declares no static roles for it. *)
Theorem parse_static_person_without_seat person_json all_seats
    primary_bodies h person h' :
  (forall d p, Py.dict_get "seat" d = None ->
               Person_from_dict d = Py.Return p -> seat p = None) ->
  (Py.dict_get "seat" person_json = None \/
   exists s, Py.dict_get "seat" person_json = Some (JStr s) /\
             all_seats !! s = None) ->
  parse_static_person Person_from_dict Role_from_dict Body_from_dict
    person_json all_seats primary_bodies h = Py.Return (person, h') ->
  h' = h /\
  Person_from_dict (Py.dict_without ["seat"; "roles"] person_json)
  = Py.Return person /\
  forall person_name bodies others,
    have_primary_roles person_name
      (Some {| primary_bodies := bodies;
               persons := <[person_name := person]> others |}) = false.
Proof.
  intros Hdefault Hseat. unfold parse_static_person.
  destruct (Py.subscript (JDict person_json) "name"); [|discriminate].
  simpl.
  destruct (Person_from_dict _) as [person0|] eqn:Ep; [|discriminate].
  simpl.
  assert (Hnone : seat person0 = None).
  { apply (Hdefault _ _
             (dict_get_without_in "seat" ["seat"; "roles"] person_json
                eq_refl) Ep). }
  assert (Hres : forall p, p = person0 ->
            forall person_name bodies others,
              have_primary_roles person_name
                (Some {| primary_bodies := bodies;
                         persons := <[person_name := p]> others |}) = false).
  { intros p -> person_name bodies others.
    unfold have_primary_roles, static_roles. simpl.
    rewrite lookup_insert_eq. simpl. rewrite Hnone. reflexivity. }
  destruct Hseat as [->|(s & -> & Hs)].
  - intros [= <- <-]. auto.
  - simpl. rewrite Hs. intros [= <- <-]. auto.
Qed.

Lemma parse_static_roles_entries primary_bodies entries :
  forall seat_roles h res,
    parse_static_roles Role_from_dict Body_from_dict primary_bodies
      entries seat_roles h = Py.Return res ->
    forall role_json,
      In role_json entries ->
      exists d body_json,
        role_json = JDict d /\ Py.dict_get "body" d = Some body_json /\
        ((exists body_name, body_json = JStr body_name /\
                            primary_bodies !! body_name = None) \/
         exists title_json, Py.dict_get "title" d = Some title_json).
Proof.
  induction entries as [|e entries IH]; intros seat_roles h res Hp role_json;
    [intros []|].
  simpl in Hp.
  destruct (parse_static_role Role_from_dict Body_from_dict primary_bodies
              e seat_roles h) as [[sr1 h1]|] eqn:E1; [|discriminate].
  simpl in Hp. intros [<-|Hin]; [|eapply IH; eassumption].
  clear -E1. unfold parse_static_role in E1.
  destruct e as [| | | |items|d]; try discriminate.
  simpl in E1. destruct (Py.dict_get "body" d) as [body_json|] eqn:Eb;
    [|discriminate].
  exists d, body_json. split; [reflexivity|]. split; [exact Eb|].
  simpl in E1.
  destruct body_json as [| | |body_name| |];
    try (right; destruct (Py.dict_get "title" d);
         [eauto|simpl in E1; discriminate]).
  destruct (primary_bodies !! body_name) eqn:Ek.
  - right. simpl in E1. destruct (Py.dict_get "title" d);
      [eauto|simpl in E1; discriminate].
  - left. eauto.
Qed.

(** X11. Entries that are not well formed are not skipped, they make the
    call fail: when [parse_static_person] returns, the person has a
    "name"; and for a person with a defined seat and a "roles" value, that
    value can be iterated and every item is a dict with a "body", and with
    a "title" as well unless the body is the name of a body that is not a
    primary body of the file. *)
Theorem parse_static_person_returns person_json all_seats primary_bodies
    h person h' :
  parse_static_person Person_from_dict Role_from_dict Body_from_dict
    person_json all_seats primary_bodies h = Py.Return (person, h') ->
  (exists n, Py.dict_get "name" person_json = Some n) /\
  forall s template roles_json,
    Py.dict_get "seat" person_json = Some (JStr s) ->
    all_seats !! s = Some template ->
    Py.dict_get "roles" person_json = Some roles_json ->
    exists entries,
      Py.iterate roles_json = Py.Return entries /\
      forall role_json,
        In role_json entries ->
        exists d body_json,
          role_json = JDict d /\ Py.dict_get "body" d = Some body_json /\
          ((exists body_name, body_json = JStr body_name /\
                              primary_bodies !! body_name = None) \/
           exists title_json, Py.dict_get "title" d = Some title_json).
Proof.
  unfold parse_static_person. simpl.
  destruct (Py.dict_get "name" person_json) as [n|]; [|discriminate].
  simpl.
  destruct (Person_from_dict _) as [person0|]; [|discriminate].
  simpl. intros Hp. split; [eauto|].
  intros s template roles_json Hseat Hknown Hroles.
  rewrite Hseat in Hp. simpl in Hp. rewrite Hknown in Hp.
  destruct (deepcopy_seat template h) as [person_seat h1].
  rewrite Hroles in Hp.
  destruct (Py.iterate roles_json) as [entries|]; [|discriminate].
  exists entries. split; [reflexivity|]. simpl in Hp.
  destruct (parse_static_roles Role_from_dict Body_from_dict
              primary_bodies entries (roles person_seat) h1)
    as [res|] eqn:Ep; [|discriminate].
  eapply parse_static_roles_entries. exact Ep.
Qed.

(** X12. Static roles read by [parse_static_person] for a seat that was
    defined without roles keep the titles of a sanitized list within
    [RoleTitle]: with static data that holds the parsed person, every role
    [sanitize_roles] returns for that person has a title of [RoleTitle]. *)
Theorem parsed_static_roles_keep_titles_closed person_json all_seats
    file_bodies h person h' s template
    str_simplified today person_name bodies others
    council_pres_patterns chair_patterns scraped σ' out :
  decodes_title Role_from_dict ->
  Py.dict_get "seat" person_json = Some (JStr s) ->
  all_seats !! s = Some template ->
  default [] (roles template) = [] ->
  parse_static_person Person_from_dict Role_from_dict Body_from_dict
    person_json all_seats file_bodies h = Py.Return (person, h') ->
  sanitize_roles str_simplified today person_name
    (Some {| primary_bodies := bodies;
             persons := <[person_name := person]> others |})
    council_pres_patterns chair_patterns scraped (objects h')
  = Ok (σ', Some out) ->
  forall r, In r out -> exists t, title (σ' r) = Some t /\ In t role_titles.
Proof.
  intros Hdec Hseat Hknown Hnone Hp Hrun.
  destruct (parse_static_person_roles Person_from_dict Role_from_dict
              Body_from_dict _ _ _ _ _ _ _ _ Hdec Hseat Hknown
              ltac:(rewrite Hnone; intros r []) Hp)
    as (ps & copies & parsed & H1 & H2 & H3 & H4).
  rewrite Hnone in H3. inversion H3; subst. simpl in H2.
  eapply titles_closed_after_run; [exact Hrun|].
  intros r Hr. unfold appended_static_roles, have_primary_roles, static_roles
    in Hr. simpl in Hr. rewrite lookup_insert_eq in Hr. simpl in Hr.
  rewrite H1 in Hr. simpl in Hr.
  assert (Hin : In r parsed).
  { destruct (roles ps) as [rs|]; simpl in *; subst;
      [|destruct Hr]. destruct (bool_decide _); [exact Hr|destruct Hr]. }
  destruct (H4 r Hin) as (t & b & Ht & Hrt & _). eauto.
Qed.
End parse_static_person_use.


(** ** The Legistar client *)

Lemma dict_get_set k v d : Py.dict_get k (Py.dict_set k v d) = Some v.
Proof.
  induction d as [|[k' v'] d IH]; simpl.
  - rewrite String.eqb_refl. reflexivity.
  - destruct (String.eqb k k') eqn:E; simpl.
    + rewrite String.eqb_refl. reflexivity.
    + rewrite E. exact IH.
Qed.

Lemma dict_get_set_ne k k' v d :
  k' <> k -> Py.dict_get k' (Py.dict_set k v d) = Py.dict_get k' d.
Proof.
  intros Hne. induction d as [|[k1 v1] d IH]; simpl.
  - destruct (String.eqb_spec k' k); [contradiction|reflexivity].
  - destruct (String.eqb_spec k k1) as [->|Hk]; simpl.
    + destruct (String.eqb_spec k' k1); [contradiction|reflexivity].
    + rewrite IH. reflexivity.
Qed.

Section legistar_facts.
Variable World : Type.
Variable requests_get :
  string -> World -> Py.outcome Legistar.response * World.
Variable repr : json -> string.

#[local] Abbreviation state := (Legistar.state World).
#[local] Abbreviation get_legistar_body :=
  (Legistar.get_legistar_body World requests_get repr).
#[local] Abbreviation get_legistar_person :=
  (Legistar.get_legistar_person World requests_get repr).
#[local] Abbreviation attach_bodies :=
  (Legistar.attach_bodies World requests_get repr).
#[local] Abbreviation attach_bodies_in :=
  (Legistar.attach_bodies_in World requests_get repr).
#[local] Abbreviation bodies := (Legistar.known_legistar_bodies World).
#[local] Abbreviation persons := (Legistar.known_legistar_persons World).
#[local] Abbreviation world := (Legistar.world World).
#[local] Abbreviation caches_kept := (Legistar.caches_kept World).
#[local] Abbreviation world_only := (Legistar.world_only World).

Lemma caches_kept_refl st : caches_kept st st.
Proof. split; reflexivity. Qed.

Lemma caches_kept_trans st1 st2 st3 :
  caches_kept st1 st2 -> caches_kept st2 st3 -> caches_kept st1 st3.
Proof. intros [? ?] [? ?]. split; etrans; eassumption. Qed.

Lemma request_post url (st : state) res st' :
  Legistar.request World requests_get url st = (res, st') ->
  persons st' = persons st /\ bodies st' = bodies st /\
  (res, world st') = requests_get url (world st).
Proof.
  unfold Legistar.request.
  destruct (requests_get url (world st)) as [r w].
  intros [= <- <-]. simpl. auto.
Qed.

Ltac four :=
  (split; [|split; [|split]]);
  try done; try reflexivity; try (intros; discriminate); try assumption.

(** What a call of [get_legistar_body] leaves: the cache of persons is
    not touched, the cache of bodies only grows, and with [use_cache] a
    body that is returned is in the cache afterwards. *)
Lemma get_legistar_body_post client body_id use_cache (st : state) res st' :
  get_legistar_body client body_id use_cache st = (res, st') ->
  persons st' = persons st /\
  bodies st ⊆ bodies st' /\
  (use_cache = false -> bodies st' = bodies st) /\
  (use_cache = true ->
   forall body, res = Py.Return body ->
                exists k, Legistar.key_of body_id = Some k /\
                          bodies st' !! k = Some body).
Proof.
  unfold Legistar.get_legistar_body, Legistar.bind.
  destruct use_cache.
  - unfold Legistar.cached, Legistar.remember_body.
    destruct (Legistar.key_of body_id) as [k|] eqn:Ek.
    2:{ intros [= <- <-]. four. }
    destruct (bodies st !! k) as [known|] eqn:Ehit.
    { intros [= <- <-]. four. intros _ body [= <-]. eauto. }
    destruct (Legistar.request _ _ _ st) as [[response|e] st1] eqn:Er;
      apply request_post in Er as (Hp & Hb & _).
    2:{ intros [= <- <-]. four. rewrite Hb. reflexivity. }
    assert (Hins : forall body,
               bodies st ⊆ <[k:=body]> (bodies st1)).
    { intros body. rewrite Hb. apply insert_subseteq. exact Ehit. }
    destruct (Legistar.status_code response =? 200).
    + unfold Legistar.lift.
      destruct (Legistar.response_json response) as [body|e].
      * unfold Legistar.ret. intros [= <- <-]. simpl. four.
        intros _ b [= <-]. exists k. rewrite lookup_insert_eq. auto.
      * intros [= <- <-]. four. rewrite Hb. reflexivity.
    + unfold Legistar.ret. intros [= <- <-]. simpl. four.
      intros _ b [= <-]. exists k. rewrite lookup_insert_eq. auto.
  - unfold Legistar.ret at 1.
    destruct (Legistar.request _ _ _ st) as [[response|e] st1] eqn:Er;
      apply request_post in Er as (Hp & Hb & _).
    2:{ intros [= <- <-]. four. rewrite Hb. reflexivity. }
    destruct (Legistar.status_code response =? 200).
    + unfold Legistar.lift.
      destruct (Legistar.response_json response) as [body|e];
        unfold Legistar.ret; intros [= <- <-]; four;
        rewrite Hb; reflexivity.
    + unfold Legistar.ret. intros [= <- <-]. four. rewrite Hb. reflexivity.
Qed.

(** X13. Asking for a body twice with the cache asks the server once:
    when a call with [use_cache] returns, the same call in the state it
    leaves returns the same body and changes nothing (no request is sent),
    also when the body is [None] because the request was refused. *)
Theorem get_legistar_body_memo client body_id (st : state) body st' :
  get_legistar_body client body_id true st = (Py.Return body, st') ->
  get_legistar_body client body_id true st' = (Py.Return body, st').
Proof.
  intros H.
  destruct (get_legistar_body_post _ _ _ _ _ _ H) as (_ & _ & _ & Hc).
  destruct (Hc eq_refl body eq_refl) as (k & Hk & Hin).
  unfold Legistar.get_legistar_body, Legistar.bind, Legistar.cached.
  rewrite Hk, Hin. reflexivity.
Qed.

Lemma attached_weaken cache cache' use_cache r r' :
  cache ⊆ cache' ->
  Legistar.attached cache use_cache r r' ->
  Legistar.attached cache' use_cache r r'.
Proof.
  intros Hsub (entries & body_id & body & -> & Hid & -> & Hc).
  exists entries, body_id, body. repeat split; auto.
  intros Hu. destruct (Hc Hu) as (k & Hk & Hin).
  exists k. split; [exact Hk|].
  eapply lookup_weaken; eassumption.
Qed.

(** The loop over the records: each record that is passed gets its body,
    the cache of persons is not touched, the cache of bodies only grows. *)
Lemma attach_bodies_post client use_cache records :
  forall (st : state) res st',
    attach_bodies client use_cache records st = (res, st') ->
    persons st' = persons st /\
    bodies st ⊆ bodies st' /\
    (use_cache = false -> bodies st' = bodies st) /\
    (forall records', res = Py.Return records' ->
       Forall2 (Legistar.attached (bodies st') use_cache) records records').
Proof.
  induction records as [|record rest IH]; intros st res st'; simpl.
  - unfold Legistar.ret. intros [= <- <-]. four.
    intros records' [= <-]. constructor.
  - unfold Legistar.bind at 1. unfold Legistar.lift at 1.
    destruct (Py.subscript record "OfficeRecordBodyId") as [body_id|e] eqn:Es.
    2:{ intros [= <- <-]. four. }
    unfold Legistar.bind at 1.
    destruct (get_legistar_body client body_id use_cache st)
      as [[body|e] st1] eqn:Eb;
      destruct (get_legistar_body_post _ _ _ _ _ _ Eb)
        as (Hp1 & Hb1 & Hn1 & Hc1).
    2:{ intros [= <- <-]. four. }
    unfold Legistar.bind at 1. unfold Legistar.lift at 1.
    destruct record as [| | | | |entries]; try discriminate Es.
    simpl in Es.
    destruct (Py.dict_get "OfficeRecordBodyId" entries) as [v|] eqn:Eg;
      [|discriminate Es].
    injection Es as ->. simpl.
    unfold Legistar.bind at 1.
    destruct (attach_bodies client use_cache rest st1)
      as [[rest'|e] st2] eqn:Er;
      destruct (IH _ _ _ Er) as (Hp2 & Hb2 & Hn2 & Hc2).
    2:{ intros [= <- <-]. split; [|split; [|split]].
        - congruence.
        - etrans; eassumption.
        - intros Hu. rewrite Hn2, Hn1; auto.
        - intros ? [=]. }
    unfold Legistar.ret. intros [= <- <-]. split; [|split; [|split]].
    + congruence.
    + etrans; eassumption.
    + intros Hu. rewrite Hn2, Hn1; auto.
    + intros ? [= <-]. constructor; [|apply Hc2; reflexivity].
      exists entries, body_id, body. repeat split; auto.
      intros Hu. destruct (Hc1 Hu body eq_refl) as (k & Hk & Hin).
      exists k. split; [exact Hk|].
      eapply lookup_weaken; eassumption.
Qed.

Lemma attach_bodies_in_post client use_cache office_records
    (st : state) res st' :
  attach_bodies_in client use_cache office_records st = (res, st') ->
  persons st' = persons st /\
  bodies st ⊆ bodies st' /\
  (use_cache = false -> bodies st' = bodies st) /\
  (forall v, res = Py.Return v ->
     (exists records records',
        office_records = JList records /\ v = JList records' /\
        Forall2 (Legistar.attached (bodies st') use_cache) records records')
     \/ (v = office_records /\
         (office_records = JDict [] \/ office_records = JStr ""))).
Proof.
  assert (Hstr : forall items,
             Forall (fun j => exists s, j = JStr s) items ->
             forall items',
               Forall2 (Legistar.attached (bodies st') use_cache)
                 items items' -> items = []).
  { intros items Hall items' H2. destruct H2 as [|r r' ? ? Hr _]; auto.
    inversion Hall as [|? ? [s ->] _]; subst.
    destruct Hr as (? & ? & ? & [=] & _). }
  assert (Hother : forall items,
             Py.iterate office_records = Py.Return items ->
             Forall (fun j => exists s, j = JStr s) items ->
             (items = [] ->
              office_records = JDict [] \/ office_records = JStr "") ->
             Legistar.bind World
               (Legistar.lift World (Py.iterate office_records))
               (fun items =>
                  Legistar.bind World (attach_bodies client use_cache items)
                    (fun _ => Legistar.ret World office_records)) st
             = (res, st') ->
             persons st' = persons st /\
             bodies st ⊆ bodies st' /\
             (use_cache = false -> bodies st' = bodies st) /\
             (forall v, res = Py.Return v ->
               (exists records records',
                 office_records = JList records /\ v = JList records' /\
                 Forall2 (Legistar.attached (bodies st') use_cache)
                   records records')
               \/ (v = office_records /\
                   (office_records = JDict [] \/ office_records = JStr "")))).
  { intros items Hit Hall Hempty.
    unfold Legistar.bind at 1. unfold Legistar.lift. rewrite Hit.
    unfold Legistar.bind.
    destruct (attach_bodies client use_cache items st)
      as [[items'|e] st1] eqn:Ea;
      destruct (attach_bodies_post _ _ _ _ _ _ Ea) as (Hp & Hb & Hn & Hc).
    2:{ intros [= <- <-]. four. }
    unfold Legistar.ret. intros [= <- <-]. four.
    intros v [= <-]. right. split; [reflexivity|].
    apply Hempty. eapply Hstr; [exact Hall|]. apply Hc. reflexivity. }
  destruct office_records as [| b | n | s | records | d];
    unfold Legistar.attach_bodies_in.
  - unfold Legistar.bind, Legistar.lift. simpl. intros [= <- <-]. four.
  - unfold Legistar.bind, Legistar.lift. simpl. intros [= <- <-]. four.
  - unfold Legistar.bind, Legistar.lift. simpl. intros [= <- <-]. four.
  - apply (Hother (Py.characters s)); [reflexivity| |].
    + clear. induction s; simpl; constructor; eauto.
    + destruct s; [auto|discriminate].
  - unfold Legistar.bind.
    destruct (attach_bodies client use_cache records st)
      as [[records'|e] st1] eqn:Ea;
      destruct (attach_bodies_post _ _ _ _ _ _ Ea) as (Hp & Hb & Hn & Hc).
    2:{ intros [= <- <-]. four. }
    unfold Legistar.ret. intros [= <- <-]. four.
    intros v [= <-]. left. exists records, records'. auto.
  - apply (Hother (List.map (fun kv => JStr (fst kv)) d)); [reflexivity| |].
    + clear. induction d; simpl; constructor; eauto.
    + destruct d; [auto|discriminate].
Qed.

(** When [use_cache] is set, storing the person under its id. *)
Lemma remember_person_post (use_cache : bool) person_id person
    (st : state) res st' :
  (if use_cache
   then Legistar.remember_person World person_id person
   else Legistar.ret World ()) st = (res, st') ->
  bodies st' = bodies st /\ world st' = world st /\
  (use_cache = false -> res = Py.Return () /\ st' = st) /\
  (use_cache = true ->
   (exists k, Legistar.key_of person_id = Some k /\ res = Py.Return () /\
              persons st' = <[k:=person]> (persons st)) \/
   (Legistar.key_of person_id = None /\ res = Py.Raise Py.TypeError /\
    st' = st)).
Proof.
  destruct use_cache.
  - unfold Legistar.remember_person.
    destruct (Legistar.key_of person_id) as [k|];
      intros [= <- <-]; simpl; four; intros _; eauto.
  - unfold Legistar.ret. intros [= <- <-]. four.
Qed.

Lemma attached_record_with_body cache use_cache r r' :
  Legistar.attached cache use_cache r r' ->
  Legistar.record_with_body cache use_cache r'.
Proof.
  intros (entries & body_id & body & -> & Hid & -> & Hc).
  exists (Py.dict_set Legistar.LEGISTAR_ROLE_BODY body entries),
    body_id, body.
  split; [reflexivity|]. split; [|split; [|exact Hc]].
  - rewrite dict_get_set_ne; [exact Hid|]. discriminate.
  - apply dict_get_set.
Qed.

Lemma attached_records_with_bodies cache use_cache records records' :
  Forall2 (Legistar.attached cache use_cache) records records' ->
  Forall (Legistar.record_with_body cache use_cache) records'.
Proof.
  induction 1; constructor; eauto using attached_record_with_body.
Qed.

Lemma setitem_roles person v person' :
  Legistar.setitem person Legistar.LEGISTAR_PERSON_ROLES v
  = Py.Return person' ->
  exists entries, person' = JDict entries /\
    Py.dict_get Legistar.LEGISTAR_PERSON_ROLES entries = Some v.
Proof.
  destruct person; try discriminate. simpl. intros [= <-].
  eexists. split; [reflexivity|]. apply dict_get_set.
Qed.

(** Reading the cache at the start of a call. *)
Lemma cached_post (use_cache : bool)
    (cache : state -> gmap Legistar.key json) id (st : state) res st' :
  (if use_cache then Legistar.cached World cache id
   else Legistar.ret World None) st = (res, st') ->
  st' = st /\
  ((use_cache = true /\ Legistar.key_of id = None /\
    res = Py.Raise Py.TypeError) \/
   (exists known, res = Py.Return known /\
      (use_cache = false -> known = None) /\
      (use_cache = true ->
       exists k, Legistar.key_of id = Some k /\ cache st !! k = known))).
Proof.
  destruct use_cache.
  - unfold Legistar.cached. destruct (Legistar.key_of id) as [k|].
    + intros [= <- <-]. split; [reflexivity|]. right.
      eexists. split; [reflexivity|]. split; [discriminate|]. eauto.
    + intros [= <- <-]. auto.
  - unfold Legistar.ret. intros [= <- <-]. split; [reflexivity|]. right.
    exists None. split; [reflexivity|]. split; [auto|discriminate].
Qed.

(** What a call of [get_legistar_person] leaves. *)
Lemma get_legistar_person_post client person_id use_cache
    (st : state) res st' :
  get_legistar_person client person_id use_cache st = (res, st') ->
  caches_kept st st' /\
  (use_cache = false ->
   persons st' = persons st /\ bodies st' = bodies st) /\
  (use_cache = true ->
   forall person, res = Py.Return person ->
     exists k, Legistar.key_of person_id = Some k /\
               persons st' !! k = Some person) /\
  ((use_cache = true ->
    exists k, Legistar.key_of person_id = Some k /\ persons st !! k = None) ->
   forall person, res = Py.Return person ->
     Legistar.person_with_roles (bodies st') use_cache person).
Proof.
  unfold Legistar.get_legistar_person. unfold Legistar.bind at 1.
  match goal with
  | |- context [match ?m st with _ => _ end] =>
      destruct (m st) as [r0 st0] eqn:E0
  end.
  apply cached_post in E0 as [-> Hr0].
  destruct Hr0 as [(Hu & Hk & ->)|(known & -> & Hno & Hyes)].
  { intros [= <- <-]. split; [apply caches_kept_refl|].
    split; [auto|]. split; intros; discriminate. }
  destruct known as [person0|].
  { unfold Legistar.ret. intros [= <- <-]. split; [apply caches_kept_refl|].
    split; [auto|]. split.
    - intros Hu person [= <-]. apply Hyes, Hu.
    - intros Hfresh person [= <-].
      destruct use_cache; [|discriminate (Hno eq_refl)].
      destruct (Hyes eq_refl) as (k & Hk & Hin).
      destruct (Hfresh eq_refl) as (k' & Hk' & Hnone). congruence. }
  assert (Hmiss : use_cache = true ->
                  exists k, Legistar.key_of person_id = Some k /\
                            persons st !! k = None).
  { intros Hu. apply Hyes, Hu. }
  clear Hno Hyes.
  (* what storing the person at the end gives *)
  assert (Hstore : forall (sta : state) (person : json) res st',
             persons sta = persons st -> bodies st ⊆ bodies sta ->
             (use_cache = false -> bodies sta = bodies st) ->
             Legistar.person_with_roles (bodies sta) use_cache person ->
             Legistar.bind World
               (if use_cache
                then Legistar.remember_person World person_id person
                else Legistar.ret World ())
               (fun _ => Legistar.ret World person) sta = (res, st') ->
             caches_kept st st' /\
             (use_cache = false ->
              persons st' = persons st /\ bodies st' = bodies st) /\
             (use_cache = true ->
              forall p, res = Py.Return p ->
                exists k, Legistar.key_of person_id = Some k /\
                          persons st' !! k = Some p) /\
             (forall p, res = Py.Return p ->
                Legistar.person_with_roles (bodies st') use_cache p)).
  { clear res st'. intros sta person res st' Hp Hb Hn Hshape.
    unfold Legistar.bind.
    match goal with
    | |- context [match ?m sta with _ => _ end] =>
        destruct (m sta) as [r1 st1] eqn:E1
    end.
    apply remember_person_post in E1 as (Hb1 & _ & Hoff & Hon).
    destruct use_cache.
    - destruct (Hon eq_refl) as [(k & Hk & -> & Hins)|(Hk & -> & ->)].
      + unfold Legistar.ret. intros [= <- <-].
        destruct (Hmiss eq_refl) as (k' & Hk' & Hnone).
        assert (k' = k) as -> by congruence.
        split; [|split; [discriminate|split]].
        * split; [|rewrite Hb1; exact Hb].
          rewrite Hins, Hp. apply insert_subseteq. exact Hnone.
        * intros _ p [= <-]. exists k. split; [exact Hk|].
          rewrite Hins. apply lookup_insert_eq.
        * intros p [= <-]. rewrite Hb1. exact Hshape.
      + intros [= <- <-]. split; [|split; [discriminate|split]].
        * split; [rewrite Hp; reflexivity|exact Hb].
        * intros; discriminate.
        * intros; discriminate.
    - destruct (Hoff eq_refl) as [-> ->]. unfold Legistar.ret.
      intros [= <- <-]. split; [|split; [|split]].
      + split; [rewrite Hp; reflexivity|exact Hb].
      + auto.
      + discriminate.
      + intros p [= <-]. exact Hshape. }
  (* what a failure in state [sta] gives *)
  assert (Hfail : forall (sta : state) e,
             persons sta = persons st -> bodies st ⊆ bodies sta ->
             (use_cache = false -> bodies sta = bodies st) ->
             (@Py.Raise json e, sta) = (res, st') ->
             caches_kept st st' /\
             (use_cache = false ->
              persons st' = persons st /\ bodies st' = bodies st) /\
             (use_cache = true ->
              forall p, res = Py.Return p ->
                exists k, Legistar.key_of person_id = Some k /\
                          persons st' !! k = Some p) /\
             (forall p, res = Py.Return p ->
                Legistar.person_with_roles (bodies st') use_cache p)).
  { intros sta e Hp Hb Hn [= <- <-]. split; [|split; [|split]].
    - split; [rewrite Hp; reflexivity|exact Hb].
    - auto.
    - intros; discriminate.
    - intros; discriminate. }
  assert (Hgoal : forall res st',
             (caches_kept st st' /\
              (use_cache = false ->
               persons st' = persons st /\ bodies st' = bodies st) /\
              (use_cache = true ->
               forall p, res = Py.Return p ->
                 exists k, Legistar.key_of person_id = Some k /\
                           persons st' !! k = Some p) /\
              (forall p, res = Py.Return p ->
                 Legistar.person_with_roles (bodies st') use_cache p)) ->
             caches_kept st st' /\
             (use_cache = false ->
              persons st' = persons st /\ bodies st' = bodies st) /\
             (use_cache = true ->
              forall person, res = Py.Return person ->
                exists k, Legistar.key_of person_id = Some k /\
                          persons st' !! k = Some person) /\
             ((use_cache = true ->
               exists k, Legistar.key_of person_id = Some k /\
                         persons st !! k = None) ->
              forall person, res = Py.Return person ->
                Legistar.person_with_roles (bodies st') use_cache person)).
  { intros ? ? (? & ? & ? & ?). auto. }
  intros H. apply Hgoal. clear Hgoal. revert H.
  unfold Legistar.bind at 1.
  destruct (Legistar.request _ _ _ st) as [[response|e] st1] eqn:Er1;
    apply request_post in Er1 as (Hp1 & Hb1 & _).
  2:{ apply Hfail; auto. rewrite Hb1. reflexivity. }
  destruct (Legistar.status_code response =? 200); simpl.
  2:{ apply Hstore; auto; [rewrite Hb1; reflexivity|]. left. reflexivity. }
  unfold Legistar.bind at 1. unfold Legistar.lift at 1.
  destruct (Legistar.response_json response) as [person|e].
  2:{ apply Hfail; auto. rewrite Hb1. reflexivity. }
  unfold Legistar.bind at 1.
  destruct (Legistar.request _ _ _ st1) as [[response2|e] st2] eqn:Er2;
    apply request_post in Er2 as (Hp2 & Hb2 & _).
  2:{ apply Hfail; [congruence|rewrite Hb2, Hb1; reflexivity|].
      intros _. congruence. }
  destruct (Legistar.status_code response2 =? 200); simpl.
  2:{ unfold Legistar.bind at 1. unfold Legistar.lift at 1.
      destruct (Legistar.setitem person _ JNull) as [person'|e] eqn:Es.
      2:{ apply Hfail; [congruence|rewrite Hb2, Hb1; reflexivity|].
          intros _. congruence. }
      apply Hstore; [congruence|rewrite Hb2, Hb1; reflexivity| |].
      - intros _. congruence.
      - right. apply setitem_roles in Es as (entries & -> & Hget).
        exists entries, JNull. auto. }
  unfold Legistar.bind at 1. unfold Legistar.lift at 1.
  destruct (Legistar.response_json response2) as [office_records|e].
  2:{ apply Hfail; [congruence|rewrite Hb2, Hb1; reflexivity|].
      intros _. congruence. }
  unfold Legistar.bind at 1.
  destruct (attach_bodies_in client use_cache office_records st2)
    as [[office_records'|e] st3] eqn:Ea;
    apply attach_bodies_in_post in Ea as (Hp3 & Hb3 & Hn3 & Hc3).
  2:{ apply Hfail; [congruence|rewrite <- Hb3, Hb2, Hb1; reflexivity|].
      intros Hu. rewrite Hn3; [congruence|exact Hu]. }
  unfold Legistar.bind at 1. unfold Legistar.lift at 1.
  destruct (Legistar.setitem person _ office_records') as [person'|e] eqn:Es.
  2:{ apply Hfail; [congruence|rewrite <- Hb3, Hb2, Hb1; reflexivity|].
      intros Hu. rewrite Hn3; [congruence|exact Hu]. }
  apply Hstore; [congruence|rewrite <- Hb3, Hb2, Hb1; reflexivity| |].
  - intros Hu. rewrite Hn3; [congruence|exact Hu].
  - right. apply setitem_roles in Es as (entries & -> & Hget).
    exists entries, office_records'. split; [reflexivity|].
    split; [exact Hget|].
    destruct (Hc3 _ eq_refl)
      as [(records & records' & -> & -> & H2)|(-> & [->| ->])]; auto.
    right. right. right. exists records'. split; [reflexivity|].
    eapply attached_records_with_bodies. exact H2.
Qed.

Lemma world_only_ret {A} (a : A) : world_only (Legistar.ret World a).
Proof. intros st ps bs. reflexivity. Qed.

Lemma world_only_lift {A} (o : Py.outcome A) :
  world_only (Legistar.lift World o).
Proof. intros st ps bs. reflexivity. Qed.

Lemma world_only_request url :
  world_only (Legistar.request World requests_get url).
Proof.
  intros st ps bs. unfold Legistar.request. simpl.
  destruct (requests_get url (world st)) as [r w]. reflexivity.
Qed.

Lemma world_only_bind {A B} (m : Legistar.M World A)
    (k : A -> Legistar.M World B) :
  world_only m -> (forall a, world_only (k a)) ->
  world_only (Legistar.bind World m k).
Proof.
  intros Hm Hk st ps bs. unfold Legistar.bind. rewrite (Hm st ps bs).
  destruct (m st) as [[a|e] st1]; simpl; [|reflexivity].
  apply Hk.
Qed.

Lemma get_legistar_body_world_only client body_id :
  world_only (get_legistar_body client body_id false).
Proof.
  unfold Legistar.get_legistar_body.
  apply world_only_bind; [apply world_only_ret|]. intros [b|].
  { apply world_only_ret. }
  apply world_only_bind; [apply world_only_request|]. intros response.
  apply world_only_bind.
  { destruct (_ =? _); [apply world_only_lift|apply world_only_ret]. }
  intros body. apply world_only_bind; intros; apply world_only_ret.
Qed.

Lemma attach_bodies_world_only client records :
  world_only (attach_bodies client false records).
Proof.
  induction records as [|record rest IH]; simpl.
  { apply world_only_ret. }
  apply world_only_bind; [apply world_only_lift|]. intros body_id.
  apply world_only_bind; [apply get_legistar_body_world_only|]. intros body.
  apply world_only_bind; [apply world_only_lift|]. intros record'.
  apply world_only_bind; [exact IH|]. intros. apply world_only_ret.
Qed.

Lemma get_legistar_person_world_only client person_id :
  world_only (get_legistar_person client person_id false).
Proof.
  unfold Legistar.get_legistar_person.
  apply world_only_bind; [apply world_only_ret|]. intros [p|].
  { apply world_only_ret. }
  apply world_only_bind; [apply world_only_request|]. intros response.
  destruct (negb _).
  { apply world_only_bind; intros; apply world_only_ret. }
  apply world_only_bind; [apply world_only_lift|]. intros person.
  apply world_only_bind; [apply world_only_request|]. intros response2.
  destruct (negb _).
  { apply world_only_bind; [apply world_only_lift|]. intros person'.
    apply world_only_bind; intros; apply world_only_ret. }
  apply world_only_bind; [apply world_only_lift|]. intros office_records.
  apply world_only_bind.
  { unfold Legistar.attach_bodies_in.
    assert (Hother :
              world_only
                (Legistar.bind World
                   (Legistar.lift World (Py.iterate office_records))
                   (fun items =>
                      Legistar.bind World (attach_bodies client false items)
                        (fun _ => Legistar.ret World office_records)))).
    { apply world_only_bind; [apply world_only_lift|]. intros items.
      apply world_only_bind; [apply attach_bodies_world_only|].
      intros. apply world_only_ret. }
    destruct office_records; try exact Hother.
    apply world_only_bind; [apply attach_bodies_world_only|].
    intros. apply world_only_ret. }
  intros office_records'.
  apply world_only_bind; [apply world_only_lift|]. intros person'.
  apply world_only_bind; intros; apply world_only_ret.
Qed.

(** X14. Asking for a person twice with the cache: when a call with
    [use_cache] returns, the same call in the state it leaves returns the
    same person and changes nothing (no request is sent), also when the
    person is [None] because the request was refused. *)
Theorem get_legistar_person_memo client person_id (st : state) person st' :
  get_legistar_person client person_id true st = (Py.Return person, st') ->
  get_legistar_person client person_id true st' = (Py.Return person, st').
Proof.
  intros H.
  destruct (get_legistar_person_post _ _ _ _ _ _ H) as (_ & _ & Hc & _).
  destruct (Hc eq_refl person eq_refl) as (k & Hk & Hin).
  unfold Legistar.get_legistar_person, Legistar.bind, Legistar.cached.
  rewrite Hk, Hin. reflexivity.
Qed.

(** X15. The two functions never take an entry out of a cache and never
    replace one, with or without [use_cache], whether they return or
    raise: every entry of [known_legistar_persons] and of
    [known_legistar_bodies] is still there, with its value, after the
    call. *)
Theorem legistar_caches_only_grow client id use_cache (st : state) :
  caches_kept st (snd (get_legistar_body client id use_cache st)) /\
  caches_kept st (snd (get_legistar_person client id use_cache st)).
Proof.
  split.
  - destruct (get_legistar_body client id use_cache st) as [res st'] eqn:E.
    apply get_legistar_body_post in E as (Hp & Hb & _). simpl.
    split; [rewrite Hp; reflexivity|exact Hb].
  - destruct (get_legistar_person client id use_cache st) as [res st'] eqn:E.
    apply get_legistar_person_post in E as (H & _). exact H.
Qed.

(** X16. Without [use_cache] the two functions neither read nor write
    the caches: started with any other caches they give the same result
    and leave the same world, and the caches they were started with. *)
Theorem legistar_uncached_calls_ignore_caches client id (st : state)
    (known_persons known_bodies : gmap Legistar.key json) :
  let st2 := {| Legistar.known_legistar_persons := known_persons;
                Legistar.known_legistar_bodies := known_bodies;
                Legistar.world := world st |} in
  (let r := get_legistar_body client id false st in
   get_legistar_body client id false st2
   = (fst r, {| Legistar.known_legistar_persons := known_persons;
                Legistar.known_legistar_bodies := known_bodies;
                Legistar.world := world (snd r) |})) /\
  (let r := get_legistar_person client id false st in
   get_legistar_person client id false st2
   = (fst r, {| Legistar.known_legistar_persons := known_persons;
                Legistar.known_legistar_bodies := known_bodies;
                Legistar.world := world (snd r) |})).
Proof.
  split.
  - apply get_legistar_body_world_only.
  - apply get_legistar_person_world_only.
Qed.

(** X17. A person that [get_legistar_person] fetches (the answer does not
    come from the cache) is [None], or a dict with the key
    ["OfficeRecordInfo"]; when that entry is a list, each record of it is
    a dict that has the key ["OfficeRecordBodyInfo"], and with [use_cache]
    the body found there is the entry of the record's
    ["OfficeRecordBodyId"] in [known_legistar_bodies]. *)
Theorem get_legistar_person_fetched client person_id use_cache
    (st : state) person st' :
  (use_cache = true ->
   exists k, Legistar.key_of person_id = Some k /\ persons st !! k = None) ->
  get_legistar_person client person_id use_cache st
  = (Py.Return person, st') ->
  Legistar.person_with_roles (bodies st') use_cache person.
Proof.
  intros Hfresh H.
  destruct (get_legistar_person_post _ _ _ _ _ _ H) as (_ & _ & _ & Hs).
  apply Hs; [exact Hfresh|reflexivity].
Qed.

End legistar_facts.

(** ** [get_legistar_content_uris] *)

Lemma prefix_empty s : String.prefix "" s = true.
Proof. destruct s; reflexivity. Qed.

Lemma prefix_head c sub a s :
  String.prefix (String c sub) (String a s)
  = if ascii_dec c a then String.prefix sub s else false.
Proof. reflexivity. Qed.

Lemma index_of_none_head sub a s :
  LegistarContent.index_of sub (String a s) = None ->
  String.prefix sub (String a s) = false /\
  LegistarContent.index_of sub s = None.
Proof.
  cbn [LegistarContent.index_of].
  destruct (String.prefix sub (String a s)); [discriminate|].
  destruct (LegistarContent.index_of sub s); [discriminate|]. auto.
Qed.

Lemma no_quote_head a s :
  LegistarContent.index_of "'" (String a s) = None ->
  (forall sub rest, String.prefix (String "'" sub) (String a rest) = false) /\
  LegistarContent.index_of "'" s = None.
Proof.
  intros H. apply index_of_none_head in H as [Hp Hi]. split; [|exact Hi].
  intros sub rest. rewrite prefix_head in *.
  destruct (ascii_dec "'" a); [|reflexivity].
  rewrite prefix_empty in Hp. discriminate.
Qed.

(** The first quote of [before ++ "'" ++ rest] is the one after [before],
    when [before] has none. *)
Lemma index_of_quote before rest :
  LegistarContent.index_of "'" before = None ->
  LegistarContent.index_of "'" (before ++ String "'" rest)
  = Some (String.length before).
Proof.
  induction before as [|a before IH]; intros H.
  - change (("" ++ String "'" rest)%string) with (String "'" rest).
    cbn [LegistarContent.index_of]. rewrite prefix_head, prefix_empty.
    reflexivity.
  - apply no_quote_head in H as [Hp Hi].
    change ((String a before ++ String "'" rest)%string)
      with (String a (before ++ String "'" rest)).
    cbn [LegistarContent.index_of String.length].
    rewrite Hp, (IH Hi). reflexivity.
Qed.

(** In a text without a quote that is followed by a quote and a comma,
    the first ["',"] is at the end of the text. *)
Lemma index_of_quote_comma target after :
  LegistarContent.index_of "'" target = None ->
  LegistarContent.index_of "'," (target ++ String "'" (String "," after))
  = Some (String.length target).
Proof.
  induction target as [|a target IH]; intros H.
  - change (("" ++ String "'" (String "," after))%string)
      with (String "'" (String "," after)).
    cbn [LegistarContent.index_of]. rewrite !prefix_head, prefix_empty.
    reflexivity.
  - apply no_quote_head in H as [Hp Hi].
    change ((String a target ++ String "'" (String "," after))%string)
      with (String a (target ++ String "'" (String "," after))).
    cbn [LegistarContent.index_of String.length].
    rewrite Hp, (IH Hi). reflexivity.
Qed.

Lemma index_of_quote_comma_full before target after :
  LegistarContent.index_of "'" before = None ->
  LegistarContent.index_of "'" target = None ->
  String.prefix "," target = false ->
  LegistarContent.index_of "',"
    (before ++ String "'" (target ++ String "'" (String "," after)))
  = Some (String.length before + 1 + String.length target)%nat.
Proof.
  intros Hb Ht Hc. induction before as [|a before IH].
  - change (("" ++ String "'" (target ++ String "'" (String "," after)))%string)
      with (String "'" (target ++ String "'" (String "," after))).
    cbn [LegistarContent.index_of].
    replace (String.prefix "',"
               (String "'" (target ++ String "'" (String "," after))))
      with false.
    2:{ rewrite prefix_head. simpl.
        destruct target as [|c target]; [reflexivity|].
        change ((String c target ++ String "'" (String "," after))%string)
          with (String c (target ++ String "'" (String "," after))).
        rewrite prefix_head in Hc |- *.
        destruct (ascii_dec "," c); [|reflexivity].
        rewrite prefix_empty in Hc. discriminate. }
    rewrite (index_of_quote_comma _ _ Ht). reflexivity.
  - apply no_quote_head in Hb as [Hp Hi].
    change ((String a before
             ++ String "'" (target ++ String "'" (String "," after)))%string)
      with (String a (before
             ++ String "'" (target ++ String "'" (String "," after)))).
    cbn [LegistarContent.index_of String.length].
    rewrite Hp, (IH Hi). reflexivity.
Qed.

Lemma substring_skip before n m s :
  String.substring (String.length before + n) m (before ++ s)
  = String.substring n m s.
Proof. induction before as [|a before IH]; simpl; auto. Qed.

Lemma substring_front target rest :
  String.substring 0 (String.length target) (target ++ rest) = target.
Proof.
  induction target as [|a target IH]; simpl.
  - destruct rest; reflexivity.
  - rewrite IH. reflexivity.
Qed.

Lemma length_app_string (s t : string) :
  String.length (s ++ t) = (String.length s + String.length t)%nat.
Proof. induction s; simpl; auto. Qed.

(** X18. The address is read back from an [onclick] of the form
    [...'address',...]: when the text before the first quote and the
    address hold no quote, and the address does not begin with a comma,
    [onclick_target] gives the address. *)
Theorem onclick_target_window_open (before target after : string) :
  LegistarContent.index_of "'" before = None ->
  LegistarContent.index_of "'" target = None ->
  String.prefix "," target = false ->
  LegistarContent.onclick_target
    (before ++ "'" ++ target ++ "'," ++ after) = target.
Proof.
  intros Hb Ht Hc.
  change ((before ++ "'" ++ target ++ "'," ++ after)%string)
    with ((before ++ String "'" (target ++ String "'" (String "," after)))
            %string).
  unfold LegistarContent.onclick_target, LegistarContent.find.
  rewrite (index_of_quote _ _ Hb).
  rewrite (index_of_quote_comma_full _ _ _ Hb Ht Hc).
  unfold LegistarContent.slice.
  set (s := (before ++ String "'" (target ++ String "'" (String "," after)))
              %string).
  assert (Hlen : String.length s
                 = (String.length before + 1 + String.length target + 2
                    + String.length after)%nat).
  { unfold s. rewrite length_app_string. simpl.
    rewrite length_app_string. simpl. lia. }
  rewrite Hlen. simpl String.length.
  destruct (_ <? 0) eqn:E1; [apply Z.ltb_lt in E1; lia|].
  destruct (Z.of_nat (String.length before + 1 + String.length target) <? 0)
    eqn:E2; [apply Z.ltb_lt in E2; lia|].
  rewrite !Z.min_l by lia.
  replace (Z.to_nat (Z.of_nat (String.length before) + Z.of_nat 1))
    with (String.length before + 1)%nat by lia.
  replace (Z.to_nat _) with (String.length target) by lia.
  unfold s. rewrite substring_skip. simpl. apply substring_front.
Qed.

Section content_uris_facts.
Variable World Soup : Type.
Variable urlopen : json -> World -> Py.outcome Soup * World.
Variable find_video_link : Soup -> option (option string).
Variable cleantext_clean : string -> string.

#[local] Abbreviation parser := (LegistarContent.parser World Soup).
#[local] Abbreviation state := (LegistarContent.state World Soup).
#[local] Abbreviation video_page_parser :=
  (LegistarContent.video_page_parser World Soup).
#[local] Abbreviation get_legistar_content_uris :=
  (LegistarContent.get_legistar_content_uris World Soup urlopen
     find_video_link cleantext_clean).
#[local] Abbreviation try_parsers :=
  (LegistarContent.try_parsers World Soup).
#[local] Abbreviation parse_video_page :=
  (LegistarContent.parse_video_page World Soup).

(** The loop over the parsers remembers the first parser that finds
    URIs, and nothing else. *)
Lemma try_parsers_post client soup (parsers : list parser) :
  forall (st : state) res st',
    try_parsers client soup parsers st = (res, st') ->
    (video_page_parser st' = video_page_parser st /\
     (res = Py.Return None \/ exists e, res = Py.Raise e)) \/
    (exists p uris,
       In p parsers /\ res = Py.Return (Some uris) /\
       video_page_parser st' = <[client:=p]> (video_page_parser st)).
Proof.
  induction parsers as [|p rest IH]; intros st res st'; simpl.
  - intros [= <- <-]. left. auto.
  - destruct (p client soup (LegistarContent.world World Soup st))
      as [[[uris|]|e] w] eqn:Ep.
    + intros [= <- <-]. right. exists p, uris. simpl. auto.
    + intros H. apply IH in H as [[Hv Hr]|(q & uris & Hq & Hr & Hv)].
      * left. split; [exact Hv|exact Hr].
      * right. exists q, uris. simpl in Hv. auto.
    + intros [= <- <-]. left. simpl. eauto.
Qed.

Lemma parse_video_page_post all_parsers client soup (st : state) res st' :
  parse_video_page all_parsers client soup st = (res, st') ->
  video_page_parser st' = video_page_parser st \/
  (video_page_parser st !! client = None /\
   exists p uris,
     In p all_parsers /\ res = Py.Return (Some uris) /\
     video_page_parser st' = <[client:=p]> (video_page_parser st)).
Proof.
  unfold LegistarContent.parse_video_page.
  destruct (video_page_parser st !! client) as [known|] eqn:Ek.
  - destruct (known client soup _) as [r w]. intros [= <- <-]. left.
    reflexivity.
  - intros H. apply try_parsers_post in H as [[Hv _]|H]; auto.
Qed.

(** X19. The parser that is remembered for a client: a call leaves
    [video_page_parser] as it was, or the client had no parser yet, the
    call returns [Ok] with URIs, and the client's entry, the only one that
    is added, is a parser of [all_parsers]. *)
Theorem content_uris_parser_remembered all_parsers client legistar_ev
    (st : state) :
  let r := get_legistar_content_uris all_parsers client legistar_ev st in
  video_page_parser (snd r) = video_page_parser st \/
  (video_page_parser st !! client = None /\
   exists p uris,
     In p all_parsers /\
     fst r = Py.Return (LegistarContent.Ok, Some uris) /\
     video_page_parser (snd r) = <[client:=p]> (video_page_parser st)).
Proof.
  unfold LegistarContent.get_legistar_content_uris,
    LegistarContent.returns, LegistarContent.raises.
  destruct (Py.subscript legistar_ev "EventVideoPath") as [video|e];
    [|left; reflexivity].
  destruct (Py.truthy video); [left; reflexivity|].
  destruct (Py.subscript legistar_ev "EventInSiteURL") as [site|e];
    [|left; reflexivity].
  destruct (negb (Py.truthy site)); [left; reflexivity|].
  destruct (urlopen site _) as [[soup|e] w].
  2:{ destruct (LegistarContent.is_URLError e); left; reflexivity. }
  destruct (find_video_link soup) as [[extract_url|]|];
    [|left; reflexivity|left; reflexivity].
  destruct (urlopen (JStr _) _) as [[soup2|e] w2].
  2:{ destruct (LegistarContent.is_HTTPError e); left; reflexivity. }
  destruct (parse_video_page all_parsers client soup2 _) as [page st3] eqn:Ep.
  apply parse_video_page_post in Ep as [Hv|(Hnone & p & uris & Hp & -> & Hv)].
  - left. destruct page as [[uris|]|e]; [| |destruct (_ e)]; exact Hv.
  - right. split; [exact Hnone|]. exists p, uris. auto.
Qed.

(** X20. Once a parser is remembered for a client, the other parsers are
    not tried for it any more: the call gives the same result whatever
    [all_parsers] holds (also [NotImplementedError] when the remembered
    parser finds nothing and another parser would). *)
Theorem content_uris_known_parser_only all_parsers all_parsers' client
    legistar_ev (st : state) known :
  video_page_parser st !! client = Some known ->
  get_legistar_content_uris all_parsers client legistar_ev st
  = get_legistar_content_uris all_parsers' client legistar_ev st.
Proof.
  intros Hk.
  unfold LegistarContent.get_legistar_content_uris.
  destruct (Py.subscript legistar_ev "EventVideoPath") as [video|e];
    [|reflexivity].
  destruct (Py.truthy video); [reflexivity|].
  destruct (Py.subscript legistar_ev "EventInSiteURL") as [site|e];
    [|reflexivity].
  destruct (negb (Py.truthy site)); [reflexivity|].
  destruct (urlopen site _) as [[soup|e] w]; [|reflexivity].
  destruct (find_video_link soup) as [[extract_url|]|]; try reflexivity.
  destruct (urlopen (JStr _) _) as [[soup2|e] w2]; [|reflexivity].
  unfold LegistarContent.parse_video_page. simpl. rewrite Hk. reflexivity.
Qed.

(** X21. "Use [uris] only if [status] is [Ok]": whenever the call
    returns, the status is [Ok] exactly when URIs come with it, and with
    every other status [uris] is [None]. *)
Theorem content_uris_ok_iff_uris all_parsers client legistar_ev (st : state)
    status uris st' :
  get_legistar_content_uris all_parsers client legistar_ev st
  = (Py.Return (status, uris), st') ->
  (status = LegistarContent.Ok /\ exists found, uris = Some found) \/
  (status <> LegistarContent.Ok /\ uris = None).
Proof.
  unfold LegistarContent.get_legistar_content_uris,
    LegistarContent.returns, LegistarContent.raises.
  destruct (Py.subscript legistar_ev "EventVideoPath") as [video|e];
    [|discriminate].
  destruct (Py.truthy video); [intros [= <- <- <-]; left; eauto|].
  destruct (Py.subscript legistar_ev "EventInSiteURL") as [site|e];
    [|discriminate].
  destruct (negb (Py.truthy site));
    [intros [= <- <- <-]; right; split; [discriminate|reflexivity]|].
  destruct (urlopen site _) as [[soup|e] w].
  2:{ destruct (LegistarContent.is_URLError e); [|discriminate].
      intros [= <- <- <-]; right; split; [discriminate|reflexivity]. }
  destruct (find_video_link soup) as [[extract_url|]|];
    [|intros [= <- <- <-]; right; split; [discriminate|reflexivity]..].
  destruct (urlopen (JStr _) _) as [[soup2|e] w2].
  2:{ destruct (LegistarContent.is_HTTPError e); [|discriminate].
      intros [= <- <- <-]; right; split; [discriminate|reflexivity]. }
  destruct (parse_video_page all_parsers client soup2 _)
    as [[[found|]|e] st3].
  - intros [= <- <- <-]. left. eauto.
  - discriminate.
  - destruct (LegistarContent.is_HTTPError e); [|discriminate].
    intros [= <- <- <-]; right; split; [discriminate|reflexivity].
Qed.

(** X22. An [HTTPError] never leaves the call: from either page and from
    a parser it is turned into the status [ResourceAccessError], so an
    exception that the call raises is no [HTTPError]. *)
Theorem content_uris_no_HTTPError all_parsers client legistar_ev
    (st : state) :
  match fst (get_legistar_content_uris all_parsers client legistar_ev st) with
  | Py.Raise e => LegistarContent.is_HTTPError e = false
  | Py.Return _ => True
  end.
Proof.
  unfold LegistarContent.get_legistar_content_uris,
    LegistarContent.returns, LegistarContent.raises.
  destruct legistar_ev as [| | | | |d]; try reflexivity. simpl.
  destruct (Py.dict_get "EventVideoPath" d) as [video|]; [|reflexivity].
  simpl. destruct (Py.truthy video); [exact I|].
  destruct (Py.dict_get "EventInSiteURL" d) as [site|]; [|reflexivity].
  simpl. destruct (negb (Py.truthy site)); [exact I|].
  destruct (urlopen site _) as [[soup|e] w].
  2:{ destruct e; simpl; trivial. }
  destruct (find_video_link soup) as [[extract_url|]|]; try exact I.
  destruct (urlopen (JStr _) _) as [[soup2|e] w2].
  2:{ destruct e; simpl; trivial. }
  destruct (parse_video_page all_parsers client soup2 _)
    as [[[found|]|e] st3]; simpl; trivial.
  destruct e; simpl; trivial.
Qed.

End content_uris_facts.

(** ** [get_legistar_events_for_timespan] *)

Section legistar_events_facts.
Variable World : Type.
Variable requests_get :
  string -> World -> Py.outcome Legistar.response * World.
Variable repr : json -> string.
Variable utcnow : World -> datetime * World.
Variable str_datetime : datetime -> string.

#[local] Abbreviation state := (Legistar.state World).
#[local] Abbreviation M := (Legistar.M World).
#[local] Abbreviation bind := (Legistar.bind World).
#[local] Abbreviation lift := (Legistar.lift World).
#[local] Abbreviation bodies := (Legistar.known_legistar_bodies World).
#[local] Abbreviation persons := (Legistar.known_legistar_persons World).
#[local] Abbreviation caches_kept := (Legistar.caches_kept World).
#[local] Abbreviation keeps := (Legistar.keeps World).
#[local] Abbreviation for_each := (Legistar.for_each World).
#[local] Abbreviation for_in := (Legistar.for_in World).
#[local] Abbreviation attach_person :=
  (Legistar.attach_person World requests_get repr).
#[local] Abbreviation event_item_body :=
  (Legistar.event_item_body World requests_get repr).
#[local] Abbreviation event_body :=
  (Legistar.event_body World requests_get repr).
#[local] Abbreviation get_legistar_events_for_timespan :=
  (Legistar.get_legistar_events_for_timespan World requests_get repr
     utcnow str_datetime).

Lemma bind_returns {A B} (m : M A) (k : A -> M B) st b st' :
  bind m k st = (Py.Return b, st') ->
  exists a st1, m st = (Py.Return a, st1) /\ k a st1 = (Py.Return b, st').
Proof.
  unfold Legistar.bind. destruct (m st) as [[a|e] st1]; [eauto|discriminate].
Qed.

Lemma lift_returns {A} (o : Py.outcome A) (st : state) a st' :
  lift o st = (Py.Return a, st') -> o = Py.Return a /\ st' = st.
Proof. unfold Legistar.lift. intros [= -> ->]. auto. Qed.

Lemma keeps_bind {A B} (m : M A) (k : A -> M B) :
  keeps m -> (forall a, keeps (k a)) -> keeps (bind m k).
Proof.
  intros Hm Hk st res st'. unfold Legistar.bind.
  destruct (m st) as [[a|e] st1] eqn:E.
  - intros H. eapply caches_kept_trans; [eapply Hm, E|eapply Hk, H].
  - intros [= <- <-]. eapply Hm, E.
Qed.

Lemma keeps_ret {A} (a : A) : keeps (Legistar.ret World a).
Proof. intros st res st' [= <- <-]. apply caches_kept_refl. Qed.

Lemma keeps_lift {A} (o : Py.outcome A) : keeps (lift o).
Proof. intros st res st' [= <- <-]. apply caches_kept_refl. Qed.

Lemma keeps_request url : keeps (Legistar.request World requests_get url).
Proof.
  intros st res st' H. apply request_post in H as (Hp & Hb & _).
  split; [rewrite Hp|rewrite Hb]; reflexivity.
Qed.

Lemma keeps_for_each (body : json -> M json) items :
  (forall x, keeps (body x)) -> keeps (for_each body items).
Proof.
  intros Hb. induction items as [|x rest IH]; simpl.
  - apply keeps_ret.
  - apply keeps_bind; [apply Hb|]. intros x'.
    apply keeps_bind; [exact IH|]. intros. apply keeps_ret.
Qed.

Lemma keeps_for_in (body : json -> M json) container :
  (forall x, keeps (body x)) -> keeps (for_in body container).
Proof.
  intros Hb.
  assert (Hother :
            keeps (bind (lift (Py.iterate container))
                     (fun items =>
                        bind (for_each body items)
                          (fun _ => Legistar.ret World container)))).
  { apply keeps_bind; [apply keeps_lift|]. intros items.
    apply keeps_bind; [apply keeps_for_each, Hb|]. intros.
    apply keeps_ret. }
  destruct container; try exact Hother.
  unfold Legistar.for_in.
  apply keeps_bind; [apply keeps_for_each, Hb|]. intros. apply keeps_ret.
Qed.

Lemma keeps_get_legistar_person client id use_cache :
  keeps (Legistar.get_legistar_person World requests_get repr client id
           use_cache).
Proof.
  intros st res st' H.
  apply get_legistar_person_post in H as (H & _). exact H.
Qed.

Lemma keeps_get_legistar_body client id use_cache :
  keeps (Legistar.get_legistar_body World requests_get repr client id
           use_cache).
Proof.
  intros st res st' H.
  apply get_legistar_body_post in H as (Hp & Hb & _).
  split; [rewrite Hp; reflexivity|exact Hb].
Qed.

Lemma keeps_attach_person client id target x :
  keeps (attach_person client id target x).
Proof.
  unfold Legistar.attach_person.
  apply keeps_bind; [apply keeps_lift|]. intros person_id.
  apply keeps_bind; [apply keeps_get_legistar_person|]. intros person.
  apply keeps_lift.
Qed.

Lemma keeps_event_item_body client event_item :
  keeps (event_item_body client event_item).
Proof.
  unfold Legistar.event_item_body.
  apply keeps_bind; [apply keeps_lift|]. intros event_item_id.
  apply keeps_bind; [apply keeps_request|]. intros response.
  apply keeps_bind; [apply keeps_lift|]. intros votes.
  apply keeps_bind; [apply keeps_lift|]. intros event_item1.
  apply keeps_bind; [apply keeps_lift|]. intros votes1.
  apply keeps_bind.
  { apply keeps_for_in. intros. apply keeps_attach_person. }
  intros votes2.
  apply keeps_bind; [apply keeps_lift|]. intros event_item2.
  apply keeps_bind; [apply keeps_lift|]. intros matter_id.
  destruct (Legistar.int_of matter_id) as [n|]; [|apply keeps_lift].
  destruct (n <? 0); [apply keeps_lift|].
  apply keeps_bind; [apply keeps_request|]. intros response2.
  apply keeps_bind; [apply keeps_lift|]. intros sponsors.
  apply keeps_bind.
  { apply keeps_for_in. intros. apply keeps_attach_person. }
  intros. apply keeps_lift.
Qed.

Lemma keeps_event_body client event : keeps (event_body client event).
Proof.
  unfold Legistar.event_body.
  apply keeps_bind; [apply keeps_lift|]. intros event_id.
  apply keeps_bind; [apply keeps_request|]. intros response.
  apply keeps_bind; [apply keeps_lift|]. intros event_items.
  apply keeps_bind; [apply keeps_lift|]. intros event1.
  apply keeps_bind; [apply keeps_lift|]. intros body_id.
  apply keeps_bind; [apply keeps_get_legistar_body|]. intros body.
  apply keeps_bind; [apply keeps_lift|]. intros event2.
  apply keeps_bind; [apply keeps_lift|]. intros event_items2.
  apply keeps_bind.
  { apply keeps_for_in. intros. apply keeps_event_item_body. }
  intros. apply keeps_lift.
Qed.

Lemma with_entry_weaken cache cache' id target x :
  cache ⊆ cache' ->
  Legistar.with_entry cache id target x ->
  Legistar.with_entry cache' id target x.
Proof.
  intros Hsub (entries & x_id & value & k & -> & Hid & Ht & Hk & Hin).
  exists entries, x_id, value, k. repeat split; auto.
  eapply lookup_weaken; eassumption.
Qed.

Lemma event_item_complete_weaken cache cache' x :
  cache ⊆ cache' ->
  Legistar.event_item_complete cache x ->
  Legistar.event_item_complete cache' x.
Proof.
  intros Hsub (entries & votes & sponsors & -> & Hv & Hs & Hvs & Hss).
  exists entries, votes, sponsors. repeat split; auto.
  - intros items Hi. eapply Forall_impl; [apply Hvs, Hi|].
    intros ?. apply with_entry_weaken, Hsub.
  - intros items Hi. eapply Forall_impl; [apply Hss, Hi|].
    intros ?. apply with_entry_weaken, Hsub.
Qed.

Lemma event_complete_weaken (st st' : state) x :
  caches_kept st st' ->
  Legistar.event_complete World st x -> Legistar.event_complete World st' x.
Proof.
  intros [Hp Hb] [Hbody (entries & event_items & -> & Hi & Hall)].
  split; [eapply with_entry_weaken; eassumption|].
  exists entries, event_items. repeat split; auto.
  intros items Hit. eapply Forall_impl; [apply Hall, Hit|].
  intros ?. apply event_item_complete_weaken, Hp.
Qed.

(** A loop whose body establishes [R] for its item, where [R] still holds
    when the caches grow, establishes [R] for every item. *)
Lemma for_each_returns (body : json -> M json) (R : state -> json -> Prop) :
  (forall x, keeps (body x)) ->
  (forall st st' x, caches_kept st st' -> R st x -> R st' x) ->
  (forall x st x' st', body x st = (Py.Return x', st') -> R st' x') ->
  forall items st items' st',
    for_each body items st = (Py.Return items', st') ->
    Forall (R st') items'.
Proof.
  intros Hk Hmono Hbody. induction items as [|x rest IH];
    intros st items' st'; simpl.
  - intros [= <- <-]. constructor.
  - intros H. apply bind_returns in H as (x' & st1 & Hx & H).
    apply bind_returns in H as (rest' & st2 & Hrest & H).
    injection H as <- <-. constructor.
    + eapply Hmono; [|eapply Hbody, Hx].
      eapply keeps_for_each; [exact Hk|exact Hrest].
    + eapply IH, Hrest.
Qed.

Lemma for_in_returns (body : json -> M json) (R : state -> json -> Prop) :
  (forall x, keeps (body x)) ->
  (forall st st' x, caches_kept st st' -> R st x -> R st' x) ->
  (forall x st x' st', body x st = (Py.Return x', st') -> R st' x') ->
  forall container st container' st',
    for_in body container st = (Py.Return container', st') ->
    forall items, container' = JList items -> Forall (R st') items.
Proof.
  intros Hk Hmono Hbody container st container' st' H items ->.
  assert (Hother :
            bind (lift (Py.iterate container))
              (fun items =>
                 bind (for_each body items)
                   (fun _ => Legistar.ret World container)) st
            = (Py.Return (JList items), st') ->
            container = JList items).
  { intros H'. apply bind_returns in H' as (its & st1 & _ & H').
    apply bind_returns in H' as (its' & st2 & _ & H').
    injection H' as -> _. reflexivity. }
  destruct container as [| | | |its|];
    try (apply Hother in H; discriminate H).
  unfold Legistar.for_in in H.
  apply bind_returns in H as (its' & st1 & Hf & H).
  injection H as <- <-.
  eapply for_each_returns; eassumption.
Qed.

Lemma setitem_returns x k v x' :
  Legistar.setitem x k v = Py.Return x' ->
  exists entries, x = JDict entries /\ x' = JDict (Py.dict_set k v entries).
Proof. destruct x; try discriminate. intros [= <-]. eauto. Qed.

Lemma subscript_returns x k v :
  Py.subscript x k = Py.Return v ->
  exists entries, x = JDict entries /\ Py.dict_get k entries = Some v.
Proof.
  destruct x as [| | | | |entries]; try discriminate. simpl.
  destruct (Py.dict_get k entries) as [v'|] eqn:E; [|discriminate].
  intros [= <-]. exists entries. split; [reflexivity|exact E].
Qed.

Lemma attach_person_returns client id target x (st : state) x' st' :
  id <> target ->
  attach_person client id target x st = (Py.Return x', st') ->
  Legistar.with_entry (persons st') id target x'.
Proof.
  intros Hne H. unfold Legistar.attach_person in H.
  apply bind_returns in H as (person_id & st1 & Hs & H).
  apply lift_returns in Hs as [Hs ->].
  apply bind_returns in H as (person & st2 & Hp & H).
  apply lift_returns in H as [H ->].
  apply subscript_returns in Hs as (entries & -> & Hid).
  apply setitem_returns in H as (entries' & [= <-] & ->).
  apply get_legistar_person_post in Hp as (_ & _ & Hc & _).
  destruct (Hc eq_refl person eq_refl) as (k & Hk & Hin).
  exists (Py.dict_set target person entries), person_id, person, k.
  split; [reflexivity|]. split; [|split; [|auto]].
  - rewrite dict_get_set_ne; [exact Hid|exact Hne].
  - apply dict_get_set.
Qed.

Lemma event_item_body_returns client event_item (st : state) x' st' :
  event_item_body client event_item st = (Py.Return x', st') ->
  Legistar.event_item_complete (persons st') x'.
Proof.
  intros H. unfold Legistar.event_item_body in H.
  apply bind_returns in H as (event_item_id & st1 & Hs & H).
  apply lift_returns in Hs as [_ ->].
  apply bind_returns in H as (response & st1 & _ & H).
  apply bind_returns in H as (votes & st2 & Hs & H).
  apply lift_returns in Hs as [_ ->].
  apply bind_returns in H as (event_item1 & st2 & Hs & H).
  apply lift_returns in Hs as [Hs1 ->].
  apply bind_returns in H as (votes1 & st2 & Hs & H).
  apply lift_returns in Hs as [_ ->].
  apply bind_returns in H as (votes2 & st2 & Hvotes & H).
  apply bind_returns in H as (event_item2 & st3 & Hs & H).
  apply lift_returns in Hs as [Hs2 ->].
  apply bind_returns in H as (matter_id & st3 & Hs & H).
  apply lift_returns in Hs as [_ ->].
  apply setitem_returns in Hs1 as (entries & -> & ->).
  apply setitem_returns in Hs2 as (entries1 & [= <-] & ->).
  set (entries2 := Py.dict_set "EventItemVoteInfo" votes2
                     (Py.dict_set "EventItemVoteInfo" votes entries)) in *.
  assert (Hv2 : Py.dict_get "EventItemVoteInfo" entries2 = Some votes2)
    by apply dict_get_set.
  assert (Hvotes2 : forall st3 : state, caches_kept st2 st3 ->
            forall items, votes2 = JList items ->
              Forall (Legistar.with_entry (persons st3) "VotePersonId"
                        "PersonInfo") items).
  { intros st3 [Hp _] items Hi.
    eapply Forall_impl.
    - eapply (for_in_returns _
               (fun st x => Legistar.with_entry (persons st) "VotePersonId"
                              "PersonInfo" x)); [| | |exact Hvotes|exact Hi].
      + intros. apply keeps_attach_person.
      + intros sa sb x [Hpp _]. apply with_entry_weaken, Hpp.
      + intros x sa xa sb. apply attach_person_returns. discriminate.
    - intros x. apply with_entry_weaken, Hp. }
  assert (Hnone : forall (st3 : state) x',
            caches_kept st2 st3 ->
            Legistar.setitem (JDict entries2)
              Legistar.LEGISTAR_MATTER_SPONSORS JNull = Py.Return x' ->
            Legistar.event_item_complete (persons st3) x').
  { intros st3 y Hk [= <-].
    exists (Py.dict_set Legistar.LEGISTAR_MATTER_SPONSORS JNull entries2),
      votes2, JNull.
    split; [reflexivity|]. split; [|split; [|split]].
    - rewrite dict_get_set_ne; [exact Hv2|discriminate].
    - apply dict_get_set.
    - apply Hvotes2, Hk.
    - intros items [=]. }
  destruct (Legistar.int_of matter_id) as [n|].
  2:{ apply lift_returns in H as [H ->].
      eapply Hnone; [apply caches_kept_refl|exact H]. }
  destruct (n <? 0).
  { apply lift_returns in H as [H ->].
    eapply Hnone; [apply caches_kept_refl|exact H]. }
  apply bind_returns in H as (response2 & st3 & Hr & H).
  apply keeps_request in Hr.
  apply bind_returns in H as (sponsors & st4 & Hs & H).
  apply lift_returns in Hs as [_ ->].
  apply bind_returns in H as (sponsors2 & st4 & Hsp & H).
  apply lift_returns in H as [H ->].
  injection H as <-.
  exists (Py.dict_set Legistar.LEGISTAR_MATTER_SPONSORS sponsors2 entries2),
    votes2, sponsors2.
  split; [reflexivity|]. split; [|split; [|split]].
  - rewrite dict_get_set_ne; [exact Hv2|discriminate].
  - apply dict_get_set.
  - apply Hvotes2. eapply caches_kept_trans; [exact Hr|].
    eapply keeps_for_in; [|exact Hsp]. intros. apply keeps_attach_person.
  - intros items Hi.
    eapply (for_in_returns _
              (fun st x => Legistar.with_entry (persons st)
                             "MatterSponsorNameId"
                             Legistar.LEGISTAR_SPONSOR_PERSON x));
      [| | |exact Hsp|exact Hi].
    + intros. apply keeps_attach_person.
    + intros sa sb x [Hpp _]. apply with_entry_weaken, Hpp.
    + intros x sa xa sb. apply attach_person_returns. discriminate.
Qed.

Lemma event_body_returns client event (st : state) x' st' :
  event_body client event st = (Py.Return x', st') ->
  Legistar.event_complete World st' x'.
Proof.
  intros H. unfold Legistar.event_body in H.
  apply bind_returns in H as (event_id & st1 & Hs & H).
  apply lift_returns in Hs as [_ ->].
  apply bind_returns in H as (response & st1 & _ & H).
  apply bind_returns in H as (event_items & st2 & Hs & H).
  apply lift_returns in Hs as [_ ->].
  apply bind_returns in H as (event1 & st2 & Hs & H).
  apply lift_returns in Hs as [Hs1 ->].
  apply bind_returns in H as (body_id & st2 & Hs & H).
  apply lift_returns in Hs as [Hid ->].
  apply bind_returns in H as (body & st2 & Hbody & H).
  apply bind_returns in H as (event2 & st3 & Hs & H).
  apply lift_returns in Hs as [Hs2 ->].
  apply bind_returns in H as (event_items2 & st3 & Hs & H).
  apply lift_returns in Hs as [_ ->].
  apply bind_returns in H as (event_items3 & st3 & Hitems & H).
  apply lift_returns in H as [Hs3 ->].
  apply setitem_returns in Hs1 as (entries & -> & ->).
  apply subscript_returns in Hid as (entries1 & [= <-] & Hid).
  apply setitem_returns in Hs2 as (entries2 & [= <-] & ->).
  apply setitem_returns in Hs3 as (entries3 & [= <-] & ->).
  apply get_legistar_body_post in Hbody as (_ & _ & _ & Hc).
  destruct (Hc eq_refl body eq_refl) as (k & Hk & Hin).
  assert (Hkept : caches_kept st2 st3).
  { eapply keeps_for_in; [|exact Hitems]. intros.
    apply keeps_event_item_body. }
  split.
  - eexists _, body_id, body, k. split; [reflexivity|].
    split; [|split; [|split; [exact Hk|]]].
    + rewrite dict_get_set_ne by discriminate.
      rewrite dict_get_set_ne by discriminate. exact Hid.
    + rewrite dict_get_set_ne by discriminate. apply dict_get_set.
    + destruct Hkept as [_ Hb]. eapply lookup_weaken; eassumption.
  - eexists _, event_items3. split; [reflexivity|].
    split; [apply dict_get_set|]. intros items Hi.
    eapply (for_in_returns _
              (fun st x => Legistar.event_item_complete (persons st) x));
      [| | |exact Hitems|exact Hi].
    + intros. apply keeps_event_item_body.
    + intros sa sb x [Hpp _]. apply event_item_complete_weaken, Hpp.
    + intros x sa xa sb. apply event_item_body_returns.
Qed.

(** X23. What [get_legistar_events_for_timespan] returns: when the answer
    of the server is a list of events, every event of the result has its
    ["EventItems"] and, under ["EventBodyInfo"], the entry of its
    ["EventBodyId"] in [known_legistar_bodies]; every event item has its
    ["EventItemVoteInfo"] and its ["MatterSponsorInfo"]; and every vote and
    every sponsor carries the entry of its person id in
    [known_legistar_persons], as the caches are when the call returns. *)
Theorem legistar_events_complete client begin end_ (st : state)
    response st' :
  get_legistar_events_for_timespan client begin end_ st
  = (Py.Return response, st') ->
  forall events, response = JList events ->
    Forall (Legistar.event_complete World st') events.
Proof.
  intros H events Hev. unfold Legistar.get_legistar_events_for_timespan in H.
  apply bind_returns in H as (b & st1 & _ & H).
  apply bind_returns in H as (e & st2 & _ & H).
  apply bind_returns in H as (u & st3 & _ & H).
  apply bind_returns in H as (r & st4 & _ & H).
  apply bind_returns in H as (events0 & st5 & _ & H).
  eapply (for_in_returns _ (Legistar.event_complete World));
    [| | |exact H|exact Hev].
  - intros. apply keeps_event_body.
  - intros sa sb x. apply event_complete_weaken.
  - intros x sa xa sb. apply event_body_returns.
Qed.

(** X24. The caches are emptied at the start of every call: the result,
    and the state the call leaves, do not depend on what the caches held
    before. *)
Theorem legistar_events_start_afresh client begin end_ (st : state)
    (known_persons known_bodies : gmap Legistar.key json) :
  get_legistar_events_for_timespan client begin end_
    {| Legistar.known_legistar_persons := known_persons;
       Legistar.known_legistar_bodies := known_bodies;
       Legistar.world := Legistar.world World st |}
  = get_legistar_events_for_timespan client begin end_ st.
Proof.
  unfold Legistar.get_legistar_events_for_timespan, Legistar.bind,
    Legistar.now, Legistar.ret, Legistar.clear_caches.
  destruct begin as [b|], end_ as [e|]; simpl;
    repeat (destruct (utcnow _) as [? ?]; simpl); reflexivity.
Qed.

End legistar_events_facts.

(** ** [parse_static_file] *)

Section parse_static_file_facts.
Variable read_json : string -> Py.outcome json.
Variable Seat_from_dict : json -> heap -> Py.outcome (Seat * heap).
Variable Person_from_dict : list (string * json) -> Py.outcome Person.
Variable Role_from_dict : list (string * json) -> Py.outcome Role.
Variable Body_from_dict : json -> Py.outcome Body.

#[local] Abbreviation parse_seats := (parse_seats Seat_from_dict).
#[local] Abbreviation parse_persons :=
  (parse_persons Person_from_dict Role_from_dict Body_from_dict).

Lemma parse_seats_spec items : forall seats h seats' h',
  creates_seat Seat_from_dict ->
  parse_seats items seats h = Py.Return (seats', h') ->
  seats_below seats h ->
  (next h <= next h')%nat /\
  (forall r, (r < next h)%nat -> objects h' r = objects h r) /\
  seats_below seats' h' /\
  (creates_titled_roles Seat_from_dict ->
   (forall s template r,
       seats !! s = Some template ->
       In r (default [] (roles template)) -> titled (objects h) r) ->
   forall s template r,
     seats' !! s = Some template ->
     In r (default [] (roles template)) -> titled (objects h') r).
Proof.
  induction items as [|[seat_name seat_json] rest IH];
    intros seats h seats' h' Hc H Hb; simpl in H.
  - injection H as <- <-. auto.
  - destruct (Seat_from_dict seat_json h) as [[s h1]|] eqn:Es;
      [|discriminate].
    simpl in H. destruct (Hc _ _ _ _ Es) as (Hn & Hf & Hr).
    apply IH in H as (Hn2 & Hf2 & Hb2 & Ht2); [|exact Hc|].
    + split; [lia|]. split; [|split; [exact Hb2|]].
      { intros r Hlt. rewrite Hf2 by lia. apply Hf, Hlt. }
      intros Hct Ht. apply Ht2; [exact Hct|].
      intros s0 template r Hl Hin.
      destruct (decide (s0 = seat_name)) as [->|Hne].
      * rewrite lookup_insert_eq in Hl. injection Hl as <-.
        eapply Hct; eassumption.
      * rewrite lookup_insert_ne in Hl by congruence.
        unfold titled. rewrite Hf by (eapply Hb; eassumption).
        eapply Ht; eassumption.
    + intros s0 template r Hl Hin.
      destruct (decide (s0 = seat_name)) as [->|Hne].
      * rewrite lookup_insert_eq in Hl. injection Hl as <-.
        apply Hr in Hin. lia.
      * rewrite lookup_insert_ne in Hl by congruence.
        specialize (Hb _ _ _ Hl Hin). lia.
Qed.

(** Parsing a person creates the roles of its seat and changes no object
    that exists. *)
Lemma parse_static_person_heap person_json seats bodies h p h' :
  decodes_no_seat Person_from_dict ->
  seats_below seats h ->
  parse_static_person Person_from_dict Role_from_dict Body_from_dict
    person_json seats bodies h = Py.Return (p, h') ->
  (next h <= next h')%nat /\
  (forall r, (r < next h)%nat -> objects h' r = objects h r) /\
  (forall r, In r (seat_roles_of p) -> (next h <= r < next h')%nat) /\
  (decodes_title Role_from_dict ->
   (forall s template r,
       seats !! s = Some template ->
       In r (default [] (roles template)) -> titled (objects h) r) ->
   forall r, In r (seat_roles_of p) -> titled (objects h') r).
Proof.
  intros Hns Hb H.
  assert (Hplain :
            forall person0,
              Person_from_dict
                (Py.dict_without ["seat"; "roles"] person_json)
              = Py.Return person0 ->
              p = person0 -> h' = h ->
              (next h <= next h')%nat /\
              (forall r, (r < next h)%nat -> objects h' r = objects h r) /\
              (forall r, In r (seat_roles_of p) ->
                         (next h <= r < next h')%nat) /\
              (decodes_title Role_from_dict ->
               (forall s template r,
                   seats !! s = Some template ->
                   In r (default [] (roles template)) -> titled (objects h) r) ->
               forall r, In r (seat_roles_of p) -> titled (objects h') r)).
  { intros person0 Ep -> ->.
    assert (Hnone : seat person0 = None).
    { apply (Hns _ _
               (dict_get_without_in "seat" ["seat"; "roles"] person_json
                  eq_refl) Ep). }
    unfold seat_roles_of. rewrite Hnone. simpl.
    split; [lia|]. split; [auto|]. split; [intros r []|].
    intros _ _ r []. }
  destruct (Py.dict_get "seat" person_json) as [seat_name|] eqn:Es.
  2:{ unfold parse_static_person in H.
      destruct (Py.subscript (JDict person_json) "name"); [|discriminate].
      simpl in H.
      destruct (Person_from_dict _) as [person0|] eqn:Ep; [|discriminate].
      simpl in H. rewrite Es in H. injection H as <- <-.
      eapply Hplain; eauto. }
  assert (Hunknown :
            (forall s, seat_name = JStr s -> seats !! s = None) ->
            (next h <= next h')%nat /\
            (forall r, (r < next h)%nat -> objects h' r = objects h r) /\
            (forall r, In r (seat_roles_of p) ->
                       (next h <= r < next h')%nat) /\
            (decodes_title Role_from_dict ->
             (forall s template r,
                 seats !! s = Some template ->
                 In r (default [] (roles template)) -> titled (objects h) r) ->
             forall r, In r (seat_roles_of p) -> titled (objects h') r)).
  { intros Hu. unfold parse_static_person in H.
    destruct (Py.subscript (JDict person_json) "name"); [|discriminate].
    simpl in H.
    destruct (Person_from_dict _) as [person0|] eqn:Ep; [|discriminate].
    simpl in H. rewrite Es in H.
    destruct seat_name as [| | |s| |]; simpl in H; try discriminate H;
      try (injection H as <- <-; eapply Hplain; eauto).
    rewrite (Hu s eq_refl) in H. injection H as <- <-.
    eapply Hplain; eauto. }
  destruct seat_name as [| | |s| |]; try (apply Hunknown; discriminate).
  destruct (seats !! s) as [template|] eqn:Ek.
  2:{ apply Hunknown. intros ? [= <-]. exact Ek. }
  destruct (parse_static_person_known_seat Person_from_dict Role_from_dict
              Body_from_dict _ _ _ _ _ _ _ _ Es Ek
              (fun r => Hb s template r Ek) H)
    as (ps & copies & parsed & H1 & H2 & H3 & Hn & Hf & _ & Hall).
  split; [exact Hn|]. split; [exact Hf|].
  unfold seat_roles_of. rewrite H1. simpl. rewrite H2. split.
  - intros r Hr. apply in_app_or in Hr as [Hr|Hr].
    + clear -H3 Hr. induction H3 as [|a b ? ? [Hab _] _ IH]; [destruct Hr|].
      destruct Hr as [<-|Hr]; [exact Hab|auto].
    + apply Hall, Hr.
  - intros Hdec Ht r Hr. apply in_app_or in Hr as [Hr|Hr].
    + assert (Hsrc : forall r0, In r0 (default [] (roles template)) ->
                                titled (objects h) r0).
      { intros r0. apply (Ht s template r0 Ek). }
      clear -H3 Hr Hsrc.
      induction H3 as [|a b ? ? [_ Hab] _ IH]; [destruct Hr|].
      destruct Hr as [<-|Hr].
      * unfold titled. rewrite Hab. apply Hsrc. left. reflexivity.
      * apply IH; [exact Hr|]. intros r0 Hr0. apply Hsrc. right. exact Hr0.
    + destruct (Hall r Hr) as [_ Hp]. destruct (Hp Hdec) as (t & b & Ht' & Hin & _).
      exists t. auto.
Qed.

Lemma parse_persons_spec seats bodies items : forall known h known' h' lo,
  decodes_no_seat Person_from_dict ->
  seats_below seats h ->
  (lo <= next h)%nat ->
  persons_apart lo (next h) known ->
  parse_persons items seats bodies known h = Py.Return (known', h') ->
  (next h <= next h')%nat /\
  (forall r, (r < next h)%nat -> objects h' r = objects h r) /\
  persons_apart lo (next h') known' /\
  (decodes_title Role_from_dict ->
   (forall s template r,
       seats !! s = Some template ->
       In r (default [] (roles template)) -> titled (objects h) r) ->
   (forall n p r, known !! n = Some p -> In r (seat_roles_of p) ->
                  titled (objects h) r) ->
   forall n p r, known' !! n = Some p -> In r (seat_roles_of p) ->
                 titled (objects h') r).
Proof.
  induction items as [|[person_name person] rest IH];
    intros known h known' h' lo Hns Hb Hlo Hap H; simpl in H.
  - injection H as <- <-. split; [lia|]. split; [auto|]. split; [exact Hap|].
    intros _ _ Hk. exact Hk.
  - destruct (parse_person Person_from_dict Role_from_dict Body_from_dict
                person seats bodies h) as [[p h1]|] eqn:Ep;
      [|discriminate].
    simpl in H. unfold parse_person in Ep.
    destruct person as [| | | | |person_json]; try discriminate Ep.
    destruct (parse_static_person_heap _ _ _ _ _ _ Hns Hb Ep)
      as (Hn1 & Hf1 & Hr1 & Ht1).
    assert (Hb1 : seats_below seats h1).
    { intros s template r Hs Hr. specialize (Hb _ _ _ Hs Hr). lia. }
    assert (Hap1 : persons_apart lo (next h1) (<[person_name:=p]> known)).
    { destruct Hap as [Hrange Hdis]. split.
      - intros n q r Hq Hr.
        destruct (decide (n = person_name)) as [->|Hne].
        + rewrite lookup_insert_eq in Hq. injection Hq as <-.
          apply Hr1 in Hr. lia.
        + rewrite lookup_insert_ne in Hq by congruence.
          specialize (Hrange _ _ _ Hq Hr). lia.
      - intros n1 n2 p1 p2 r Hne H1 H2 Hin1 Hin2.
        destruct (decide (n1 = person_name)) as [->|Hne1];
          destruct (decide (n2 = person_name)) as [->|Hne2];
          try congruence.
        + rewrite lookup_insert_eq in H1. injection H1 as <-.
          rewrite lookup_insert_ne in H2 by congruence.
          apply Hr1 in Hin1. specialize (Hrange _ _ _ H2 Hin2). lia.
        + rewrite lookup_insert_eq in H2. injection H2 as <-.
          rewrite lookup_insert_ne in H1 by congruence.
          apply Hr1 in Hin2. specialize (Hrange _ _ _ H1 Hin1). lia.
        + rewrite lookup_insert_ne in H1 by congruence.
          rewrite lookup_insert_ne in H2 by congruence.
          exact (Hdis _ _ _ _ _ Hne H1 H2 Hin1 Hin2). }
    destruct (IH _ _ _ _ lo Hns Hb1 ltac:(lia) Hap1 H)
      as (Hn2 & Hf2 & Hap2 & Ht2).
    split; [lia|]. split.
    { intros r Hr. rewrite Hf2 by lia. apply Hf1, Hr. }
    split; [exact Hap2|].
    intros Hdec Hts Htk. apply Ht2; [exact Hdec| |].
    + intros s template r Hs Hr. unfold titled.
      rewrite Hf1 by (eapply Hb; eassumption). eapply Hts; eassumption.
    + intros n q r Hq Hr.
      destruct (decide (n = person_name)) as [->|Hne].
      * rewrite lookup_insert_eq in Hq. injection Hq as <-.
        apply Ht1; assumption.
      * rewrite lookup_insert_ne in Hq by congruence.
        unfold titled. destruct Hap as [Hrange _].
        rewrite Hf1 by (specialize (Hrange _ _ _ Hq Hr); lia).
        eapply Htk; eassumption.
Qed.

Lemma parse_static_file_inv file_path h seats sd h' :
  creates_seat Seat_from_dict ->
  decodes_no_seat Person_from_dict ->
  parse_static_file read_json Seat_from_dict Person_from_dict
    Role_from_dict Body_from_dict file_path h = Py.Return (seats, sd, h') ->
  exists h1,
    seats_below seats h1 /\ (next h1 <= next h')%nat /\
    (forall r, (r < next h1)%nat -> objects h' r = objects h1 r) /\
    persons_apart (next h1) (next h') (persons sd) /\
    (creates_titled_roles Seat_from_dict ->
     decodes_title Role_from_dict ->
     forall n p r, persons sd !! n = Some p -> In r (seat_roles_of p) ->
                   titled (objects h') r).
Proof.
  intros Hc Hns H. unfold parse_static_file in H.
  destruct (read_json file_path) as [static_json|]; [|discriminate].
  simpl in H.
  destruct (top_level "seats" static_json) as [seat_items|]; [|discriminate].
  simpl in H.
  destruct (parse_seats seat_items ∅ h) as [[seats0 h1]|] eqn:Es;
    [|discriminate].
  simpl in H.
  destruct (top_level "primary_bodies" static_json) as [body_items|];
    [|discriminate].
  simpl in H.
  destruct (parse_bodies Body_from_dict body_items ∅) as [bodies|];
    [|discriminate].
  simpl in H.
  destruct (top_level "persons" static_json) as [person_items|];
    [|discriminate].
  simpl in H.
  destruct (parse_persons person_items seats0 bodies ∅ h1)
    as [[known h2]|] eqn:Ep; [|discriminate].
  simpl in H. injection H as <- <- <-. simpl.
  destruct (parse_seats_spec _ _ _ _ _ Hc Es) as (_ & _ & Hb & Hts).
  { intros s template r Hl. rewrite lookup_empty in Hl. discriminate. }
  destruct (parse_persons_spec _ _ _ _ _ _ _ (next h1) Hns Hb
              ltac:(lia) ltac:(split; intros *; rewrite ?lookup_empty;
                               discriminate) Ep)
    as (Hn & Hf & Hap & Ht).
  exists h1. split; [exact Hb|]. split; [exact Hn|]. split; [exact Hf|].
  split; [exact Hap|].
  intros Hct Hdec. apply Ht; [exact Hdec| |].
  - apply Hts; [exact Hct|]. intros s template r Hl.
    rewrite lookup_empty in Hl. discriminate.
  - intros n p r Hl. rewrite lookup_empty in Hl. discriminate.
Qed.

(** X25. No role object is shared in the static data of a file: two
    persons never have a role in common, also when they sit on the same
    seat, and no person has a role of a seat of ["seats"] itself (the
    person's seat is a copy).  Changing a role of one person, as
    [sanitize_roles] does, cannot change another person's or a seat's. *)
Theorem parse_static_file_roles_apart file_path h seats sd h' :
  creates_seat Seat_from_dict ->
  decodes_no_seat Person_from_dict ->
  parse_static_file read_json Seat_from_dict Person_from_dict
    Role_from_dict Body_from_dict file_path h = Py.Return (seats, sd, h') ->
  (forall n1 n2 p1 p2 r,
      n1 <> n2 ->
      persons sd !! n1 = Some p1 -> persons sd !! n2 = Some p2 ->
      In r (seat_roles_of p1) -> ~ In r (seat_roles_of p2)) /\
  (forall n p s template r,
      persons sd !! n = Some p -> seats !! s = Some template ->
      In r (seat_roles_of p) -> ~ In r (default [] (roles template))).
Proof.
  intros Hc Hns H.
  destruct (parse_static_file_inv _ _ _ _ _ Hc Hns H)
    as (h1 & Hb & _ & _ & [Hrange Hdis] & _).
  split; [exact Hdis|].
  intros n p s template r Hp Hs Hin Hin'.
  specialize (Hrange _ _ _ Hp Hin). specialize (Hb _ _ _ Hs Hin'). lia.
Qed.

End parse_static_file_facts.

Section parse_static_file_use.
Variable read_json : string -> Py.outcome json.
Variable Seat_from_dict : json -> heap -> Py.outcome (Seat * heap).
Variable Person_from_dict : list (string * json) -> Py.outcome Person.
Variable Role_from_dict : list (string * json) -> Py.outcome Role.
Variable Body_from_dict : json -> Py.outcome Body.

(** X26. From the file to the sanitized roles: with the static data that
    [parse_static_file] returns, every role that [sanitize_roles] returns,
    for any person and any scraped roles, has a title of [RoleTitle],
    provided the decoders keep to it ([Role.from_dict] keeps the title of
    the entry and the roles of the file's seats have such titles). *)
Theorem parse_static_file_titles_closed file_path h seats sd h'
    str_simplified today person_name council_pres_patterns chair_patterns
    scraped σ' out :
  creates_seat Seat_from_dict ->
  creates_titled_roles Seat_from_dict ->
  decodes_no_seat Person_from_dict ->
  decodes_title Role_from_dict ->
  parse_static_file read_json Seat_from_dict Person_from_dict
    Role_from_dict Body_from_dict file_path h = Py.Return (seats, sd, h') ->
  sanitize_roles str_simplified today person_name (Some sd)
    council_pres_patterns chair_patterns scraped (objects h')
  = Ok (σ', Some out) ->
  forall r, In r out -> titled σ' r.
Proof.
  intros Hc Hct Hns Hdec H Hrun.
  destruct (parse_static_file_inv _ _ _ _ _ _ _ _ _ _ Hc Hns H)
    as (h1 & _ & _ & _ & _ & Ht).
  eapply titles_closed_after_run; [exact Hrun|].
  intros r Hr.
  unfold appended_static_roles, have_primary_roles, static_roles in Hr.
  simpl in Hr.
  destruct (persons sd !! person_name) as [p|] eqn:Ep; simpl in Hr;
    [|destruct Hr].
  apply (Ht Hct Hdec person_name p r Ep). unfold seat_roles_of.
  destruct (seat p) as [s|]; simpl in *; [|destruct Hr].
  destruct (roles s) as [rs|]; simpl in *; [|destruct Hr].
  destruct (bool_decide _); [exact Hr|destruct Hr].
Qed.

End parse_static_file_use.

(** ** The properties above on the examples *)

Lemma sanitize_roles_keeps_order_witness :
  let run :=
    sanitize_roles Example.str_simplified (Example.day 7) "Jane" None
      default_council_pres_patterns default_chair_patterns
      (Some [0; 1; 2; 3]%nat) Example.scraped in
  let σ' := returned_store run Example.scraped in
  run = Ok (σ', Some [0; 1; 2]%nat) /\
  [0; 1; 2]%nat
  = (List.filter
       (keeps Example.str_simplified (Example.day 7) "Jane" None
          Example.scraped) [0; 1; 2; 3]%nat
     ++ appended_static_roles "Jane" None)%list.
Proof.
  intros run σ'.
  assert (Hrun : run = Ok (σ', Some [0; 1; 2]%nat)) by reflexivity.
  split; [exact Hrun|].
  exact (proj1 (sanitize_roles_keeps_order _ _ _ _ _ _ _ _ _ _ Hrun)).
Defined.

Lemma sanitize_roles_council_titles_witness :
  let run :=
    sanitize_roles Example.str_simplified (Example.day 7) "Jane" None
      default_council_pres_patterns default_chair_patterns
      (Some [0; 1; 2; 3]%nat) Example.scraped in
  let σ' := returned_store run Example.scraped in
  run = Ok (σ', Some [0; 1; 2]%nat) /\
  (_is_primary_body Example.str_simplified None (σ' 2%nat) = true <->
   title (σ' 2%nat) = Some RoleTitle.COUNCILMEMBER \/
   title (σ' 2%nat) = Some RoleTitle.COUNCILPRESIDENT).
Proof.
  intros run σ'.
  assert (Hrun : run = Ok (σ', Some [0; 1; 2]%nat)) by reflexivity.
  split; [exact Hrun|].
  destruct (sanitize_roles_council_titles _ _ _ _ _ _ _ _ _ _ Hrun)
    as (kept & Hk & _ & H).
  vm_compute in Hk. injection Hk as <-.
  apply H. simpl. auto.
Defined.

Lemma sanitize_roles_ends_move_earlier_witness :
  let run :=
    sanitize_roles Example.str_simplified (Example.day 7) "Jane" None
      default_council_pres_patterns default_chair_patterns
      (Some [0; 1; 2; 3]%nat) Example.scraped in
  let σ' := returned_store run Example.scraped in
  run = Ok (σ', Some [0; 1; 2]%nat) /\
  end_datetime (Example.scraped 0%nat) = Some (Example.day 10) /\
  end_datetime (σ' 0%nat) = Some (Example.day 4) /\
  (end_datetime (σ' 0%nat) = end_datetime (Example.scraped 0%nat) \/
   exists x s e,
     In 0%nat [0; 1; 2]%nat /\ In x [0; 1; 2]%nat /\
     title (σ' 0%nat) = Some RoleTitle.COUNCILMEMBER /\
     title (σ' x) = Some RoleTitle.COUNCILMEMBER /\
     body_name (σ' 0%nat) = body_name (σ' x) /\
     end_datetime (Example.scraped 0%nat) = Some e /\
     start_datetime (Example.scraped x) = Some s /\
     s < e /\ end_datetime (σ' 0%nat) = Some (s - one_day) /\
     s - one_day < e).
Proof.
  intros run σ'.
  assert (Hrun : run = Ok (σ', Some [0; 1; 2]%nat)) by reflexivity.
  split; [exact Hrun|]. split; [reflexivity|]. split; [reflexivity|].
  exact (sanitize_roles_ends_move_earlier _ _ _ _ _ _ _ _ _ _ Hrun 0%nat).
Defined.

Lemma sanitize_roles_trusted_periods_witness :
  let run :=
    sanitize_roles Example.str_simplified (Example.day 7) "Jane"
      (Some (Example.static_data [5%nat]))
      default_council_pres_patterns default_chair_patterns
      (Some [0; 1]%nat) Example.with_statics in
  let σ' := returned_store run Example.with_statics in
  run = Ok (σ', Some [1; 5]%nat) /\
  exists s e,
    start_datetime (Example.with_statics 1%nat) = Some s /\
    end_datetime (Example.with_statics 1%nat) = Some e /\
    _is_primary_body Example.str_simplified
      (Some (Example.static_data [5%nat])) (Example.with_statics 1%nat)
    = false /\
    exists static_role,
      In static_role [5%nat] /\
      contains_period Example.with_statics s e static_role = true.
Proof.
  intros run σ'.
  assert (Hrun : run = Ok (σ', Some [1; 5]%nat)) by reflexivity.
  split; [exact Hrun|].
  destruct (sanitize_roles_trusted_periods _ _ _ _ _ _ _ _ _ _ Hrun)
    as (kept & Hk & _ & H).
  vm_compute in Hk. injection Hk as <-.
  destruct (H 1%nat ltac:(simpl; auto))
    as (s & e & Hs & He & _ & _ & Hstatic).
  exists s, e. split; [exact Hs|]. split; [exact He|].
  exact (Hstatic eq_refl).
Defined.

Lemma sanitize_roles_titles_closed_witness :
  let run :=
    sanitize_roles Example.str_simplified (Example.day 7) "Jane"
      (Some (Example.static_data [5%nat]))
      default_council_pres_patterns default_chair_patterns
      (Some [0; 1]%nat) Example.with_statics in
  let σ' := returned_store run Example.with_statics in
  run = Ok (σ', Some [1; 5]%nat) /\
  (exists t, title (σ' 1%nat) = Some t /\ In t role_titles) /\
  (exists t, title (σ' 5%nat) = Some t /\ In t role_titles).
Proof.
  intros run σ'.
  assert (Hrun : run = Ok (σ', Some [1; 5]%nat)) by reflexivity.
  split; [exact Hrun|].
  assert (Hstatic : forall r,
             In r (appended_static_roles "Jane"
                     (Some (Example.static_data [5%nat]))) ->
             exists t, title (Example.with_statics r) = Some t /\
                       In t role_titles).
  { intros r [<-|[]]. exists RoleTitle.COUNCILMEMBER.
    split; [reflexivity|]. simpl. auto. }
  split; apply (sanitize_roles_titles_closed _ _ _ _ _ _ _ _ _ _
                  Hrun Hstatic); simpl; auto.
Defined.

Lemma reduced_list_result_witness :
  reduced_list [Some 1; None; Some 2] true = Some [Some 1; Some 2] /\
  sublist [Some 1; Some 2] [Some 1; None; Some 2] /\
  (reduced_list [None; None] true = @None (list (option Z))).
Proof.
  split; [reflexivity|]. split.
  - apply (proj1 (reduced_list_result [Some 1; None; Some 2] true)
             [Some 1; Some 2] eq_refl).
  - apply (proj2 (reduced_list_result [@None Z; None] true)).
    split; [reflexivity|]. intros item [<-|[<-|[]]]; reflexivity.
Defined.

Lemma reduced_list_again_witness :
  reduced_list [Some 1; None; Some 2] true = Some [Some 1; Some 2] /\
  reduced_list [Some 1; Some 2] true = Some [Some 1; Some 2].
Proof.
  split; [reflexivity|].
  apply (proj1 (reduced_list_again [Some 1; None; Some 2] true)
           [Some 1; Some 2] eq_refl).
Defined.

Lemma StaticExample_decodes_title :
  decodes_title StaticExample.Role_from_dict.
Proof.
  intros d ρ t H Ht. unfold StaticExample.Role_from_dict in H.
  rewrite Ht in H. injection H as <-. reflexivity.
Qed.

Lemma StaticExample_decodes_no_seat :
  decodes_no_seat StaticExample.Person_from_dict.
Proof.
  intros d p _ H. unfold StaticExample.Person_from_dict in H.
  destruct (Py.dict_get "name" d) as [[| | |s| |]|]; try discriminate H.
  injection H as <-. reflexivity.
Qed.

Lemma parse_static_person_roles_witness :
  let run :=
    parse_static_person StaticExample.Person_from_dict
      StaticExample.Role_from_dict StaticExample.Body_from_dict
      StaticExample.jane StaticExample.all_seats
      StaticExample.primary_bodies StaticExample.empty_heap in
  let person := {| seat := Some {| roles := Some [0%nat] |} |} in
  let h' := match run with
            | Py.Return (_, h') => h'
            | Py.Raise _ => StaticExample.empty_heap
            end in
  run = Py.Return (person, h') /\
  exists person_seat copies parsed,
    seat person = Some person_seat /\
    default [] (roles person_seat) = (copies ++ parsed)%list /\
    Forall2 (fun r r' => objects h' r' = objects StaticExample.empty_heap r)
      (default [] (roles {| roles := None |})) copies /\
    forall r, In r parsed ->
              static_role_parsed StaticExample.Body_from_dict
                StaticExample.primary_bodies (objects h' r).
Proof.
  intros run person h'.
  assert (Hrun : run = Py.Return (person, h')) by reflexivity.
  split; [exact Hrun|].
  apply (parse_static_person_roles StaticExample.Person_from_dict
           StaticExample.Role_from_dict StaticExample.Body_from_dict
           StaticExample.jane StaticExample.all_seats
           StaticExample.primary_bodies StaticExample.empty_heap
           person h' "Position 1" {| roles := None |}
           StaticExample_decodes_title eq_refl eq_refl).
  - intros r [].
  - exact Hrun.
Defined.

Lemma parse_static_person_fresh_witness :
  let run :=
    parse_static_person StaticExample.Person_from_dict
      StaticExample.Role_from_dict StaticExample.Body_from_dict
      StaticExample.jane StaticExample.all_seats
      StaticExample.primary_bodies StaticFileExample.scraped_heap in
  exists h',
    run = Py.Return ({| seat := Some {| roles := Some [4%nat] |} |}, h') /\
    next h' = 5%nat /\
    (forall r, (r < 4)%nat -> objects h' r = Example.scraped r).
Proof.
  intros run. eexists. split; [reflexivity|]. split; [reflexivity|].
  refine (proj1 (proj2 (parse_static_person_fresh
           StaticExample.Person_from_dict
           StaticExample.Role_from_dict StaticExample.Body_from_dict
           StaticExample.jane StaticExample.all_seats
           StaticExample.primary_bodies StaticFileExample.scraped_heap
           _ _ _ eq_refl))).
  intros s template r Hs Hr.
  destruct (decide (s = "Position 1")) as [->|Hne].
  - vm_compute in Hs. injection Hs as <-. destruct Hr.
  - unfold StaticExample.all_seats in Hs.
    rewrite lookup_singleton_ne in Hs by congruence. discriminate.
Defined.

Lemma parse_static_person_without_seat_witness :
  let run :=
    parse_static_person StaticExample.Person_from_dict
      StaticExample.Role_from_dict StaticExample.Body_from_dict
      StaticExample.john StaticExample.all_seats
      StaticExample.primary_bodies StaticExample.empty_heap in
  run = Py.Return ({| seat := None |}, StaticExample.empty_heap) /\
  have_primary_roles "John"
    (Some {| primary_bodies := StaticExample.primary_bodies;
             persons := <["John" := {| seat := None |}]> ∅ |}) = false.
Proof.
  intros run.
  assert (Hrun : run = Py.Return ({| seat := None |},
                                  StaticExample.empty_heap))
    by reflexivity.
  split; [exact Hrun|].
  apply (parse_static_person_without_seat StaticExample.Person_from_dict
           StaticExample.Role_from_dict StaticExample.Body_from_dict
           StaticExample.john StaticExample.all_seats
           StaticExample.primary_bodies StaticExample.empty_heap
           _ _ StaticExample_decodes_no_seat (or_introl eq_refl) Hrun).
Defined.

Lemma parse_static_person_returns_witness :
  let run :=
    parse_static_person StaticExample.Person_from_dict
      StaticExample.Role_from_dict StaticExample.Body_from_dict
      StaticExample.jane StaticExample.all_seats
      StaticExample.primary_bodies StaticExample.empty_heap in
  exists h',
    run = Py.Return ({| seat := Some {| roles := Some [0%nat] |} |}, h') /\
    exists n, Py.dict_get "name" StaticExample.jane = Some n.
Proof.
  intros run. eexists. split; [reflexivity|].
  refine (proj1 (parse_static_person_returns StaticExample.Person_from_dict
           StaticExample.Role_from_dict StaticExample.Body_from_dict
           StaticExample.jane StaticExample.all_seats
           StaticExample.primary_bodies StaticExample.empty_heap
           _ _ eq_refl)).
Defined.

Lemma parsed_static_roles_keep_titles_closed_witness :
  let parsed :=
    parse_static_person StaticExample.Person_from_dict
      StaticExample.Role_from_dict StaticExample.Body_from_dict
      StaticExample.jane StaticExample.all_seats
      StaticExample.primary_bodies StaticFileExample.scraped_heap in
  let person := {| seat := Some {| roles := Some [4%nat] |} |} in
  let h' := match parsed with
            | Py.Return (_, h') => h'
            | Py.Raise _ => StaticFileExample.scraped_heap
            end in
  let run :=
    sanitize_roles Example.str_simplified (Example.day 7) "Jane"
      (Some {| primary_bodies := StaticExample.primary_bodies;
               persons := <["Jane" := person]> ∅ |})
      default_council_pres_patterns default_chair_patterns
      (Some [0; 1; 2; 3]%nat) (objects h') in
  let σ' := returned_store run (objects h') in
  parsed = Py.Return (person, h') /\
  run = Ok (σ', Some [4%nat]) /\
  exists t, title (σ' 4%nat) = Some t /\ In t role_titles.
Proof.
  intros parsed person h' run σ'.
  assert (Hparsed : parsed = Py.Return (person, h')) by reflexivity.
  assert (Hrun : run = Ok (σ', Some [4%nat])) by reflexivity.
  split; [exact Hparsed|]. split; [exact Hrun|].
  apply (parsed_static_roles_keep_titles_closed
           StaticExample.Person_from_dict
           StaticExample.Role_from_dict StaticExample.Body_from_dict
           StaticExample.jane StaticExample.all_seats
           StaticExample.primary_bodies StaticFileExample.scraped_heap
           person h' "Position 1" {| roles := None |}
           Example.str_simplified (Example.day 7) "Jane"
           StaticExample.primary_bodies ∅
           default_council_pres_patterns default_chair_patterns
           (Some [0; 1; 2; 3]%nat) σ' [4%nat]
           StaticExample_decodes_title eq_refl eq_refl eq_refl
           Hparsed Hrun).
  simpl. auto.
Defined.

Lemma get_legistar_body_memo_witness :
  let get_body :=
    Legistar.get_legistar_body LegistarExample.World
      LegistarExample.requests_get LegistarExample.repr
      "seattle" (JInt 3) true in
  let st' := snd (get_body LegistarExample.start) in
  get_body LegistarExample.start = (Py.Return LegistarExample.council, st') /\
  Legistar.world _ st' = 1%nat /\
  get_body st' = (Py.Return LegistarExample.council, st').
Proof.
  intros get_body st'.
  assert (H : get_body LegistarExample.start
              = (Py.Return LegistarExample.council, st')) by reflexivity.
  split; [exact H|]. split; [reflexivity|].
  exact (get_legistar_body_memo _ _ _ _ _ _ _ _ H).
Defined.

Lemma get_legistar_person_memo_witness :
  let get_person :=
    Legistar.get_legistar_person LegistarExample.World
      LegistarExample.requests_get LegistarExample.repr
      "seattle" (JInt 7) true in
  let person :=
    match fst (get_person LegistarExample.start) with
    | Py.Return person => person
    | Py.Raise _ => JNull
    end in
  let st' := snd (get_person LegistarExample.start) in
  get_person LegistarExample.start = (Py.Return person, st') /\
  Legistar.world _ st' = 3%nat /\
  get_person st' = (Py.Return person, st').
Proof.
  intros get_person person st'.
  assert (H : get_person LegistarExample.start = (Py.Return person, st'))
    by reflexivity.
  split; [exact H|]. split; [reflexivity|].
  exact (get_legistar_person_memo _ _ _ _ _ _ _ _ H).
Defined.

Lemma get_legistar_person_fetched_witness :
  let get_person :=
    Legistar.get_legistar_person LegistarExample.World
      LegistarExample.requests_get LegistarExample.repr
      "seattle" (JInt 7) true in
  let person :=
    match fst (get_person LegistarExample.start) with
    | Py.Return person => person
    | Py.Raise _ => JNull
    end in
  let st' := snd (get_person LegistarExample.start) in
  get_person LegistarExample.start = (Py.Return person, st') /\
  person <> JNull /\
  Legistar.person_with_roles
    (Legistar.known_legistar_bodies _ st') true person.
Proof.
  intros get_person person st'.
  assert (H : get_person LegistarExample.start = (Py.Return person, st'))
    by reflexivity.
  split; [exact H|]. split; [discriminate|].
  refine (get_legistar_person_fetched _ _ _ "seattle" (JInt 7) true
            LegistarExample.start person st' _ H).
  intros _. exists (Legistar.KInt 7). split; reflexivity.
Defined.

Lemma onclick_target_window_open_witness :
  LegistarContent.onclick_target
    "window.open('Video.aspx?Mode=Granicus&ID1=8844','video');return false;"
  = "Video.aspx?Mode=Granicus&ID1=8844".
Proof.
  exact (onclick_target_window_open "window.open("
           "Video.aspx?Mode=Granicus&ID1=8844" "'video');return false;"
           eq_refl eq_refl eq_refl).
Defined.

Lemma content_uris_known_parser_only_witness :
  let get all_parsers :=
    LegistarContent.get_legistar_content_uris ContentExample.World
      ContentExample.Soup ContentExample.urlopen
      ContentExample.find_video_link Example.str_simplified all_parsers
      "seattle" ContentExample.event ContentExample.stuck in
  get ContentExample.all_parsers = get [] /\
  fst (get ContentExample.all_parsers) = Py.Raise Py.NotImplementedError.
Proof.
  intros get. split; [|reflexivity].
  refine (content_uris_known_parser_only _ _ ContentExample.urlopen
            ContentExample.find_video_link Example.str_simplified
            ContentExample.all_parsers [] "seattle" ContentExample.event
            ContentExample.stuck ContentExample.finds_nothing _).
  reflexivity.
Defined.

Lemma content_uris_ok_iff_uris_witness :
  let r :=
    LegistarContent.get_legistar_content_uris ContentExample.World
      ContentExample.Soup ContentExample.urlopen
      ContentExample.find_video_link Example.str_simplified
      ContentExample.all_parsers
      "seattle" ContentExample.event ContentExample.start in
  r = (Py.Return (LegistarContent.Ok, Some [ContentExample.video]), snd r) /\
  ((LegistarContent.Ok = LegistarContent.Ok /\
    exists found, Some [ContentExample.video] = Some found) \/
   (LegistarContent.Ok <> LegistarContent.Ok /\
    Some [ContentExample.video] = None)).
Proof.
  intros r.
  assert (H : r = (Py.Return (LegistarContent.Ok,
                              Some [ContentExample.video]), snd r))
    by reflexivity.
  split; [exact H|].
  exact (content_uris_ok_iff_uris _ _ _ _ _ _ _ _ _ _ _ _ H).
Defined.

Lemma legistar_events_complete_witness :
  let r :=
    Legistar.get_legistar_events_for_timespan LegistarExample.World
      LegistarExample.requests_get LegistarExample.repr
      LegistarExample.utcnow LegistarExample.str_datetime
      "seattle" (Some 0) (Some 1) LegistarExample.start in
  let events :=
    match fst r with
    | Py.Return (JList events) => events
    | _ => []
    end in
  r = (Py.Return (JList events), snd r) /\
  length events = 1%nat /\
  Legistar.world _ (snd r) = 7%nat /\
  Forall (Legistar.event_complete LegistarExample.World (snd r)) events.
Proof.
  intros r events.
  assert (H : r = (Py.Return (JList events), snd r)) by reflexivity.
  split; [exact H|]. split; [reflexivity|]. split; [reflexivity|].
  exact (legistar_events_complete LegistarExample.World
           LegistarExample.requests_get LegistarExample.repr
           LegistarExample.utcnow LegistarExample.str_datetime
           "seattle" (Some 0) (Some 1) LegistarExample.start
           (JList events) (snd r) H events eq_refl).
Defined.

Lemma StaticFileExample_creates_seat :
  creates_seat StaticFileExample.Seat_from_dict.
Proof.
  intros j h s h' H. destruct j; try discriminate H.
  injection H as <- <-. split; [lia|]. split; [auto|]. intros r [].
Qed.

Lemma StaticFileExample_creates_titled_roles :
  creates_titled_roles StaticFileExample.Seat_from_dict.
Proof.
  intros j h s h' r H. destruct j; try discriminate H.
  injection H as <- <-. intros [].
Qed.

Lemma parse_static_file_roles_apart_witness :
  let parsed :=
    parse_static_file StaticFileExample.read_json
      StaticFileExample.Seat_from_dict StaticExample.Person_from_dict
      StaticExample.Role_from_dict StaticExample.Body_from_dict
      "static.json" StaticFileExample.scraped_heap in
  let seats : gmap string Seat := {[ "Position 1" := {| roles := None |} ]} in
  let jane := {| seat := Some {| roles := Some [4%nat] |} |} in
  let john := {| seat := None |} in
  let sd := {| primary_bodies := StaticExample.primary_bodies;
               persons := {[ "Jane" := jane; "John" := john ]} |} in
  let h' := match parsed with
            | Py.Return (_, h') => h'
            | Py.Raise _ => StaticFileExample.scraped_heap
            end in
  parsed = Py.Return (seats, sd, h') /\
  ~ In 4%nat (seat_roles_of john).
Proof.
  intros parsed seats jane john sd h'.
  assert (H : parsed = Py.Return (seats, sd, h')) by reflexivity.
  split; [exact H|].
  apply (proj1 (parse_static_file_roles_apart _ _ _ _ _ _ _ _ _ _
                  StaticFileExample_creates_seat
                  StaticExample_decodes_no_seat H)
           "Jane" "John" jane john 4%nat);
    [discriminate|reflexivity|reflexivity|simpl; auto].
Defined.

Lemma parse_static_file_titles_closed_witness :
  let parsed :=
    parse_static_file StaticFileExample.read_json
      StaticFileExample.Seat_from_dict StaticExample.Person_from_dict
      StaticExample.Role_from_dict StaticExample.Body_from_dict
      "static.json" StaticFileExample.scraped_heap in
  let seats : gmap string Seat := {[ "Position 1" := {| roles := None |} ]} in
  let sd := {| primary_bodies := StaticExample.primary_bodies;
               persons :=
                 {[ "Jane" := {| seat := Some {| roles := Some [4%nat] |} |};
                    "John" := {| seat := None |} ]} |} in
  let h' := match parsed with
            | Py.Return (_, h') => h'
            | Py.Raise _ => StaticFileExample.scraped_heap
            end in
  let run :=
    sanitize_roles Example.str_simplified (Example.day 7) "Jane" (Some sd)
      default_council_pres_patterns default_chair_patterns
      (Some [0; 1; 2; 3]%nat) (objects h') in
  let σ' := returned_store run (objects h') in
  parsed = Py.Return (seats, sd, h') /\
  run = Ok (σ', Some [4%nat]) /\
  titled σ' 4%nat.
Proof.
  intros parsed seats sd h' run σ'.
  assert (H : parsed = Py.Return (seats, sd, h')) by reflexivity.
  assert (Hrun : run = Ok (σ', Some [4%nat])) by reflexivity.
  split; [exact H|]. split; [exact Hrun|].
  apply (parse_static_file_titles_closed _ _ _ _ _ _ _ _ _ _ _ _ _ _ _ _
           _ _ StaticFileExample_creates_seat
           StaticFileExample_creates_titled_roles
           StaticExample_decodes_no_seat StaticExample_decodes_title
           H Hrun).
  simpl. auto.
Defined.

Lemma period_validator_answer_witness :
  start_datetime (Example.with_statics 0%nat) = Some (Example.day 2) /\
  end_datetime (Example.with_statics 0%nat) = Some (Example.day 3) /\
  _is_role_period_ok (Example.day 7) "Jane"
    (Some (Example.static_data [5; 6]%nat))
    Example.with_statics (Example.with_statics 0%nat) = Ok true /\
  have_primary_roles "Jane" (Some (Example.static_data [5; 6]%nat)) = true /\
  true = existsb (contains_period Example.with_statics
                    (Example.day 2) (Example.day 3))
           (default [] (static_roles "Jane"
                          (Some (Example.static_data [5; 6]%nat)))).
Proof.
  split; [reflexivity|]. split; [reflexivity|]. split; [reflexivity|].
  split; [reflexivity|].
  destruct (period_validator_answer (Example.day 7) "Jane"
              (Some (Example.static_data [5; 6]%nat))
              Example.with_statics (Example.with_statics 0%nat))
    as (_ & H).
  apply (H (Example.day 2) (Example.day 3) true); reflexivity.
Defined.
